(** * Prometheus remote-write example: scraper, encoder, write and query clients

    A shallow embedding of the TypeScript sources of the repository (the
    two clients of the full path, the two simple clients and the two test
    scripts), the properties the specification states about them, and
    further properties of the sources.

    Modelling conventions.
    - A JavaScript string is a [string]: a sequence of 8-bit characters
      (the UTF-8 bytes of the text).  The classes [\w] and [0-9.] of the
      regular expressions are ASCII; [\s] holds, besides its six ASCII
      characters, the Unicode blanks, which are sequences of two or three
      bytes; a negated class ([^}], [^Q] for the double quote Q) takes any
      byte but the one it excludes.
    - A JavaScript number is an IEEE-754 binary64 value, kept as its 64-bit
      pattern in [Z]; the operations that the code path needs on it
      (integrality, the integer it holds) are written out on the pattern.
    - The library entry points that the sources call ([parseFloat],
      [snappy.compress], the HTTP transport) are parameters of the
      development, or are written out from their documented behaviour where
      a statement depends on it (protobufjs's verify, encode and decode for
      the schema that client.ts declares, axios's settling of a request). *)

From Stdlib Require Import ZArith List String Ascii Bool Lia Arith.
From Stdlib Require Import Strings.Byte DecimalString.
Import ListNotations.

Open Scope string_scope.
Open Scope list_scope.

Infix "+++" := String.append (right associativity, at level 60).

(** ** Strings *)

(** The double quote character (code 34). *)
Definition DQ : ascii := "034"%char.

Definition str (c : ascii) : string := String c EmptyString.

Definition code (c : ascii) : nat := nat_of_ascii c.

(** [0-9] *)
Definition isDigit (c : ascii) : bool :=
  ((48 <=? code c) && (code c <=? 57))%nat.

(** [\w]: [A-Za-z0-9_] *)
Definition isWord (c : ascii) : bool :=
  isDigit c
  || ((65 <=? code c) && (code c <=? 90))%nat
  || ((97 <=? code c) && (code c <=? 122))%nat
  || (code c =? 95)%nat.

(** The one-byte characters of [\s]: tab, line feed, vertical tab, form feed,
    carriage return, space. *)
Definition isAsciiSpace (c : ascii) : bool :=
  (((9 <=? code c) && (code c <=? 13)) || (code c =? 32))%nat.

(** The three-byte characters of [\s], by the bytes of their UTF-8 encoding:
    U+1680 (225 154 128), U+2000 to U+200A (226 128 128 to 138), U+2028 and
    U+2029 (226 128 168 and 169), U+202F (226 128 175), U+205F (226 129 159),
    U+3000 (227 128 128) and U+FEFF (239 187 191). *)
Definition isSpace3 (b1 b2 b3 : nat) : bool :=
  ((b1 =? 225) && (b2 =? 154) && (b3 =? 128)
   || (b1 =? 226) && (b2 =? 128)
      && ((128 <=? b3) && (b3 <=? 138) || (b3 =? 168) || (b3 =? 169)
          || (b3 =? 175))
   || (b1 =? 226) && (b2 =? 129) && (b3 =? 159)
   || (b1 =? 227) && (b2 =? 128) && (b3 =? 128)
   || (b1 =? 239) && (b2 =? 187) && (b3 =? 191))%nat.

(** White space: what [\s] matches and [String.prototype.trim] strips.  The
    number of bytes of the white space character at the head of [s], and 0
    when [s] does not begin with one.  The two-byte character is U+00A0
    (194 160). *)
Definition whiteSpace (s : string) : nat :=
  match s with
  | String c1 s1 =>
      if isAsciiSpace c1 then 1
      else
        match s1 with
        | String c2 s2 =>
            if ((code c1 =? 194) && (code c2 =? 160))%nat then 2
            else
              match s2 with
              | String c3 _ =>
                  if isSpace3 (code c1) (code c2) (code c3) then 3 else 0
              | EmptyString => 0
              end
        | EmptyString => 0
        end
  | EmptyString => 0
  end.

(** The first byte of a white space character: an ASCII blank, or the lead
    byte of one of the longer encodings. *)
Definition isSpaceHead (c : ascii) : bool :=
  isAsciiSpace c || (194 <=? code c)%nat.

(** [[0-9.]] *)
Definition isValueChar (c : ascii) : bool :=
  isDigit c || (code c =? 46)%nat.

Definition isChar (a : ascii) (c : ascii) : bool := Ascii.eqb c a.
Definition isNotChar (a : ascii) (c : ascii) : bool := negb (Ascii.eqb c a).

Definition LF : ascii := "010"%char.

(** Every character of [s] satisfies [p]. *)
Fixpoint all (p : ascii -> bool) (s : string) : bool :=
  match s with
  | EmptyString => true
  | String c s' => p c && all p s'
  end.

(** JavaScript truthiness of a string: the empty string is falsy. *)
Definition truthy (s : string) : bool :=
  match s with
  | EmptyString => false
  | String _ _ => true
  end.

(** [s.split('\n')]: the pieces between line feeds; the empty string splits
    into one empty piece. *)
Fixpoint split (sep : ascii) (s : string) : list string :=
  match s with
  | EmptyString => [EmptyString]
  | String c s' =>
      if Ascii.eqb c sep then EmptyString :: split sep s'
      else match split sep s' with
           | piece :: pieces => String c piece :: pieces
           | [] => [str c]
           end
  end.

(** What follows the white space character at the head of [s], when [s]
    begins with one. *)
Definition dropSpace (s : string) : option string :=
  match whiteSpace s, s with
  | 1, String _ r => Some r
  | 2, String _ (String _ r) => Some r
  | 3, String _ (String _ (String _ r)) => Some r
  | _, _ => None
  end.

(** [s.trimStart()]: the white space characters at the start are dropped. *)
Fixpoint trimStart (s : string) : string :=
  match s with
  | String _ s1 =>
      match whiteSpace s with
      | 1 => trimStart s1
      | 2 =>
          match s1 with
          | String _ s2 => trimStart s2
          | EmptyString => s
          end
      | 3 =>
          match s1 with
          | String _ (String _ s3) => trimStart s3
          | _ => s
          end
      | _ => s
      end
  | EmptyString => EmptyString
  end.

(** [s] is a sequence of white space characters. *)
Fixpoint allSpace (s : string) : bool :=
  match s with
  | String _ s1 =>
      match whiteSpace s with
      | 1 => allSpace s1
      | 2 =>
          match s1 with
          | String _ s2 => allSpace s2
          | EmptyString => false
          end
      | 3 =>
          match s1 with
          | String _ (String _ s3) => allSpace s3
          | _ => false
          end
      | _ => false
      end
  | EmptyString => true
  end.

(** [s.trimEnd()]: the text up to the white space that ends it. *)
Fixpoint trimEnd (s : string) : string :=
  match s with
  | EmptyString => EmptyString
  | String c s' => if allSpace s then EmptyString else String c (trimEnd s')
  end.

(** [s.trim()] *)
Definition trim (s : string) : string := trimEnd (trimStart s).

(** [s.startsWith(c)] for a one-character needle. *)
Definition startsWith (c : ascii) (s : string) : bool :=
  match s with
  | String a _ => Ascii.eqb a c
  | EmptyString => false
  end.

(** [pieces.join(sep)] *)
Fixpoint join (sep : string) (pieces : list string) : string :=
  match pieces with
  | [] => EmptyString
  | [p] => p
  | p :: rest => p +++ sep +++ join sep rest
  end.

(** The longest prefix of [s] whose characters satisfy [p], and what follows. *)
Fixpoint span (p : ascii -> bool) (s : string) : string * string :=
  match s with
  | String c s' =>
      if p c then let (run, rest) := span p s' in (String c run, rest)
      else (EmptyString, s)
  | EmptyString => (EmptyString, EmptyString)
  end.

(** The longest prefix of [s] made of white space characters, and what
    follows. *)
Fixpoint spanSpace (s : string) : string * string :=
  match s with
  | String c1 s1 =>
      match whiteSpace s with
      | 1 => let (run, rest) := spanSpace s1 in (String c1 run, rest)
      | 2 =>
          match s1 with
          | String c2 s2 =>
              let (run, rest) := spanSpace s2 in
              (String c1 (String c2 run), rest)
          | EmptyString => (EmptyString, s)
          end
      | 3 =>
          match s1 with
          | String c2 (String c3 s3) =>
              let (run, rest) := spanSpace s3 in
              (String c1 (String c2 (String c3 run)), rest)
          | _ => (EmptyString, s)
          end
      | _ => (EmptyString, s)
      end
  | EmptyString => (EmptyString, EmptyString)
  end.

(** ** Backtracking regular-expression matching

    The matchers are written in continuation-passing style, as a
    backtracking engine runs a pattern: a greedy quantifier first takes as
    many characters as it can and gives them back one at a time while what
    follows it in the pattern fails. *)

Module Regex.

Section Combinators.
Context {R : Type}.

Definition Cont : Type := string -> option R.

(** One character of the class [p]. *)
Definition char (p : ascii -> bool) (k : Cont) : Cont :=
  fun s =>
    match s with
    | String c s' => if p c then k s' else None
    | EmptyString => None
    end.

(** Greedy [p*] in a capture group: [acc] is the text taken so far; the
    continuation receives the captured text. *)
Fixpoint star (p : ascii -> bool) (k : string -> Cont) (acc : string)
  (s : string) : option R :=
  match s with
  | String c s' =>
      if p c then
        match star p k (acc +++ str c) s' with
        | Some r => Some r
        | None => k acc s
        end
      else k acc s
  | EmptyString => k acc s
  end.

(** Greedy [p+] in a capture group. *)
Definition plus (p : ascii -> bool) (k : string -> Cont) : Cont :=
  fun s =>
    match s with
    | String c s' => if p c then star p k (str c) s' else None
    | EmptyString => None
    end.

(** Greedy [\s*], outside any capture group: as many white space
    characters as there are, given back one character at a time while what
    follows in the pattern fails. *)
Fixpoint spaces (k : Cont) (s : string) : option R :=
  let orElse (a b : option R) :=
    match a with
    | Some r => Some r
    | None => b
    end in
  match s with
  | String _ s1 =>
      match whiteSpace s with
      | 1 => orElse (spaces k s1) (k s)
      | 2 =>
          match s1 with
          | String _ s2 => orElse (spaces k s2) (k s)
          | EmptyString => k s
          end
      | 3 =>
          match s1 with
          | String _ (String _ s3) => orElse (spaces k s3) (k s)
          | _ => k s
          end
      | _ => k s
      end
  | EmptyString => k s
  end.

(** Greedy [\s+]: one white space character, then [\s*]. *)
Definition spaces1 (k : Cont) : Cont :=
  fun s =>
    match s with
    | String _ s1 =>
        match whiteSpace s with
        | 1 => spaces k s1
        | 2 =>
            match s1 with
            | String _ s2 => spaces k s2
            | EmptyString => None
            end
        | 3 =>
            match s1 with
            | String _ (String _ s3) => spaces k s3
            | _ => None
            end
        | _ => None
        end
    | EmptyString => None
    end.

(** Greedy [(g)?]: the group is tried first; when the match cannot be
    completed with it, the pattern goes on without it and the capture is
    undefined. *)
Definition opt {A : Type} (g : (A -> Cont) -> Cont) (k : option A -> Cont)
  : Cont :=
  fun s =>
    match g (fun a => k (Some a)) s with
    | Some r => Some r
    | None => k None s
    end.

(** An unanchored pattern is tried at every position from the left. *)
Fixpoint search (re : Cont) (s : string) : option R :=
  match re s with
  | Some r => Some r
  | None =>
      match s with
      | String _ s' => search re s'
      | EmptyString => None
      end
  end.

End Combinators.

End Regex.

(** ** Numbers

    A JavaScript number: the 64-bit pattern of an IEEE-754 binary64 value
    (sign bit, 11 exponent bits, 52 fraction bits). *)
Definition number : Type := Z.

(** ** Data model: the messages of the schema [prometheusProto]

<<
message WriteRequest { repeated TimeSeries timeseries = 1; }
message TimeSeries   { repeated Label labels = 1; repeated Sample samples = 2; }
message Label        { string name = 1; string value = 2; }
message Sample       { double value = 1; int64 timestamp = 2; }
>> *)

Module Label.
Record t : Type := mk { name : string; value : string }.
End Label.

Module Sample.
Record t : Type := mk { value : number; timestamp : Z }.
End Sample.

Module TimeSeries.
Record t : Type := mk { labels : list Label.t; samples : list Sample.t }.
End TimeSeries.

Module WriteRequest.
Record t : Type := mk { timeseries : list TimeSeries.t }.
End WriteRequest.


(** ** Numbers: what the encoder needs of IEEE-754 binary64 *)

Module Number.

Local Open Scope Z_scope.

(** The biased exponent and the fraction of a pattern, and its sign. *)
Definition exponent (x : number) : Z := (x / 2 ^ 52) mod 2 ^ 11.
Definition fraction (x : number) : Z := x mod 2 ^ 52.
Definition negative (x : number) : bool := 2 ^ 63 <=? x mod 2 ^ 64.

(** [Number.isInteger(x)]: finite and without fractional part. *)
Definition isInteger (x : number) : bool :=
  let e := exponent x in
  let m := fraction x in
  if e =? 2047 then false
  else if e =? 0 then m =? 0
  else if 1075 <=? e then true
  else if e <? 1023 then false
  else (2 ^ 52 + m) mod 2 ^ (1075 - e) =? 0.

(** The integer that an integral number holds. *)
Definition toInteger (x : number) : Z :=
  let e := exponent x in
  let m := fraction x in
  let a :=
    if e =? 0 then 0
    else if 1075 <=? e then (2 ^ 52 + m) * 2 ^ (e - 1075)
    else (2 ^ 52 + m) / 2 ^ (1075 - e) in
  if negative x then - a else a.

(** The number that holds the integer [z]; exact for [|z| < 2^53], the
    range of the time values that [Date.now()] returns. *)
Definition ofInteger (z : Z) : number :=
  if z =? 0 then 0
  else
    let a := Z.abs z in
    let e := Z.log2 a in
    let m :=
      if e <=? 52 then a * 2 ^ (52 - e) - 2 ^ 52
      else a / 2 ^ (e - 52) - 2 ^ 52 in
    (if z <? 0 then 2 ^ 63 else 0) + (e + 1023) * 2 ^ 52 + m.

End Number.

(** ** JavaScript values *)

Set Warnings "-register-all".
Inductive jsval : Type :=
| JUndefined
| JNull
| JBoolean (b : bool)
| JNumber (x : number)
| JString (s : string)
| JArray (items : list jsval)
| JObject (props : list (string * jsval)).

Module JS.

Fixpoint lookup (key : string) (props : list (string * jsval))
  : option jsval :=
  match props with
  | [] => None
  | (k, v) :: rest => if String.eqb k key then Some v else lookup key rest
  end.

(** [typeof v === "object" && v !== null] *)
Definition isObject (v : jsval) : bool :=
  match v with
  | JArray _ | JObject _ => true
  | _ => false
  end.

(** [v != null] *)
Definition notNullish (v : jsval) : bool :=
  match v with
  | JUndefined | JNull => false
  | _ => true
  end.

(** The own property [key] of [m] when [m[key] != null &&
    m.hasOwnProperty(key)].  No field of the schema is an own property of an
    array. *)
Definition field (m : jsval) (key : string) : option jsval :=
  match m with
  | JObject props =>
      match lookup key props with
      | Some v => if notNullish v then Some v else None
      | None => None
      end
  | _ => None
  end.

(** [util.isInteger(v)] *)
Definition isInteger (v : option jsval) : bool :=
  match v with
  | Some (JNumber x) => Number.isInteger x
  | _ => false
  end.

(** [v && util.isInteger(v.low) && util.isInteger(v.high)] *)
Definition isLongLike (v : jsval) : bool :=
  match v with
  | JObject props => isInteger (lookup "low" props) && isInteger (lookup "high" props)
  | _ => false
  end.

(** The conversion of [v] to a string, as a template literal makes it, does
    not throw.  The values are those of a parsed JSON text, so no property
    is a function: an object with an own property [toString] has no method
    to convert it (the inherited [valueOf] returns the object itself) and
    the conversion throws a TypeError; an object without one is converted by
    [Object.prototype.toString]; an array joins the conversions of its
    elements, those of [null] and [undefined] being empty. *)
Fixpoint printable (v : jsval) : bool :=
  match v with
  | JArray items =>
      (fix each (l : list jsval) : bool :=
         match l with
         | [] => true
         | item :: rest => printable item && each rest
         end) items
  | JObject props =>
      match lookup "toString" props with
      | Some _ => false
      | None => true
      end
  | _ => true
  end.

(** The object literals of client.ts. *)
Definition label (l : Label.t) : jsval :=
  JObject [("name", JString (Label.name l)); ("value", JString (Label.value l))].

Definition sample (s : Sample.t) : jsval :=
  JObject [("value", JNumber (Sample.value s));
           ("timestamp", JNumber (Number.ofInteger (Sample.timestamp s)))].

Definition series (t : TimeSeries.t) : jsval :=
  JObject [("labels", JArray (map label (TimeSeries.labels t)));
           ("samples", JArray (map sample (TimeSeries.samples t)))].

(** [{ timeseries }] *)
Definition writeRequest (timeseries : list TimeSeries.t) : jsval :=
  JObject [("timeseries", JArray (map series timeseries))].

End JS.

(** ** Errors and results *)

Inductive error : Type :=
| Error (message : string)
| AxiosError (message : string) (response : option (Z * jsval)).

Inductive result (A : Type) : Type :=
| Return (a : A)
| Throw (e : error).
Arguments Return {A} a.
Arguments Throw {A} e.

(** ** protobufjs on the schema of client.ts

    [root.lookupType] builds, from the declared schema, the functions
    [verify], [create], [encode] and [decode] of each message type.  They are
    written out here for the four messages of [prometheusProto], following the
    code that protobufjs generates for such fields and the protobuf wire
    format. *)

Module Protobuf.

Local Open Scope Z_scope.

Definition byte_of_Z (z : Z) : byte :=
  match Byte.of_N (Z.to_N (z mod 256)) with
  | Some b => b
  | None => x00
  end.

Definition Z_of_byte (b : byte) : Z := Z.of_N (Byte.to_N b).

Definition len {A : Type} (l : list A) : Z := Z.of_nat (List.length l).

(** *** Verification *)

Definition orElse (e : option string) (next : option string) : option string :=
  match e with
  | Some _ => e
  | None => next
  end.

(** A field that is present is checked; an absent one is not an error. *)
Definition present (m : jsval) (key : string)
  (check : jsval -> option string) : option string :=
  match JS.field m key with
  | Some v => check v
  | None => None
  end.

Definition expectString (key : string) (v : jsval) : option string :=
  match v with
  | JString _ => None
  | _ => Some (key +++ ": string expected")
  end.

Definition expectNumber (key : string) (v : jsval) : option string :=
  match v with
  | JNumber _ => None
  | _ => Some (key +++ ": number expected")
  end.

Definition expectInt64 (key : string) (v : jsval) : option string :=
  if JS.isInteger (Some v) || JS.isLongLike v then None
  else Some (key +++ ": integer|Long expected").

(** A repeated message field: an array, each element verified in turn; the
    first error is reported under the name of the field. *)
Fixpoint firstError (verify : jsval -> option string) (items : list jsval)
  : option string :=
  match items with
  | [] => None
  | item :: rest => orElse (verify item) (firstError verify rest)
  end.

Definition expectRepeated (key : string) (verify : jsval -> option string)
  (v : jsval) : option string :=
  match v with
  | JArray items =>
      match firstError verify items with
      | Some e => Some (key +++ "." +++ e)
      | None => None
      end
  | _ => Some (key +++ ": array expected")
  end.

Definition expectObject (m : jsval) (fields : option string) : option string :=
  if JS.isObject m then fields else Some "object expected".

Definition Label_verify (m : jsval) : option string :=
  expectObject m
    (orElse (present m "name" (expectString "name"))
            (present m "value" (expectString "value"))).

Definition Sample_verify (m : jsval) : option string :=
  expectObject m
    (orElse (present m "value" (expectNumber "value"))
            (present m "timestamp" (expectInt64 "timestamp"))).

Definition TimeSeries_verify (m : jsval) : option string :=
  expectObject m
    (orElse (present m "labels" (expectRepeated "labels" Label_verify))
            (present m "samples" (expectRepeated "samples" Sample_verify))).

(** [WriteRequest.verify(m)]: [None] stands for [null], no error. *)
Definition WriteRequest_verify (m : jsval) : option string :=
  expectObject m
    (present m "timeseries" (expectRepeated "timeseries" TimeSeries_verify)).

(** *** Writer *)

Module Writer.

(** Base-128 varint, least significant group first. *)
Fixpoint varint (fuel : nat) (n : Z) : list byte :=
  match fuel with
  | O => []
  | S fuel' =>
      if n <? 128 then [byte_of_Z n]
      else byte_of_Z (n mod 128 + 128) :: varint fuel' (n / 128)
  end.

(** [uint32(value)]: [value >>> 0] on at most five bytes. *)
Definition uint32 (value : Z) : list byte := varint 5 (value mod 2 ^ 32).

(** [int64(value)]: the 64-bit two's complement of [value] on at most ten
    bytes. *)
Definition int64 (value : Z) : list byte := varint 10 (value mod 2 ^ 64).

Fixpoint littleEndian (n : nat) (x : Z) : list byte :=
  match n with
  | O => []
  | S n' => byte_of_Z (x mod 256) :: littleEndian n' (x / 256)
  end.

(** [double(value)]: the eight bytes of the pattern, low byte first. *)
Definition double (value : number) : list byte :=
  littleEndian 8 (value mod 2 ^ 64).

(** [string(value)]: the byte length, then the bytes. *)
Definition string (value : String.string) : list byte :=
  let b := list_byte_of_string value in
  uint32 (len b) ++ b.

(** [fork() ... ldelim()]: the nested message, length first. *)
Definition ldelim (body : list byte) : list byte :=
  uint32 (len body) ++ body.

End Writer.

(** *** Encoding *)

(** [LongBits.from(value)] as an unsigned integer: a number through
    [fromNumber], a Long-like object through its [low] and [high] words. *)
Definition longBits (v : jsval) : Z :=
  match v with
  | JNumber x => Number.toInteger x mod 2 ^ 64
  | JObject props =>
      match JS.lookup "low" props, JS.lookup "high" props with
      | Some (JNumber lo), Some (JNumber hi) =>
          Number.toInteger lo mod 2 ^ 32
          + 2 ^ 32 * (Number.toInteger hi mod 2 ^ 32)
      | _, _ => 0
      end
  | _ => 0
  end.

(** A scalar field is written when it is present.  The value has the type
    of the field: [verify] ran before. *)
Definition writeString (tag : Z) (v : option jsval) : list byte :=
  match v with
  | Some (JString s) => Writer.uint32 tag ++ Writer.string s
  | _ => []
  end.

Definition writeDouble (tag : Z) (v : option jsval) : list byte :=
  match v with
  | Some (JNumber x) => Writer.uint32 tag ++ Writer.double x
  | _ => []
  end.

Definition writeInt64 (tag : Z) (v : option jsval) : list byte :=
  match v with
  | Some v => Writer.uint32 tag ++ Writer.int64 (longBits v)
  | None => []
  end.

(** A repeated message field: each element under the tag, length-delimited. *)
Definition writeRepeated (tag : Z) (encode : jsval -> list byte)
  (v : option jsval) : list byte :=
  match v with
  | Some (JArray items) =>
      flat_map (fun item => Writer.uint32 tag ++ Writer.ldelim (encode item)) items
  | _ => []
  end.

(** Tags: field 1 and 2 as length-delimited (10, 18), field 1 as 64-bit (9),
    field 2 as varint (16). *)
Definition Label_encode (m : jsval) : list byte :=
  writeString 10 (JS.field m "name") ++ writeString 18 (JS.field m "value").

Definition Sample_encode (m : jsval) : list byte :=
  writeDouble 9 (JS.field m "value") ++ writeInt64 16 (JS.field m "timestamp").

Definition TimeSeries_encode (m : jsval) : list byte :=
  writeRepeated 10 Label_encode (JS.field m "labels")
  ++ writeRepeated 18 Sample_encode (JS.field m "samples").

(** [WriteRequest.encode(message).finish()] *)
Definition WriteRequest_encode (m : jsval) : list byte :=
  writeRepeated 10 TimeSeries_encode (JS.field m "timeseries").

(** [WriteRequest.create(properties)]: a message with the default empty
    [timeseries], onto which the own properties of [properties] other than
    [null] and [undefined] are copied. *)
Definition WriteRequest_create (properties : jsval) : jsval :=
  match properties with
  | JObject props =>
      JObject (filter (fun kv => JS.notNullish (snd kv)) props
               ++ [("timeseries", JArray [])])
  | _ => JObject [("timeseries", JArray [])]
  end.

(** *** Reader *)

Module Reader.

Fixpoint varint (fuel : nat) (buf : list byte) : option (Z * list byte) :=
  match fuel, buf with
  | S fuel', b :: rest =>
      let v := Z_of_byte b in
      if v <? 128 then Some (v, rest)
      else
        match varint fuel' rest with
        | Some (hi, rest') => Some (v - 128 + 128 * hi, rest')
        | None => None
        end
  | _, _ => None
  end.

Definition uint32 (buf : list byte) : option (Z * list byte) :=
  match varint 10 buf with
  | Some (v, rest) => Some (v mod 2 ^ 32, rest)
  | None => None
  end.

(** A signed 64-bit integer. *)
Definition int64 (buf : list byte) : option (Z * list byte) :=
  match varint 10 buf with
  | Some (v, rest) =>
      let u := v mod 2 ^ 64 in
      Some (if 2 ^ 63 <=? u then u - 2 ^ 64 else u, rest)
  | None => None
  end.

Fixpoint littleEndian (n : nat) (buf : list byte) : option (Z * list byte) :=
  match n with
  | O => Some (0, buf)
  | S n' =>
      match buf with
      | b :: rest =>
          match littleEndian n' rest with
          | Some (hi, rest') => Some (Z_of_byte b + 256 * hi, rest')
          | None => None
          end
      | [] => None
      end
  end.

Definition double (buf : list byte) : option (number * list byte) :=
  littleEndian 8 buf.

(** [n] bytes, when the buffer holds as many. *)
Definition take (n : Z) (buf : list byte) : option (list byte * list byte) :=
  if n <=? len buf
  then Some (firstn (Z.to_nat n) buf, skipn (Z.to_nat n) buf)
  else None.

(** A length-delimited field. *)
Definition bytes (buf : list byte) : option (list byte * list byte) :=
  match uint32 buf with
  | Some (n, rest) => take n rest
  | None => None
  end.

Definition string (buf : list byte) : option (String.string * list byte) :=
  match bytes buf with
  | Some (b, rest) => Some (string_of_list_byte b, rest)
  | None => None
  end.

(** A field that the message does not know is skipped by its wire type:
    varint, 64-bit, length-delimited, 32-bit.  Groups are not read. *)
Definition skipType (wireType : Z) (buf : list byte) : option (list byte) :=
  match wireType with
  | 0 => option_map snd (varint 10 buf)
  | 1 => option_map snd (take 8 buf)
  | 2 => option_map snd (bytes buf)
  | 5 => option_map snd (take 4 buf)
  | _ => None
  end.

End Reader.

(** *** Decoding

    Each message is read field after field until its bytes are used up; a
    field takes at least one byte, so the length of the buffer bounds the
    number of rounds. *)

Fixpoint Label_fields (fuel : nat) (buf : list byte) (m : Label.t)
  : option Label.t :=
  match buf, fuel with
  | [], _ => Some m
  | _, O => None
  | _, S fuel' =>
      match Reader.uint32 buf with
      | Some (tag, buf1) =>
          match tag / 8 with
          | 1 =>
              match Reader.string buf1 with
              | Some (s, buf2) =>
                  Label_fields fuel' buf2 (Label.mk s (Label.value m))
              | None => None
              end
          | 2 =>
              match Reader.string buf1 with
              | Some (s, buf2) =>
                  Label_fields fuel' buf2 (Label.mk (Label.name m) s)
              | None => None
              end
          | _ =>
              match Reader.skipType (tag mod 8) buf1 with
              | Some buf2 => Label_fields fuel' buf2 m
              | None => None
              end
          end
      | None => None
      end
  end.

Definition Label_decode (buf : list byte) : option Label.t :=
  Label_fields (List.length buf) buf (Label.mk EmptyString EmptyString).

Fixpoint Sample_fields (fuel : nat) (buf : list byte) (m : Sample.t)
  : option Sample.t :=
  match buf, fuel with
  | [], _ => Some m
  | _, O => None
  | _, S fuel' =>
      match Reader.uint32 buf with
      | Some (tag, buf1) =>
          match tag / 8 with
          | 1 =>
              match Reader.double buf1 with
              | Some (x, buf2) =>
                  Sample_fields fuel' buf2 (Sample.mk x (Sample.timestamp m))
              | None => None
              end
          | 2 =>
              match Reader.int64 buf1 with
              | Some (t, buf2) =>
                  Sample_fields fuel' buf2 (Sample.mk (Sample.value m) t)
              | None => None
              end
          | _ =>
              match Reader.skipType (tag mod 8) buf1 with
              | Some buf2 => Sample_fields fuel' buf2 m
              | None => None
              end
          end
      | None => None
      end
  end.

Definition Sample_decode (buf : list byte) : option Sample.t :=
  Sample_fields (List.length buf) buf (Sample.mk 0 0).

(** A nested message: its length, then its bytes decoded on their own. *)
Definition nested {A : Type} (decode : list byte -> option A)
  (buf : list byte) : option (A * list byte) :=
  match Reader.bytes buf with
  | Some (body, rest) =>
      match decode body with
      | Some a => Some (a, rest)
      | None => None
      end
  | None => None
  end.

Fixpoint TimeSeries_fields (fuel : nat) (buf : list byte) (m : TimeSeries.t)
  : option TimeSeries.t :=
  match buf, fuel with
  | [], _ => Some m
  | _, O => None
  | _, S fuel' =>
      match Reader.uint32 buf with
      | Some (tag, buf1) =>
          match tag / 8 with
          | 1 =>
              match nested Label_decode buf1 with
              | Some (l, buf2) =>
                  TimeSeries_fields fuel' buf2
                    (TimeSeries.mk (TimeSeries.labels m ++ [l])
                       (TimeSeries.samples m))
              | None => None
              end
          | 2 =>
              match nested Sample_decode buf1 with
              | Some (s, buf2) =>
                  TimeSeries_fields fuel' buf2
                    (TimeSeries.mk (TimeSeries.labels m)
                       (TimeSeries.samples m ++ [s]))
              | None => None
              end
          | _ =>
              match Reader.skipType (tag mod 8) buf1 with
              | Some buf2 => TimeSeries_fields fuel' buf2 m
              | None => None
              end
          end
      | None => None
      end
  end.

Definition TimeSeries_decode (buf : list byte) : option TimeSeries.t :=
  TimeSeries_fields (List.length buf) buf (TimeSeries.mk [] []).

Fixpoint WriteRequest_fields (fuel : nat) (buf : list byte)
  (m : WriteRequest.t) : option WriteRequest.t :=
  match buf, fuel with
  | [], _ => Some m
  | _, O => None
  | _, S fuel' =>
      match Reader.uint32 buf with
      | Some (tag, buf1) =>
          match tag / 8 with
          | 1 =>
              match nested TimeSeries_decode buf1 with
              | Some (t, buf2) =>
                  WriteRequest_fields fuel' buf2
                    (WriteRequest.mk (WriteRequest.timeseries m ++ [t]))
              | None => None
              end
          | _ =>
              match Reader.skipType (tag mod 8) buf1 with
              | Some buf2 => WriteRequest_fields fuel' buf2 m
              | None => None
              end
          end
      | None => None
      end
  end.

(** [WriteRequest.decode(buffer)] *)
Definition WriteRequest_decode (buf : list byte) : option WriteRequest.t :=
  WriteRequest_fields (List.length buf) buf (WriteRequest.mk []).

End Protobuf.

(** ** The outside world and the effects of the scripts *)

(** The [PrometheusResponse] interface that the test scripts declare for the
    body of a query response; [result] is [data.result], which the scripts
    test for presence. *)
Module PrometheusResponse.
Record entry : Type := mkEntry {
  metric : list (string * string);
  value : number * string
}.
Record t : Type := mk {
  status : string;
  result : option (list entry);
  error : option string
}.
End PrometheusResponse.

(** A value inserted into a console line: a text, an integer, a number, a
    response body, the ISO rendering of a time, an error. *)
Inductive arg : Type :=
| Str (s : string)
| Int (z : Z)
| Num (x : number)
| Json (v : jsval)
| Time (t : Z)
| Err (e : error).

(** What a run does that can be observed from outside.  A console line is
    its text, without the pictograph that leads it in the source, and the
    values inserted into it. *)
Inductive event : Type :=
| ConsoleLog (text : string) (args : list arg)
| ConsoleError (text : string) (args : list arg)
| AxiosPost (url : string) (data : list byte)
    (headers : list (string * string)) (timeout : Z)
| AxiosGet (url : string) (params : list (string * string)) (timeout : Z)
| PushMetrics (metrics : list (string * number)) (url : string)
    (headers : list (string * string))
| StoreUpdate (metric : string) (labels : list string) (value : option number)
| SetTimeout (ms : Z).

Definition trace : Type := list event.

(** What comes back for a request: a response with its status code and
    body, or none (the connection failed or the timeout elapsed). *)
Inductive answer (A : Type) : Type :=
| Response (status : Z) (data : A)
| NoResponse (message : string).
Arguments Response {A} status data.
Arguments NoResponse {A} message.

(** What [register.metrics()] settles to: the text of the exposition, or
    the message of the error it rejects with (an error of prom-client, which
    carries no response). *)
Inductive scraped : Type :=
| Exposition (text : string)
| Rejected (message : string).

(** Everything a run reads from outside, as a function of what happened
    before (the trace ends with the request being answered).  The body of a
    response is any JSON value.  The test scripts read the body of a query
    as a [PrometheusResponse]; for a body that does not have the shape of
    that interface, what the [try] block writes on the console before it
    completes or throws (a TypeError, a RangeError) is the world's:
    [outsideInterface] gives the lines and the message of the error, if
    any. *)
Record World : Type := mkWorld {
  env_PROMETHEUS_URL : option string;
  clock : trace -> Z;
  random : string -> number;
  registry : trace -> scraped;
  server : trace -> answer jsval;
  queryServer : trace -> answer jsval;
  outsideInterface : jsval -> list (string * list arg) * option string
}.

(** How a computation ends: normally, by a thrown error, or by
    [process.exit]. *)
Inductive completion (A : Type) : Type :=
| Normal (a : A)
| Thrown (e : error)
| Exited (code : Z).
Arguments Normal {A} a.
Arguments Thrown {A} e.
Arguments Exited {A} code.

Definition M (A : Type) : Type := World -> trace -> completion A * trace.

Definition ret {A : Type} (a : A) : M A := fun _ t => (Normal a, t).

Definition bind {A B : Type} (c : M A) (k : A -> M B) : M B :=
  fun w t =>
    match c w t with
    | (Normal a, t') => k a w t'
    | (Thrown e, t') => (Thrown e, t')
    | (Exited n, t') => (Exited n, t')
    end.

Notation "x <- c ;; k" := (bind c (fun x => k))
  (at level 61, c at next level, right associativity).
Notation "c ;; k" := (bind c (fun _ => k))
  (at level 61, right associativity).

Definition throw {A : Type} (e : error) : M A := fun _ t => (Thrown e, t).

(** [process.exit(code)] *)
Definition process_exit {A : Type} (code : Z) : M A :=
  fun _ t => (Exited code, t).

(** [try { body } catch (error) { handler }] *)
Definition tryCatch {A : Type} (body : M A) (handler : error -> M A) : M A :=
  fun w t =>
    match body w t with
    | (Thrown e, t') => handler e w t'
    | r => r
    end.

Definition emit (e : event) : M unit := fun _ t => (Normal tt, t ++ [e]).

Definition ask {A : Type} (f : World -> trace -> A) : M A :=
  fun w t => (Normal (f w t), t).

Definition liftResult {A : Type} (r : result A) : M A :=
  match r with
  | Return a => ret a
  | Throw e => throw e
  end.

(** [await register.metrics()] *)
Definition awaitMetrics (text : scraped) : M string :=
  match text with
  | Exposition metrics => ret metrics
  | Rejected message => throw (Error message)
  end.

(** [new Date(...).toISOString()], given the rendering of the time when it
    is a valid date: a RangeError otherwise. *)
Definition dateString (rendering : option string) : M string :=
  match rendering with
  | Some timestamp => ret timestamp
  | None => throw (Error "Invalid time value")
  end.

(** [for (const x of xs) { body }] *)
Fixpoint forOf {A : Type} (xs : list A) (body : A -> M unit) : M unit :=
  match xs with
  | [] => ret tt
  | x :: rest => body x ;; forOf rest body
  end.

(** [xs.forEach((x, index) => body)], [index] counted from [from]. *)
Fixpoint forEach {A : Type} (from : Z) (xs : list A)
  (body : A -> Z -> M unit) : M unit :=
  match xs with
  | [] => ret tt
  | x :: rest => body x from ;; forEach (from + 1) rest body
  end.

Definition console_log (text : string) (args : list arg) : M unit :=
  emit (ConsoleLog text args).

Definition console_error (text : string) (args : list arg) : M unit :=
  emit (ConsoleError text args).

(** The conversion of a response body to a string, in a template literal
    [`... ${data}`]: it throws a TypeError on a value that cannot be
    converted. *)
Definition interpolate (data : jsval) : M unit :=
  if JS.printable data then ret tt
  else throw (Error "Cannot convert object to primitive value").

(** [Date.now()] *)
Definition Date_now : M Z := ask clock.

(** [process.env.PROMETHEUS_URL || 'http://localhost:9090'] *)
Definition baseUrl (w : World) : string :=
  match env_PROMETHEUS_URL w with
  | Some url => if truthy url then url else "http://localhost:9090"
  | None => "http://localhost:9090"
  end.

Definition PROMETHEUS_URL : M string := ask (fun w _ => baseUrl w).

Definition decimal_of_Z (z : Z) : string :=
  DecimalString.NilZero.string_of_int (Z.to_int z).

(** [error instanceof Error ? error.message : 'Unknown error'] *)
Definition messageOf (e : error) : string :=
  match e with
  | Error message => message
  | AxiosError message _ => message
  end.

(** [axios.isAxiosError(error) && error.response] *)
Definition axiosResponse (e : error) : option (Z * jsval) :=
  match e with
  | AxiosError _ response => response
  | Error _ => None
  end.

(** axios settles a request: it resolves with the response when the status
    is 2xx (the default [validateStatus]) and rejects with an AxiosError
    otherwise, which carries the response when there is one. *)
Definition settle {A : Type} (toJS : A -> jsval) (a : answer A)
  : M (Z * A) :=
  match a with
  | Response status data =>
      if ((200 <=? status) && (status <? 300))%Z then ret (status, data)
      else throw (AxiosError
                    ("Request failed with status code " +++ decimal_of_Z status)
                    (Some (status, toJS data)))
  | NoResponse message => throw (AxiosError message None)
  end.

(** [axios.post(url, data, { headers, timeout })]: one request. *)
Definition axios_post (url : string) (data : list byte)
  (headers : list (string * string)) (timeout : Z) : M (Z * jsval) :=
  emit (AxiosPost url data headers timeout) ;;
  a <- ask server ;;
  settle (fun v => v) a.

(** [axios.get(url, { params, timeout })]: one request. *)
Definition axios_get (url : string) (params : list (string * string))
  (timeout : Z) : M (Z * jsval) :=
  emit (AxiosGet url params timeout) ;;
  a <- ask server ;;
  settle (fun v => v) a.

Definition entry_toJS (e : PrometheusResponse.entry) : jsval :=
  JObject
    [("metric",
      JObject (map (fun kv => (fst kv, JString (snd kv)))
                 (PrometheusResponse.metric e)));
     ("value",
      JArray [JNumber (fst (PrometheusResponse.value e));
              JString (snd (PrometheusResponse.value e))])].

Definition PrometheusResponse_toJS (r : PrometheusResponse.t) : jsval :=
  JObject
    ([("status", JString (PrometheusResponse.status r));
      ("data",
       JObject
         match PrometheusResponse.result r with
         | Some entries => [("result", JArray (map entry_toJS entries))]
         | None => []
         end)]
     ++ match PrometheusResponse.error r with
        | Some e => [("error", JString e)]
        | None => []
        end).

(** The body of a query read through the interface: the fields that the
    scripts read, when they have the types that the interface declares.
    With status [success] the scripts read [data.result] and not [error];
    with another status they read [error] and not [data]. *)
Definition stringOf (v : option jsval) : option (option string) :=
  match v with
  | None | Some JUndefined | Some JNull => Some None
  | Some (JString s) => Some (Some s)
  | Some _ => None
  end.

Fixpoint traverse {A B : Type} (f : A -> option B) (l : list A)
  : option (list B) :=
  match l with
  | [] => Some []
  | x :: rest =>
      match f x, traverse f rest with
      | Some y, Some ys => Some (y :: ys)
      | _, _ => None
      end
  end.

Definition metric_ofJS (v : jsval) : option (list (string * string)) :=
  match v with
  | JObject props =>
      traverse (fun kv =>
                  match snd kv with
                  | JString value => Some (fst kv, value)
                  | _ => None
                  end) props
  | _ => None
  end.

Definition entry_ofJS (v : jsval) : option PrometheusResponse.entry :=
  match v with
  | JObject props =>
      match JS.lookup "metric" props, JS.lookup "value" props with
      | Some metric, Some (JArray (JNumber time :: JString value :: _)) =>
          option_map (fun m => PrometheusResponse.mkEntry m (time, value))
            (metric_ofJS metric)
      | _, _ => None
      end
  | _ => None
  end.

Definition result_ofJS (data : option jsval)
  : option (option (list PrometheusResponse.entry)) :=
  match data with
  | Some (JObject props) =>
      match JS.lookup "result" props with
      | None | Some JUndefined | Some JNull => Some None
      | Some (JArray items) => option_map Some (traverse entry_ofJS items)
      | Some _ => None
      end
  | _ => None
  end.

Definition PrometheusResponse_ofJS (body : jsval)
  : option PrometheusResponse.t :=
  match body with
  | JObject props =>
      match JS.lookup "status" props with
      | Some (JString status) =>
          if String.eqb status "success" then
            match result_ofJS (JS.lookup "data" props) with
            | Some result =>
                Some (PrometheusResponse.mk status result
                        match stringOf (JS.lookup "error" props) with
                        | Some error => error
                        | None => None
                        end)
            | None => None
            end
          else
            match stringOf (JS.lookup "error" props) with
            | Some error =>
                Some (PrometheusResponse.mk status
                        match result_ofJS (JS.lookup "data" props) with
                        | Some result => result
                        | None => None
                        end
                        error)
            | None => None
            end
      | _ => None
      end
  | _ => None
  end.

(** [axios.get<PrometheusResponse>(url, { params, timeout })]: the type
    argument only names the interface; the body is what the server sent. *)
Definition axios_get_query (url : string) (params : list (string * string))
  (timeout : Z) : M (Z * jsval) :=
  emit (AxiosGet url params timeout) ;;
  a <- ask queryServer ;;
  settle (fun v => v) a.
(** ** client.ts: the text exposition scraper

    [metricsToRemoteWrite], [sendMetricsToPrometheus] and
    [generateAndSendMetrics] read the same, statement for statement, in the
    variant of the client that registers three more metrics; [updateMetrics]
    alone differs there, by the updates it makes to the store. *)

Module Client.

(** [/^(\w+)(\{[^}]*\})?\s+([0-9.]+)/] applied with [line.match]: the
    pattern is anchored at the start of the line and not at its end.  The
    result holds the three capture groups [name], [labelsStr] (undefined
    when the optional group took no part in the match) and [value]. *)
Definition lineRegex (line : string)
  : option (string * option string * string) :=
  Regex.plus isWord (fun name =>
    Regex.opt
      (fun k =>
         Regex.char (isChar "{")
           (Regex.star (isNotChar "}")
              (fun body => Regex.char (isChar "}") (k ("{" +++ body +++ "}")))
              EmptyString))
      (fun labelsStr =>
         Regex.spaces1
           (Regex.plus isValueChar (fun value _ =>
              Some (name, labelsStr, value))))) line.

(** The label pattern of the source tried at one position: a captured run of
    one or more word characters, an equals sign, a double quote, a captured
    run of characters other than the double quote, and a double quote.  The
    result holds the matched text, the two capture groups and the text after
    the match. *)
Definition labelRegex : string -> option (string * string * string * string) :=
  Regex.plus isWord (fun labelName =>
    Regex.char (isChar "=")
      (Regex.char (isChar DQ)
         (Regex.star (isNotChar DQ)
            (fun labelValue =>
               Regex.char (isChar DQ) (fun rest =>
                 Some (labelName +++ "=" +++ str DQ +++ labelValue +++ str DQ,
                       labelName, labelValue, rest)))
            EmptyString))).

(** The matches of the global pattern, left to right, each search resuming
    where the previous match ended.  A match is never empty, so the length
    of the text bounds their number. *)
Fixpoint matchAll (fuel : nat) (s : string) : list string :=
  match fuel with
  | O => []
  | S fuel' =>
      match Regex.search labelRegex s with
      | Some (m, _, _, rest) => m :: matchAll fuel' rest
      | None => []
      end
  end.

(** [labelsStr.match] with the label pattern under the [g] flag: the array of
    matched texts, [null] when nothing matches. *)
Definition matchGlobal (labelsStr : string) : option (list string) :=
  match matchAll (S (String.length labelsStr)) labelsStr with
  | [] => None
  | labelMatches => Some labelMatches
  end.

(** The body of [for (const labelMatch of labelMatches)]. *)
Definition pushLabel (labels : list Label.t) (labelMatch : string)
  : list Label.t :=
  match Regex.search labelRegex labelMatch with
  | Some (_, labelName, labelValue, _) =>
      if truthy labelName && truthy labelValue
      then labels ++ [Label.mk labelName labelValue]
      else labels
  | None => labels
  end.

(** The array [labels] built for one matched line. *)
Definition labels (name : string) (labelsStr : option string)
  : list Label.t :=
  let labels := [Label.mk "__name__" name] in
  match labelsStr with
  | Some labelsStr =>
      if truthy labelsStr then
        match matchGlobal labelsStr with
        | Some labelMatches => fold_left pushLabel labelMatches labels
        | None => labels
        end
      else labels
  | None => labels
  end.

(** [metrics.split('\n').filter(line => line.trim() && !line.startsWith('#'))] *)
Definition keep (line : string) : bool :=
  truthy (trim line) && negb (startsWith "#" line).

Definition lines (metrics : string) : list string :=
  filter keep (split LF metrics).

Section Scraper.

(** The global [parseFloat]. *)
Variable parseFloat : string -> number.

(** [Date.now()], read once before the loop. *)
Variable timestamp : Z.

(** The body of [for (const line of lines)]. *)
Definition pushSeries (timeseries : list TimeSeries.t) (line : string)
  : list TimeSeries.t :=
  match lineRegex line with
  | Some (name, labelsStr, value) =>
      if truthy name && truthy value then
        timeseries
          ++ [TimeSeries.mk (labels name labelsStr)
                [Sample.mk (parseFloat value) timestamp]]
      else timeseries
  | None => timeseries
  end.

(** The array [timeseries] after the loop. *)
Definition timeseries (metrics : string) : list TimeSeries.t :=
  fold_left pushSeries (lines metrics) [].

End Scraper.


(** *** client.ts: validation, encoding, compression *)

Section Encoder.

(** [snappy.compress] *)
Variable snappy_compress : list byte -> list byte.

(** The end of [metricsToRemoteWrite], from [const writeRequest] on: the
    request is verified, and an error message makes the function throw;
    otherwise the message is created, encoded and compressed. *)
Definition encodeWriteRequest (writeRequest : jsval) : result (list byte) :=
  match Protobuf.WriteRequest_verify writeRequest with
  | Some errMsg => Throw (Error ("Protobuf validation failed: " +++ errMsg))
  | None =>
      let message := Protobuf.WriteRequest_create writeRequest in
      let buffer := Protobuf.WriteRequest_encode message in
      Return (snappy_compress buffer)
  end.

Variable parseFloat : string -> number.

Definition metricsToRemoteWrite : M (list byte) :=
  text <- ask registry ;;
  metrics <- awaitMetrics text ;;
  timestamp <- Date_now ;;
  liftResult
    (encodeWriteRequest (JS.writeRequest (timeseries parseFloat timestamp metrics))).

Definition headers : list (string * string) :=
  [("Content-Type", "application/x-protobuf");
   ("Content-Encoding", "snappy");
   ("X-Prometheus-Remote-Write-Version", "0.1.0")].

Definition sendMetricsToPrometheus : M unit :=
  tryCatch
    (compressedData <- metricsToRemoteWrite ;;
     url <- PROMETHEUS_URL ;;
     response <- axios_post (url +++ "/api/v1/write") compressedData headers 5000 ;;
     now <- Date_now ;;
     console_log "Metrics sent to Prometheus at " [Time now] ;;
     console_log "   Response status: " [Int (fst response)])
    (fun error =>
       console_error "Failed to send metrics to Prometheus: " [Str (messageOf error)] ;;
       match axiosResponse error with
       | Some (status, data) =>
           console_error "   Response status: " [Int status] ;;
           interpolate data ;;
           console_error "   Response data: " [Json data]
       | None => ret tt
       end).

(** The three updates of the metric store, with the values drawn for the
    gauge ([Math.random() * 100]) and the duration ([Math.random() * 3]). *)
Definition updateMetrics : M unit :=
  emit (StoreUpdate "demo_counter_total" ["demo-service"; "development"] None) ;;
  gaugeValue <- ask (fun w _ => random w "demo_gauge") ;;
  emit (StoreUpdate "demo_gauge" ["demo-service"; "development"] (Some gaugeValue)) ;;
  duration <- ask (fun w _ => random w "demo_duration_seconds") ;;
  emit (StoreUpdate "demo_duration_seconds" ["demo-service"; "demo-operation"]
          (Some duration)) ;;
  console_log "Updated metrics - Gauge: , Duration: s" [Num gaugeValue; Num duration].

Definition generateAndSendMetrics : M unit :=
  updateMetrics ;;
  sendMetricsToPrometheus.

End Encoder.

End Client.

(** ** simple-client.ts *)

Module SimpleClient.

(** The record of sample metrics; the first three values are drawn with
    [Math.random()], the last is [42.0]. *)
Definition generateMetrics : M (list (string * number)) :=
  ask (fun w _ =>
         [("demo_counter_total", random w "demo_counter_total");
          ("demo_gauge", random w "demo_gauge");
          ("demo_duration_seconds", random w "demo_duration_seconds");
          ("custom_metric", 4631107791820423168%Z)]).

Definition headers : list (string * string) :=
  [("X-Prometheus-Remote-Write-Version", "0.1.0")].

(** [pushMetrics(metrics, { url, headers })] of the package
    prometheus-remote-write: one request.  The helper resolves with the
    status of the response, whatever the status, and rejects when the
    request gets no response. *)
Definition pushMetrics (metrics : list (string * number)) (url : string)
  (headers : list (string * string)) : M unit :=
  emit (PushMetrics metrics url headers) ;;
  a <- ask server ;;
  match a with
  | Response _ _ => ret tt
  | NoResponse message => throw (Error message)
  end.

Definition sendMetricsToPrometheus : M unit :=
  tryCatch
    (metrics <- generateMetrics ;;
     console_log "Sending  metrics to Prometheus..." [Int (Z.of_nat (List.length metrics))] ;;
     forOf metrics (fun entry =>
       console_log "   -  = " [Str (fst entry); Num (snd entry)]) ;;
     url <- PROMETHEUS_URL ;;
     pushMetrics metrics (url +++ "/api/v1/write") headers ;;
     now <- Date_now ;;
     console_log "Metrics sent to Prometheus at " [Time now])
    (fun error =>
       console_error "Failed to send metrics to Prometheus: " [Str (messageOf error)]).

Definition generateAndSendMetrics : M unit :=
  sendMetricsToPrometheus.

End SimpleClient.

(** ** The metrics that the clients create and register

    A metric of prom-client is created with a name and its [labelNames];
    [metric.labels(v1, ..., vn)] addresses the series whose labels take the
    values in the order of [labelNames], and throws when the number of
    values is not the number of names. *)

Module Metric.
Record t : Type := mk { name : string; labelNames : list string }.
End Metric.

(** client.ts: the three custom metrics, in the order of registration. *)
Module ClientRegister.

Definition customCounter : Metric.t :=
  Metric.mk "demo_counter_total" ["service"; "environment"].

Definition customGauge : Metric.t :=
  Metric.mk "demo_gauge" ["service"; "environment"].

Definition customHistogram : Metric.t :=
  Metric.mk "demo_duration_seconds" ["service"; "operation"].

Definition register : list Metric.t :=
  [customCounter; customGauge; customHistogram].

End ClientRegister.

(** ** The client with the larger set of metrics

    Its [metricsToRemoteWrite] and [sendMetricsToPrometheus] are those of
    client.ts; it declares six metrics and [updateMetrics] touches all of
    them. *)

Module EnhancedClient.

Definition customCounter : Metric.t :=
  Metric.mk "demo_counter_total" ["service"; "environment"; "version"].

Definition customGauge : Metric.t :=
  Metric.mk "demo_gauge" ["service"; "environment"; "type"].

Definition customHistogram : Metric.t :=
  Metric.mk "demo_duration_seconds" ["service"; "operation"; "method"].

Definition httpRequestsTotal : Metric.t :=
  Metric.mk "http_requests_total" ["service"; "method"; "status"; "endpoint"].

Definition httpRequestDuration : Metric.t :=
  Metric.mk "http_request_duration_seconds"
    ["service"; "method"; "endpoint"; "status"].

Definition customMetric : Metric.t :=
  Metric.mk "custom_metric" ["service"; "type"; "version"; "environment"].

Definition register : list Metric.t :=
  [customCounter; customGauge; customHistogram; httpRequestsTotal;
   httpRequestDuration; customMetric].

Definition httpMethods : list string := ["GET"; "POST"; "PUT"; "DELETE"].
Definition statusCodes : list string := ["200"; "404"; "500"].
Definition endpoints : list string := ["/api/v1/write"; "/metrics"; "/health"].

(** [xs[index]]: the element at a number that is a non-negative integer
    below the length, [undefined] at any other number. *)
Definition element (xs : list string) (index : number) : option string :=
  if Number.isInteger index && (0 <=? Number.toInteger index)%Z
  then nth_error xs (Z.to_nat (Number.toInteger index))
  else None.

(** [xs[index] || fallback] *)
Definition pick (xs : list string) (index : number) (fallback : string)
  : string :=
  match element xs index with
  | Some x => if truthy x then x else fallback
  | None => fallback
  end.

(** [metric.labels(...values)] followed by [inc()], [set(v)] or
    [observe(v)]: one update of the store. *)
Definition update (metric : Metric.t) (values : list string)
  (value : option number) : M unit :=
  emit (StoreUpdate (Metric.name metric) values value).

(** The six updates of the store.  The numbers drawn are read from the
    world: the gauge value ([Math.random() * 100]), the two durations
    ([Math.random() * 3] and [Math.random() * 2]) and the three indices
    ([Math.floor(Math.random() * xs.length)]). *)
Definition updateMetrics : M unit :=
  timestamp <- Date_now ;;
  update customCounter ["demo-service"; "development"; "1.0.0"] None ;;
  gaugeValue <- ask (fun w _ => random w "demo_gauge") ;;
  update customGauge ["demo-service"; "development"; "performance"]
    (Some gaugeValue) ;;
  duration <- ask (fun w _ => random w "demo_duration_seconds") ;;
  update customHistogram ["demo-service"; "demo-operation"; "POST"]
    (Some duration) ;;
  methodIndex <- ask (fun w _ => random w "httpMethods") ;;
  statusIndex <- ask (fun w _ => random w "statusCodes") ;;
  endpointIndex <- ask (fun w _ => random w "endpoints") ;;
  let method := pick httpMethods methodIndex "GET" in
  let status := pick statusCodes statusIndex "200" in
  let endpoint := pick endpoints endpointIndex "/api/v1/write" in
  update httpRequestsTotal ["demo-service"; method; status; endpoint] None ;;
  httpDuration <- ask (fun w _ => random w "http_request_duration_seconds") ;;
  update httpRequestDuration ["demo-service"; method; endpoint; status]
    (Some httpDuration) ;;
  update customMetric ["demo-service"; "test"; "1.0.0"; "development"]
    (Some 4631107791820423168%Z) ;;
  console_log "Updated metrics at " [Time timestamp] ;;
  console_log "   - Gauge: " [Num gaugeValue] ;;
  console_log "   - Duration: s" [Num duration] ;;
  console_log "   - HTTP   ->  (s)"
    [Str method; Str endpoint; Str status; Num httpDuration].

Section Encoder.

Variable snappy_compress : list byte -> list byte.
Variable parseFloat : string -> number.

Definition generateAndSendMetrics : M unit :=
  updateMetrics ;;
  Client.sendMetricsToPrometheus snappy_compress parseFloat.

End Encoder.

End EnhancedClient.

(** ** The test scripts

    Both import [generateAndSendMetrics] from simple-client.ts. *)

(** What a process leaves behind: its exit code and its trace. *)
Definition outcome : Type := (Z * trace)%type.

(** [main().catch((error) => { console.error('Test failed:', error);
    process.exit(1); })]: a run that ends on its own exits with code 0. *)
Definition runMain (main : M unit) (w : World) : outcome :=
  match main w [] with
  | (Normal _, t) => (0%Z, t)
  | (Thrown e, t) => (1%Z, t ++ [ConsoleError "Test failed:" [Err e]])
  | (Exited code, t) => (code, t)
  end.

(** [getPrometheusStatus], the same in both scripts. *)
Definition getPrometheusStatus : M bool :=
  tryCatch
    (console_log "Checking Prometheus status..." [] ;;
     url <- PROMETHEUS_URL ;;
     response <- axios_get (url +++ "/-/healthy") [] 5000 ;;
     console_log "Prometheus is healthy ()" [Int (fst response)] ;;
     ret true)
    (fun error =>
       console_error "Prometheus is not accessible: " [Str (messageOf error)] ;;
       ret false).

(** [Object.keys(metric).filter(k => k !== '__name__').map(k => ...).join(', ')] *)
Definition renderMetricLabels (metric : list (string * string)) : string :=
  join ", "
    (map (fun kv => fst kv +++ "=" +++ str DQ +++ snd kv +++ str DQ)
       (filter (fun kv => negb (String.eqb (fst kv) "__name__")) metric)).

Fixpoint property (key : string) (o : list (string * string)) : option string :=
  match o with
  | [] => None
  | (k, v) :: rest => if String.eqb k key then Some v else property key rest
  end.

(** [result.metric.__name__ || 'unknown'] *)
Definition metricNameOf (metric : list (string * string)) : string :=
  match property "__name__" metric with
  | Some n => if truthy n then n else "unknown"
  | None => "unknown"
  end.

Definition braced (labels : string) : string :=
  if truthy labels then "{" +++ labels +++ "}" else EmptyString.

(** The [catch] block of [queryPrometheus], the same in both scripts. *)
Definition queryFailed (error : error) : M unit :=
  console_error "   Error querying Prometheus: " [Str (messageOf error)] ;;
  match axiosResponse error with
  | Some (status, data) =>
      console_error "      Status: " [Int status] ;;
      interpolate data ;;
      console_error "      Data: " [Json data]
  | None => ret tt
  end.

(** The [try] block of [queryPrometheus] on a body that does not have the
    shape of the interface: the lines and the outcome that the world
    gives. *)
Definition readOutsideInterface (body : jsval) : M unit :=
  r <- ask (fun w _ => outsideInterface w body) ;;
  forOf (fst r) (fun line => console_log (fst line) (snd line)) ;;
  match snd r with
  | Some message => throw (Error message)
  | None => ret tt
  end.

(** The simple test: one query. *)
Module SimpleTest.

Definition queryPrometheus : M unit :=
  tryCatch
    (console_log "Querying: Demo Counter" [] ;;
     console_log "   Query: demo_counter_total" [] ;;
     url <- PROMETHEUS_URL ;;
     response <- axios_get_query (url +++ "/api/v1/query")
                   [("query", "demo_counter_total")] 10000 ;;
     match PrometheusResponse_ofJS (snd response) with
     | None => readOutsideInterface (snd response)
     | Some data =>
     if String.eqb (PrometheusResponse.status data) "success" then
       console_log "   Status: " [Str (PrometheusResponse.status data)] ;;
       match PrometheusResponse.result data with
       | Some (first :: more) =>
           let results := first :: more in
           console_log "   Found  result(s):" [Int (Z.of_nat (List.length results))] ;;
           forEach 0 results (fun result index =>
             console_log "      .  = "
               [Int (index + 1);
                Str (metricNameOf (PrometheusResponse.metric result));
                Str (braced (renderMetricLabels (PrometheusResponse.metric result)));
                Str (snd (PrometheusResponse.value result))])
       | _ => console_log "   No data found for this query" []
       end
     else
       console_log "   Query failed: "
         [Str match PrometheusResponse.error data with
              | Some e => if truthy e then e else "Unknown error"
              | None => "Unknown error"
              end]
     end)
    queryFailed.

Definition main : M unit :=
  console_log "Simple Prometheus Remote Write Test" [] ;;
  url <- PROMETHEUS_URL ;;
  console_log "Prometheus URL: " [Str url] ;;
  console_log "==================================================" [] ;;
  isHealthy <- getPrometheusStatus ;;
  (if negb isHealthy then
     console_log "Make sure Prometheus is running and accessible." [] ;;
     console_log "   You can start it with: docker-compose up -d" [] ;;
     process_exit 1
   else ret tt) ;;
  console_log "Generating and sending metrics..." [] ;;
  SimpleClient.generateAndSendMetrics ;;
  console_log "Waiting for metrics to be processed..." [] ;;
  emit (SetTimeout 2000) ;;
  console_log "Running query..." [] ;;
  queryPrometheus ;;
  console_log "Test completed!" [] ;;
  console_log "Tips:" [] ;;
  console_log "   - Visit http://localhost:9090 for Prometheus UI" [] ;;
  console_log "   - Run this test again to see updated values" [].

Definition run : World -> outcome := runMain main.

End SimpleTest.

(** The enhanced test: a fixed sequence of queries. *)
Module EnhancedTest.

Section Queries.

(** [new Date(parseInt(t.toString()) * 1000).toISOString()]: the rendering
    of the time, and none when the time is not a valid date; the method
    throws a RangeError then. *)
Variable toISOString : number -> option string.

Definition queryPrometheus (query name : string) : M unit :=
  tryCatch
    (console_log "Querying: " [Str name] ;;
     console_log "   Query: " [Str query] ;;
     url <- PROMETHEUS_URL ;;
     response <- axios_get_query (url +++ "/api/v1/query")
                   [("query", query)] 10000 ;;
     match PrometheusResponse_ofJS (snd response) with
     | None => readOutsideInterface (snd response)
     | Some data =>
     if String.eqb (PrometheusResponse.status data) "success" then
       console_log "   Status: " [Str (PrometheusResponse.status data)] ;;
       match PrometheusResponse.result data with
       | Some (first :: more) =>
           let results := first :: more in
           console_log "   Found  result(s):" [Int (Z.of_nat (List.length results))] ;;
           forEach 0 results (fun result index =>
             timestamp <- dateString (toISOString (fst (PrometheusResponse.value result))) ;;
             console_log "      .  =  @ "
               [Int (index + 1);
                Str (metricNameOf (PrometheusResponse.metric result));
                Str (braced (renderMetricLabels (PrometheusResponse.metric result)));
                Str (snd (PrometheusResponse.value result));
                Str timestamp])
       | _ => console_log "   No data found for this query" []
       end
     else
       console_log "   Query failed: "
         [Str match PrometheusResponse.error data with
              | Some e => if truthy e then e else "Unknown error"
              | None => "Unknown error"
              end]
     end)
    queryFailed.

Definition queries : list (string * string) :=
  [("demo_counter_total", "Demo Counter");
   ("demo_gauge", "Demo Gauge");
   ("http_requests_total", "HTTP Requests");
   ("http_request_duration_seconds", "HTTP Request Duration");
   ("custom_metric", "Custom Metric")].

Definition main : M unit :=
  console_log "Enhanced Prometheus Remote Write Test" [] ;;
  url <- PROMETHEUS_URL ;;
  console_log "Prometheus URL: " [Str url] ;;
  console_log "==================================================" [] ;;
  isHealthy <- getPrometheusStatus ;;
  (if negb isHealthy then
     console_log "Make sure Prometheus is running and accessible." [] ;;
     console_log "   You can start it with: docker-compose up -d" [] ;;
     process_exit 1
   else ret tt) ;;
  console_log "Generating and sending metrics..." [] ;;
  SimpleClient.generateAndSendMetrics ;;
  console_log "Waiting for metrics to be processed..." [] ;;
  emit (SetTimeout 2000) ;;
  console_log "Running queries..." [] ;;
  forOf queries (fun queryInfo =>
    queryPrometheus (fst queryInfo) (snd queryInfo) ;;
    console_log EmptyString []) ;;
  console_log "Test completed!" [] ;;
  console_log "Tips:" [] ;;
  console_log "   - Visit http://localhost:9090 for Prometheus UI" [] ;;
  console_log "   - Run this test again to see updated values" [] ;;
  console_log
    ("   - Try queries like: demo_counter_total{service=" +++ str DQ
     +++ "demo-service" +++ str DQ +++ "}") [].

Definition run : World -> outcome := runMain main.

End Queries.

End EnhancedTest.

(** ** The simple client that pushes labelled time series

    [generateMetrics] returns six series, each an object of labels and an
    array of one sample; [sendMetricsToPrometheus] logs them and hands them
    to [pushTimeseries] of the package prometheus-remote-write. *)

Module EnhancedSimpleClient.

(** A series as the helper takes it: [labels] is an object, whose keys are
    kept in the order of the literal. *)
Record Series : Type := mkSeries {
  labels : list (string * string);
  samples : list Sample.t
}.

Definition generateMetrics : M (list Series) :=
  timestamp <- Date_now ;;
  ask (fun w _ =>
    [mkSeries
       [("__name__", "demo_counter_total"); ("service", "demo-service");
        ("environment", "development")]
       [Sample.mk (random w "demo_counter_total") timestamp];
     mkSeries
       [("__name__", "demo_gauge"); ("service", "demo-service");
        ("environment", "development")]
       [Sample.mk (random w "demo_gauge") timestamp];
     mkSeries
       [("__name__", "demo_duration_seconds"); ("service", "demo-service");
        ("operation", "demo-operation")]
       [Sample.mk (random w "demo_duration_seconds") timestamp];
     mkSeries
       [("__name__", "custom_metric"); ("service", "demo-service");
        ("type", "test"); ("version", "1.0.0")]
       [Sample.mk 4631107791820423168%Z timestamp];
     mkSeries
       [("__name__", "http_requests_total"); ("service", "demo-service");
        ("method", "GET"); ("status", "200")]
       [Sample.mk (random w "http_requests_total") timestamp];
     mkSeries
       [("__name__", "http_request_duration_seconds");
        ("service", "demo-service"); ("method", "POST");
        ("endpoint", "/api/v1/write")]
       [Sample.mk (random w "http_request_duration_seconds") timestamp]]).

Definition headers : list (string * string) :=
  [("X-Prometheus-Remote-Write-Version", "0.1.0")].

(** The body of [timeseries.forEach((series, index) => ...)]: reading
    [series.samples[0].value] throws a TypeError when the series has no
    sample; a missing [__name__] prints as [undefined]. *)
Definition logSeries (series : Series) (index : Z) : M unit :=
  let metricName :=
    match property "__name__" (labels series) with
    | Some n => n
    | None => "undefined"
    end in
  let labels := renderMetricLabels (labels series) in
  match samples series with
  | first :: _ =>
      console_log "   .  =  @ "
        [Int (index + 1); Str metricName; Str (braced labels);
         Num (Sample.value first); Time (Sample.timestamp first)]
  | [] =>
      throw (Error "Cannot read properties of undefined (reading 'value')")
  end.

Section Helper.

(** [pushTimeseries(timeseries, { url, headers })] of the package
    prometheus-remote-write. *)
Variable pushTimeseries :
  list Series -> string -> list (string * string) -> M unit.

Definition sendMetricsToPrometheus : M unit :=
  tryCatch
    (timeseries <- generateMetrics ;;
     console_log "Sending  timeseries to Prometheus..."
       [Int (Z.of_nat (List.length timeseries))] ;;
     forEach 0 timeseries logSeries ;;
     url <- PROMETHEUS_URL ;;
     pushTimeseries timeseries (url +++ "/api/v1/write") headers ;;
     now <- Date_now ;;
     console_log "Metrics sent to Prometheus at " [Time now])
    (fun error =>
       console_error "Failed to send metrics to Prometheus: " [Str (messageOf error)]).

Definition generateAndSendMetrics : M unit :=
  sendMetricsToPrometheus.

End Helper.

End EnhancedSimpleClient.
(** * Vocabulary of the statements *)

(** [rest] does not begin with a character of the class [p]. *)
Definition stops (p : ascii -> bool) (rest : string) : bool :=
  match rest with
  | String c _ => negb (p c)
  | EmptyString => true
  end.

(** [rest] does not begin with a white space character. *)
Definition stopsSpace (rest : string) : bool := Nat.eqb (whiteSpace rest) 0.

(** The text has no line feed: it is one line of the exposition. *)
Definition noLF (s : string) : bool := all (isNotChar LF) s.

(** The text exposition whose lines are [ls]. *)
Definition unlines (ls : list string) : string := join (str LF) ls.

(** The line grammar of the specification,
    [metric_name{label1=Qvalue1Q,...} numeric_value] (Q the double quote):
    a metric name, an optional label block, blanks, a decimal value. *)
Definition metricName (name : string) : bool :=
  truthy name && all isWord name.

Definition blank (ws : string) : bool :=
  truthy ws && allSpace ws && noLF ws.

Definition decimal (value : string) : bool :=
  truthy value && all isValueChar value.

(** The text between the braces of a label block. *)
Definition blockBody (body : string) : bool :=
  all (isNotChar "}") body && noLF body.

Definition blockOK (body : option string) : bool :=
  match body with
  | Some b => blockBody b
  | None => true
  end.

Definition blockText (body : option string) : string :=
  match body with
  | Some b => "{" +++ b +++ "}"
  | None => EmptyString
  end.

Definition grammarLine (name : string) (body : option string)
  (ws value : string) : string :=
  name +++ blockText body +++ ws +++ value.

(** A label as the exposition format writes it: the name, an equals sign and
    the value between double quotes. *)
Definition renderLabel (l : Label.t) : string :=
  Label.name l +++ "=" +++ str DQ +++ Label.value l +++ str DQ.

Definition renderLabels (ls : list Label.t) : string :=
  join "," (map renderLabel ls).

(** A label the grammar can carry: a word for its name, and a value free of
    the double quote, of the closing brace and of the line feed. *)
Definition scrapable (l : Label.t) : bool :=
  metricName (Label.name l)
  && all (fun c => isNotChar DQ c && isNotChar "}" c && isNotChar LF c)
       (Label.value l).

(** What follows a rendered label in a block. *)
Definition blockTail (ls : list Label.t) : string :=
  match ls with
  | [] => "}"
  | _ => String "," (renderLabels ls +++ "}")
  end.

Definition nonEmptyValue (l : Label.t) : bool := truthy (Label.value l).

(** The label pairs written in a text, read from left to right by longest
    runs.  After a run of word characters, an equals sign, a double quote,
    the characters up to the next double quote and that double quote make
    the value of a pair; the reading resumes after the closing quote.  A run
    of word characters that no such quoted text follows is passed over, and
    so is any other character. *)
Definition quotedValue (r : string) : option (string * string) :=
  match r with
  | String c1 (String c2 r2) =>
      if isChar "=" c1 && isChar DQ c2 then
        let (value, r3) := span (isNotChar DQ) r2 in
        match r3 with
        | String _ r4 => Some (value, r4)
        | EmptyString => None
        end
      else None
  | _ => None
  end.

Fixpoint pairsIn (fuel : nat) (s : string) : list Label.t :=
  match fuel with
  | O => []
  | S fuel' =>
      match s with
      | EmptyString => []
      | String c s' =>
          if isWord c then
            let (name, r) := span isWord s in
            match quotedValue r with
            | Some (value, r4) => Label.mk name value :: pairsIn fuel' r4
            | None => pairsIn fuel' r
            end
          else pairsIn fuel' s'
      end
  end.

(** Every step of the reading consumes a character, so the length of the
    text bounds their number. *)
Definition labelPairs (block : string) : list Label.t :=
  pairsIn (S (String.length block)) block.

(** A pair as it is read from a text: a word for its name, a value without
    double quote. *)
Definition writtenLabel (l : Label.t) : bool :=
  metricName (Label.name l) && all (isNotChar DQ) (Label.value l).

(** Lines for which the scraper pushes nothing: the line pattern does not
    match at the start of the line; in particular comment lines, and lines
    whose value is negative. *)
Inductive Skipped : string -> Prop :=
| skipped_unmatched (line : string) :
    Client.lineRegex line = None -> Skipped line
| skipped_comment (rest : string) :
    Skipped (String "#" rest)
| skipped_negative (name : string) (body : option string) (ws rest : string) :
    metricName name = true -> blockOK body = true -> blank ws = true ->
    Skipped (name +++ blockText body +++ ws +++ String "-" rest).

(** The numbers of a sample are in range: the value is a 64-bit pattern, the
    timestamp an integer that a number holds exactly (as every time value
    is). *)
Definition safeTimestamp (s : Sample.t) : Prop :=
  (- 2 ^ 53 < Sample.timestamp s < 2 ^ 53)%Z.

Definition validSample (s : Sample.t) : Prop :=
  (0 <= Sample.value s < 2 ^ 64)%Z /\ safeTimestamp s.

Definition validSeries (t : TimeSeries.t) : Prop :=
  Forall validSample (TimeSeries.samples t).

(** The numbers of a sample fit the wire: the value is a 64-bit pattern, the
    timestamp an integer of the range of the [int64] field, from [-2^63] up
    to [2^63], that a number holds exactly. *)
Definition int64Timestamp (s : Sample.t) : Prop :=
  (- 2 ^ 63 <= Sample.timestamp s < 2 ^ 63)%Z
  /\ Number.toInteger (Number.ofInteger (Sample.timestamp s))
     = Sample.timestamp s.

Definition wireSample (s : Sample.t) : Prop :=
  (0 <= Sample.value s < 2 ^ 64)%Z /\ int64Timestamp s.

Definition wireSeries (t : TimeSeries.t) : Prop :=
  Forall wireSample (TimeSeries.samples t).

(** The timestamp is an integral number. *)
Definition integerTimestamp (s : Sample.t) : Prop :=
  Number.isInteger (Number.ofInteger (Sample.timestamp s)) = true.

(** The size in bytes of the serialized request. *)
Definition encodedSize (timeseries : list TimeSeries.t) : Z :=
  Protobuf.len
    (Protobuf.WriteRequest_encode
       (Protobuf.WriteRequest_create (JS.writeRequest timeseries))).

(** A buffer whose length fits the 32 bits of a length prefix. *)
Definition small (b : list byte) : Prop := (Protobuf.len b < 2 ^ 32)%Z.

(** The bytes of one element of a repeated message field: the tag, then the
    element, length first. *)
Definition labelField (l : Label.t) : list byte :=
  (Protobuf.Writer.uint32 10
   ++ Protobuf.Writer.ldelim (Protobuf.Label_encode (JS.label l)))%Z.

Definition sampleField (s : Sample.t) : list byte :=
  (Protobuf.Writer.uint32 18
   ++ Protobuf.Writer.ldelim (Protobuf.Sample_encode (JS.sample s)))%Z.

Definition seriesField (t : TimeSeries.t) : list byte :=
  (Protobuf.Writer.uint32 10
   ++ Protobuf.Writer.ldelim (Protobuf.TimeSeries_encode (JS.series t)))%Z.

(** *** The shape that the schema asks of a value

    A field may be absent; a field that is present has the type that the
    schema declares: a string, a number, an integer (a number without
    fractional part, or a Long-like object), an array of messages. *)
Definition absentOr (P : jsval -> Prop) (m : jsval) (key : string) : Prop :=
  match JS.field m key with
  | Some v => P v
  | None => True
  end.

Definition isString (v : jsval) : Prop :=
  match v with
  | JString _ => True
  | _ => False
  end.

Definition isNumber (v : jsval) : Prop :=
  match v with
  | JNumber _ => True
  | _ => False
  end.

Definition isInt64 (v : jsval) : Prop :=
  JS.isInteger (Some v) = true \/ JS.isLongLike v = true.

Definition isArrayOf (P : jsval -> Prop) (v : jsval) : Prop :=
  match v with
  | JArray items => Forall P items
  | _ => False
  end.

Definition LabelShape (m : jsval) : Prop :=
  JS.isObject m = true
  /\ absentOr isString m "name" /\ absentOr isString m "value".

Definition SampleShape (m : jsval) : Prop :=
  JS.isObject m = true
  /\ absentOr isNumber m "value" /\ absentOr isInt64 m "timestamp".

Definition TimeSeriesShape (m : jsval) : Prop :=
  JS.isObject m = true
  /\ absentOr (isArrayOf LabelShape) m "labels"
  /\ absentOr (isArrayOf SampleShape) m "samples".

Definition WriteRequestShape (m : jsval) : Prop :=
  JS.isObject m = true
  /\ absentOr (isArrayOf TimeSeriesShape) m "timeseries".

(** *** Traces *)

(** A write attempt: the POST of the full path, the push of the simple one. *)
Definition isWrite (e : event) : bool :=
  match e with
  | AxiosPost _ _ _ _ | PushMetrics _ _ _ => true
  | _ => false
  end.

(** Any request that leaves the process. *)
Definition isRequest (e : event) : bool :=
  match e with
  | AxiosPost _ _ _ _ | AxiosGet _ _ _ | PushMetrics _ _ _ => true
  | _ => false
  end.

Definition isConsoleError (e : event) : bool :=
  match e with
  | ConsoleError _ _ => true
  | _ => false
  end.

(** The answer is a response with a 2xx status. *)
Definition accepted {A : Type} (a : answer A) : bool :=
  match a with
  | Response status _ => ((200 <=? status) && (status <? 300))%Z
  | NoResponse _ => false
  end.

(** The answer can be reported: it is a 2xx response, or no response, or a
    response whose body can be written into a line of the log. *)
Definition loggable (a : answer jsval) : bool :=
  match a with
  | Response _ data => accepted a || JS.printable data
  | NoResponse _ => true
  end.

(** The line that reports a successful send, and the line that reports a
    failed one. *)
Definition sentLogged (t : trace) : Prop :=
  exists now, In (ConsoleLog "Metrics sent to Prometheus at " [Time now]) t.

Definition failureLogged (t : trace) : Prop :=
  exists msg,
    In (ConsoleError "Failed to send metrics to Prometheus: " [Str msg]) t.

Definition isGet (e : event) : bool :=
  match e with
  | AxiosGet _ _ _ => true
  | _ => false
  end.

(** The health check, and the request of a query. *)
Definition healthGet (w : World) : event :=
  AxiosGet (baseUrl w +++ "/-/healthy") [] 5000.

Definition queryGet (w : World) (query : string) : event :=
  AxiosGet (baseUrl w +++ "/api/v1/query") [("query", query)] 10000.

(** *** Sample inputs *)

(** The line of the first end-to-end scenario of the specification. *)
Definition sampleLine : string :=
  "demo_counter_total{service=" +++ str DQ +++ "demo-service" +++ str DQ +++ "} 42".

Definition sampleText : string :=
  unlines ["# HELP demo_counter_total A demo counter"; sampleLine; "demo_gauge 23.5"].

(** A line of the grammar whose label value holds a closing brace. *)
Definition braceLine : string :=
  "http_requests_total{endpoint=" +++ str DQ +++ "/api/{id}" +++ str DQ +++ "} 5".

(** A line of the grammar whose metric name, that of a recording rule, holds
    a colon. *)
Definition colonLine : string := "job:requests_total 5".

(** A matched line whose label block is not a plain list of pairs. *)
Definition looseLine : string :=
  "m{ a=" +++ str DQ +++ "1" +++ str DQ +++ ", b=" +++ str DQ +++ str DQ
  +++ ";; c=" +++ str DQ +++ "x y" +++ str DQ +++ " d=e } 7".

(** A request whose timestamp, [2^64 + 4096], is an integral number beyond
    the range of the [int64] field. *)
Definition wrappedSeries : list TimeSeries.t :=
  [TimeSeries.mk [Label.mk "__name__" "demo_gauge"]
     [Sample.mk 4627307879634829312%Z 18446744073709555712%Z]].

(** A request whose timestamp, [2^60], is beyond the integers that every
    number holds and within the range of the [int64] field. *)
Definition farSeries : list TimeSeries.t :=
  [TimeSeries.mk [Label.mk "__name__" "demo_gauge"]
     [Sample.mk 4627307879634829312%Z 1152921504606846976%Z]].

(** A [parseFloat] for the sample runs: every value reads as 42.0. *)
Definition sampleParseFloat : string -> number :=
  fun _ => 4631107791820423168%Z.

(** A lossless codec for the sample runs: the buffer as it is. *)
Definition storeCompress : list byte -> list byte := fun b => b.
Definition storeUncompress : list byte -> option (list byte) := fun b => Some b.

Definition sampleSeries : list TimeSeries.t :=
  [TimeSeries.mk
     [Label.mk "__name__" "demo_counter_total"; Label.mk "service" "demo-service"]
     [Sample.mk 4631107791820423168%Z 1700000000000%Z];
   TimeSeries.mk [Label.mk "__name__" "demo_gauge"]
     [Sample.mk 4627307879634829312%Z 1700000000000%Z]].

(** A world for the sample runs, given what the server answers to the health
    check and to anything else, and how a query is answered. *)
Definition sampleWorld (health other : answer jsval)
  (query : answer jsval) : World :=
  {| env_PROMETHEUS_URL := None;
     clock := fun _ => 1700000000000%Z;
     random := fun _ => 4631107791820423168%Z;
     registry := fun _ => Exposition sampleText;
     server := fun t =>
       match last t (SetTimeout 0) with
       | AxiosGet url _ _ =>
           if String.eqb url "http://localhost:9090/-/healthy" then health else other
       | _ => other
       end;
     queryServer := fun _ => query;
     outsideInterface := fun _ =>
       ([], Some "Cannot read properties of undefined (reading 'result')") |}.

(** The body [{"status":"success","data":{"resultType":"vector","result":[]}}]. *)
Definition noResults : jsval :=
  JObject
    [("status", JString "success");
     ("data",
      JObject [("resultType", JString "vector"); ("result", JArray [])])].

(** The body of a response of the query API with status [success] and an
    empty result array, whatever else its objects hold. *)
Definition emptySuccess (body : jsval) : bool :=
  match body with
  | JObject props =>
      match JS.lookup "status" props, JS.lookup "data" props with
      | Some (JString status), Some (JObject data) =>
          String.eqb status "success"
          && match JS.lookup "result" data with
             | Some (JArray []) => true
             | _ => false
             end
      | _, _ => false
      end
  | _ => false
  end.

(** *** The line pattern without backtracking

    What the line pattern matches, computed by longest runs: the word
    characters at the start of the line, a brace block up to the first
    closing brace when one follows, the blanks, the digits and dots. *)
Definition restOfLine (name : string) (labelsStr : option string) (s : string)
  : option (string * option string * string) :=
  let (ws, r) := spanSpace s in
  if truthy ws then
    let (value, _) := span isValueChar r in
    if truthy value then Some (name, labelsStr, value) else None
  else None.

Definition lineBySpans (line : string)
  : option (string * option string * string) :=
  let (name, r1) := span isWord line in
  if truthy name then
    match r1 with
    | String c r =>
        if isChar "{" c then
          let (body, r') := span (isNotChar "}") r in
          match r' with
          | String _ r2 => restOfLine name (Some ("{" +++ body +++ "}")) r2
          | EmptyString => None
          end
        else restOfLine name None r1
    | EmptyString => None
    end
  else None.

(** * Vocabulary of the further properties *)

(** The line pattern matches at the start of the line. *)
Definition matched (line : string) : bool :=
  match Client.lineRegex line with
  | Some _ => true
  | None => false
  end.

(** A label as the scraper can produce it: a word for its name, a value
    that is not empty and holds no double quote. *)
Definition scrapedLabel (l : Label.t) : bool :=
  metricName (Label.name l)
  && truthy (Label.value l)
  && all (isNotChar DQ) (Label.value l).

(** The bytes of the serialized request, before compression. *)
Definition encodedBytes (timeseries : list TimeSeries.t) : list byte :=
  Protobuf.WriteRequest_encode
    (Protobuf.WriteRequest_create (JS.writeRequest timeseries)).

(** *** Effects and reports of the scripts *)

(** Console output, and what a trace holds besides: the requests, the
    updates of the store, the waits. *)
Definition isConsole (e : event) : bool :=
  match e with
  | ConsoleLog _ _ | ConsoleError _ _ => true
  | _ => false
  end.

Definition effects (t : trace) : trace :=
  filter (fun e => negb (isConsole e)) t.

(** A computation that only writes on the console: it makes no request,
    updates nothing, does not wait, and does not exit; an error that it
    throws carries no response. *)
Definition consoleOnly {A : Type} (c : M A) : Prop :=
  forall w t,
    exists r t',
      c w t = (r, t ++ t') /\ effects t' = []
      /\ (forall n, r <> Exited n)
      /\ (forall e, r = Thrown e -> axiosResponse e = None).

(** The message of the AxiosError for a response outside 2xx. *)
Definition statusMessage (status : Z) : string :=
  "Request failed with status code " +++ decimal_of_Z status.

(** The AxiosError that a request rejects with, by its answer. *)
Definition rejection (a : answer jsval) : error :=
  match a with
  | Response status data =>
      AxiosError (statusMessage status) (Some (status, data))
  | NoResponse message => AxiosError message None
  end.

(** The TypeError of a template literal on a value that has no string. *)
Definition notPrintable : error :=
  Error "Cannot convert object to primitive value".

(** How a [catch] block that writes the body of the response into a line
    ends: normally when the answer can be reported, by the TypeError
    otherwise. *)
Definition reported (a : answer jsval) : completion unit :=
  if loggable a then Normal tt else Thrown notPrintable.

(** The line that reports the answer to the health check. *)
Definition healthReport (a : answer jsval) : event :=
  match a with
  | Response status _ =>
      if ((200 <=? status) && (status <? 300))%Z
      then ConsoleLog "Prometheus is healthy ()" [Int status]
      else ConsoleError "Prometheus is not accessible: " [Str (statusMessage status)]
  | NoResponse message =>
      ConsoleError "Prometheus is not accessible: " [Str message]
  end.

(** The lines that report the answer to the POST of the full path.  The
    line of the body is written when the body can be written. *)
Definition postReport (now : Z) (a : answer jsval) : trace :=
  match a with
  | Response status data =>
      if ((200 <=? status) && (status <? 300))%Z
      then [ConsoleLog "Metrics sent to Prometheus at " [Time now];
            ConsoleLog "   Response status: " [Int status]]
      else [ConsoleError "Failed to send metrics to Prometheus: "
              [Str (statusMessage status)];
            ConsoleError "   Response status: " [Int status]]
           ++ (if JS.printable data
               then [ConsoleError "   Response data: " [Json data]]
               else [])
  | NoResponse message =>
      [ConsoleError "Failed to send metrics to Prometheus: " [Str message]]
  end.

(** The lines of a query whose request failed. *)
Definition queryReport (a : answer jsval) : trace :=
  match a with
  | Response status data =>
      [ConsoleError "   Error querying Prometheus: " [Str (statusMessage status)];
       ConsoleError "      Status: " [Int status]]
      ++ (if JS.printable data
          then [ConsoleError "      Data: " [Json data]]
          else [])
  | NoResponse message =>
      [ConsoleError "   Error querying Prometheus: " [Str message]]
  end.

(** [data.error || 'Unknown error'] *)
Definition queryError (data : PrometheusResponse.t) : string :=
  match PrometheusResponse.error data with
  | Some e => if truthy e then e else "Unknown error"
  | None => "Unknown error"
  end.

(** The line of the simple test for the result at [index], counted from 0. *)
Definition resultLine (index : Z) (result : PrometheusResponse.entry) : event :=
  ConsoleLog "      .  = "
    [Int (index + 1);
     Str (metricNameOf (PrometheusResponse.metric result));
     Str (braced (renderMetricLabels (PrometheusResponse.metric result)));
     Str (snd (PrometheusResponse.value result))].

(** The lines of a listing, numbered from [from]. *)
Fixpoint numbered {A : Type} (line : Z -> A -> event) (from : Z) (xs : list A)
  : trace :=
  match xs with
  | [] => []
  | x :: rest => line from x :: numbered line (from + 1) rest
  end.

(** The line of the enhanced test, which adds the time of the result. *)
Definition timedLine (toISOString : number -> option string) (index : Z)
  (result : PrometheusResponse.entry) : event :=
  ConsoleLog "      .  =  @ "
    [Int (index + 1);
     Str (metricNameOf (PrometheusResponse.metric result));
     Str (braced (renderMetricLabels (PrometheusResponse.metric result)));
     Str (snd (PrometheusResponse.value result));
     Str match toISOString (fst (PrometheusResponse.value result)) with
         | Some timestamp => timestamp
         | None => EmptyString
         end].

(** The time of the result is a valid date. *)
Definition validTime (toISOString : number -> option string)
  (result : PrometheusResponse.entry) : Prop :=
  exists timestamp,
    toISOString (fst (PrometheusResponse.value result)) = Some timestamp.

(** The lines that open a query of the enhanced test, and its request. *)
Definition queryAsked (w : World) (t : trace) (query name : string) : trace :=
  t ++ [ConsoleLog "Querying: " [Str name];
        ConsoleLog "   Query: " [Str query];
        queryGet w query].

(** The same for the one query of the simple test. *)
Definition simpleAsked (w : World) (t : trace) : trace :=
  t ++ [ConsoleLog "Querying: Demo Counter" [];
        ConsoleLog "   Query: demo_counter_total" [];
        queryGet w "demo_counter_total"].

(** The line of the simple client for one metric. *)
Definition metricLine (entry : string * number) : event :=
  ConsoleLog "   -  = " [Str (fst entry); Num (snd entry)].

(** The line that reports how the push helper settled: it resolves on a
    response, whatever its status, and rejects without one. *)
Definition pushReport (now : Z) (a : answer jsval) : event :=
  match a with
  | Response _ _ => ConsoleLog "Metrics sent to Prometheus at " [Time now]
  | NoResponse message =>
      ConsoleError "Failed to send metrics to Prometheus: " [Str message]
  end.

(** The header lines of a test script and its health check. *)
Definition healthAsked (w : World) (title : string) : trace :=
  [ConsoleLog title [];
   ConsoleLog "Prometheus URL: " [Str (baseUrl w)];
   ConsoleLog "==================================================" [];
   ConsoleLog "Checking Prometheus status..." [];
   healthGet w].

(** The push of the simple client, as an event. *)
Definition isPush (w : World) (e : event) : Prop :=
  exists metrics,
    e = PushMetrics metrics (baseUrl w +++ "/api/v1/write")
          [("X-Prometheus-Remote-Write-Version", "0.1.0")]
    /\ map fst metrics
       = ["demo_counter_total"; "demo_gauge"; "demo_duration_seconds";
          "custom_metric"].

(** *** The metric store *)

(** The values that the clients give to a label, by its name. *)
Definition labelDomain (labelName : string) : list string :=
  if String.eqb labelName "service" then ["demo-service"]
  else if String.eqb labelName "environment" then ["development"]
  else if String.eqb labelName "version" then ["1.0.0"]
  else if String.eqb labelName "type" then ["performance"; "test"]
  else if String.eqb labelName "operation" then ["demo-operation"]
  else if String.eqb labelName "method" then EnhancedClient.httpMethods
  else if String.eqb labelName "status" then EnhancedClient.statusCodes
  else if String.eqb labelName "endpoint" then EnhancedClient.endpoints
  else [].

(** The event updates a metric of the register and gives one value to each
    of its label names, in their order, each value from the domain of its
    label: [labels(...)] does not throw, and the series that the update
    touches is one of a fixed finite set. *)
Definition wellLabelled (register : list Metric.t) (e : event) : Prop :=
  match e with
  | StoreUpdate name values _ =>
      exists metric,
        In metric register /\ Metric.name metric = name
        /\ Forall2 (fun labelName value => In value (labelDomain labelName))
             (Metric.labelNames metric) values
  | _ => False
  end.

Definition updated (e : event) : option string :=
  match e with
  | StoreUpdate name _ _ => Some name
  | _ => None
  end.

(** The POST of the full path, with some body. *)
Definition isPost (w : World) (e : event) : Prop :=
  exists data,
    e = AxiosPost (baseUrl w +++ "/api/v1/write") data Client.headers 5000.

(** *** The series of the simple client that pushes time series *)

(** A series that the helper can push: its labels begin with [__name__],
    whose value is not empty, no label name occurs twice, and it has one
    sample, taken at [timestamp]. *)
Definition pushable (timestamp : Z) (s : EnhancedSimpleClient.Series) : Prop :=
  (exists name rest,
      EnhancedSimpleClient.labels s = ("__name__", name) :: rest
      /\ truthy name = true)
  /\ NoDup (map fst (EnhancedSimpleClient.labels s))
  /\ exists value,
       EnhancedSimpleClient.samples s = [Sample.mk value timestamp].

Definition seriesName (s : EnhancedSimpleClient.Series) : option string :=
  property "__name__" (EnhancedSimpleClient.labels s).

(** The line of the listing for a series: its number, its name, its other
    labels, and the value and the time of its first sample. *)
Definition seriesLine (index : Z) (s : EnhancedSimpleClient.Series) : event :=
  let first := hd (Sample.mk 0%Z 0%Z) (EnhancedSimpleClient.samples s) in
  ConsoleLog "   .  =  @ "
    [Int (index + 1);
     Str match seriesName s with
         | Some name => name
         | None => "undefined"
         end;
     Str (braced (renderMetricLabels (EnhancedSimpleClient.labels s)));
     Num (Sample.value first);
     Time (Sample.timestamp first)].

(** *** More sample inputs *)

(** A world whose registry answers with [text], whose server accepts every
    request, and whose queries get no answer. *)
Definition registryWorld (text : scraped) : World :=
  {| env_PROMETHEUS_URL := None;
     clock := fun _ => 1700000000000%Z;
     random := fun _ => 4631107791820423168%Z;
     registry := fun _ => text;
     server := fun _ => Response 200 JNull;
     queryServer := fun _ => NoResponse "timeout";
     outsideInterface := fun _ => ([], None) |}.

(** A world that answers every query with [response]. *)
Definition queryWorld (response : answer jsval) : World :=
  sampleWorld (Response 200 JNull) (Response 200 JNull) response.

(** A body that cannot be written into a line of the log: the JSON text
    [{"toString": 1}]. *)
Definition unprintableBody : jsval :=
  JObject [("toString", JNumber 4607182418800017408%Z)].

(** A result of a query, at the time [time]. *)
Definition sampleEntry (time : number) : PrometheusResponse.entry :=
  PrometheusResponse.mkEntry
    [("__name__", "demo_counter_total"); ("service", "demo-service")]
    (time, "42").

(** The pattern of a NaN, and a rendering of times that throws on it, as
    [toISOString] does on an invalid date. *)
Definition notANumber : number := 9221120237041090560%Z.

Definition sampleISOString (time : number) : option string :=
  if (time =? notANumber)%Z then None
  else Some "2023-11-14T22:13:20.000Z".

(** * Tactics *)

(** Settles a fact about one character by checking the 256 of them. *)
Ltac by_cases_on_char c :=
  destruct c as [[] [] [] [] [] [] [] []]; vm_compute; intros;
  try reflexivity; try discriminate; try congruence.

(** Unfolds the operations of [M] in the goal. *)
Ltac run_M :=
  unfold Date_now, PROMETHEUS_URL, console_log, console_error, liftResult,
    awaitMetrics, dateString;
  unfold bind, ask, emit, ret, throw;
  cbv beta iota zeta.


(** Brings the traces of the goal to one shape: appends nested to the
    right, and run where the left operand is known. *)
Ltac same_trace :=
  repeat (progress (rewrite <- ?app_assoc; cbn [app])); reflexivity.
(** * Properties *)

(** ** Strings *)

Lemma append_nil_r (s : string) : s +++ EmptyString = s.
Proof. induction s; simpl; congruence. Qed.

Lemma append_assoc (a b c : string) : (a +++ b) +++ c = a +++ b +++ c.
Proof. induction a; simpl; congruence. Qed.

Lemma all_append (p : ascii -> bool) (a b : string) :
  all p (a +++ b) = all p a && all p b.
Proof. induction a; simpl; [reflexivity | rewrite IHa, andb_assoc; reflexivity]. Qed.

Lemma all_weaken (p q : ascii -> bool) (s : string) :
  (forall c, p c = true -> q c = true) -> all p s = true -> all q s = true.
Proof.
  intros Hpq. induction s as [|c s IH]; simpl; [reflexivity|].
  rewrite andb_true_iff. intros [Hc Hs]. rewrite (Hpq c Hc), (IH Hs). reflexivity.
Qed.

Lemma span_run (p : ascii -> bool) (run rest : string) :
  all p run = true -> stops p rest = true -> span p (run +++ rest) = (run, rest).
Proof.
  intros Hrun Hrest. induction run as [|c run IH]; simpl in *.
  - destruct rest as [|c rest]; simpl in *; [reflexivity|].
    apply negb_true_iff in Hrest. rewrite Hrest. reflexivity.
  - apply andb_true_iff in Hrun as [Hc Hrun]. rewrite Hc, (IH Hrun). reflexivity.
Qed.

(** Facts about the character classes, each checked on the 256 characters. *)
Lemma word_not_space (c : ascii) : isWord c = true -> isAsciiSpace c = false.
Proof. by_cases_on_char c. Qed.

Lemma word_not_lbrace (c : ascii) : isWord c = true -> isChar "{" c = false.
Proof. by_cases_on_char c. Qed.

Lemma word_not_equals (c : ascii) : isWord c = true -> isChar "=" c = false.
Proof. by_cases_on_char c. Qed.

Lemma space_not_word (c : ascii) : isAsciiSpace c = true -> isWord c = false.
Proof. by_cases_on_char c. Qed.

Lemma space_not_lbrace (c : ascii) : isAsciiSpace c = true -> isChar "{" c = false.
Proof. by_cases_on_char c. Qed.

Lemma space_not_value (c : ascii) : isAsciiSpace c = true -> isValueChar c = false.
Proof. by_cases_on_char c. Qed.

Lemma value_not_space (c : ascii) : isValueChar c = true -> isAsciiSpace c = false.
Proof. by_cases_on_char c. Qed.

Lemma isNotChar_isChar (a c : ascii) : isNotChar a c = negb (isChar a c).
Proof. reflexivity. Qed.

(** ** The backtracking matchers are deterministic on the patterns of the source *)

Section RegexFacts.
Context {R : Type}.
Implicit Types (k : string -> @Regex.Cont R) (p : ascii -> bool).

(** A greedy run followed by a pattern that cannot start with a character of
    the run's class never gives a character back: the capture is the longest
    run. *)
Lemma star_longest p k (run rest acc : string) :
  (forall a c s, p c = true -> k a (String c s) = None) ->
  all p run = true -> stops p rest = true ->
  Regex.star p k acc (run +++ rest) = k (acc +++ run) rest.
Proof.
  intros Hk Hrun Hrest. revert acc.
  induction run as [|c run IH]; intros acc; simpl in *.
  - rewrite append_nil_r. destruct rest as [|c rest]; simpl in *; [reflexivity|].
    apply negb_true_iff in Hrest. rewrite Hrest. reflexivity.
  - apply andb_true_iff in Hrun as [Hc Hrun]. rewrite Hc, (IH Hrun).
    rewrite append_assoc. simpl.
    destruct (k (acc +++ String c run) rest) eqn:E; [reflexivity|].
    apply Hk, Hc.
Qed.

(** When the pattern after the run succeeds on the longest run, that is the
    match. *)
Lemma star_first p k (run rest acc : string) (r : R) :
  all p run = true -> stops p rest = true ->
  k (acc +++ run) rest = Some r ->
  Regex.star p k acc (run +++ rest) = Some r.
Proof.
  intros Hrun Hrest. revert acc.
  induction run as [|c run IH]; intros acc Hk; simpl in *.
  - rewrite append_nil_r in Hk. destruct rest as [|c rest]; simpl in *; [exact Hk|].
    apply negb_true_iff in Hrest. rewrite Hrest. exact Hk.
  - apply andb_true_iff in Hrun as [Hc Hrun]. rewrite Hc.
    rewrite (IH Hrun (acc +++ str c)); [reflexivity|].
    rewrite append_assoc. exact Hk.
Qed.

Lemma plus_longest p k (run rest : string) :
  (forall a c s, p c = true -> k a (String c s) = None) ->
  truthy run = true -> all p run = true -> stops p rest = true ->
  Regex.plus p k (run +++ rest) = k run rest.
Proof.
  intros Hk Hne Hrun Hrest. destruct run as [|c run]; [discriminate|].
  simpl in *. apply andb_true_iff in Hrun as [Hc Hrun]. rewrite Hc.
  apply (star_longest p k run rest (str c)); assumption.
Qed.

Lemma plus_first p k (run rest : string) (r : R) :
  truthy run = true -> all p run = true -> stops p rest = true ->
  k run rest = Some r ->
  Regex.plus p k (run +++ rest) = Some r.
Proof.
  intros Hne Hrun Hrest Hk. destruct run as [|c run]; [discriminate|].
  simpl in *. apply andb_true_iff in Hrun as [Hc Hrun]. rewrite Hc.
  apply (star_first p k run rest (str c)); assumption.
Qed.

Lemma plus_head p k (c : ascii) (s : string) :
  p c = false -> Regex.plus p k (String c s) = None.
Proof. intros H. simpl. rewrite H. reflexivity. Qed.

End RegexFacts.

(** ** White space *)

Lemma spaceHead_not_word (c : ascii) : isSpaceHead c = true -> isWord c = false.
Proof. by_cases_on_char c. Qed.

Lemma spaceHead_not_lbrace (c : ascii) :
  isSpaceHead c = true -> isChar "{" c = false.
Proof. by_cases_on_char c. Qed.

Lemma spaceHead_not_value (c : ascii) :
  isSpaceHead c = true -> isValueChar c = false.
Proof. by_cases_on_char c. Qed.

Lemma value_not_spaceHead (c : ascii) :
  isValueChar c = true -> isSpaceHead c = false.
Proof. by_cases_on_char c. Qed.

Lemma word_not_spaceHead (c : ascii) : isWord c = true -> isSpaceHead c = false.
Proof. by_cases_on_char c. Qed.

Lemma isSpace3_lead (b1 b2 b3 : nat) : isSpace3 b1 b2 b3 = true -> 194 <= b1.
Proof.
  unfold isSpace3.
  rewrite !orb_true_iff, !andb_true_iff, !Nat.eqb_eq. lia.
Qed.

Lemma whiteSpace_head (c : ascii) (r : string) :
  isSpaceHead c = false -> whiteSpace (String c r) = 0.
Proof.
  unfold isSpaceHead. intros H. apply orb_false_iff in H as [Ha Hl].
  apply Nat.leb_gt in Hl. cbn [whiteSpace]. rewrite Ha.
  destruct r as [|c2 r]; [reflexivity|].
  destruct (code c =? 194)%nat eqn:E; [apply Nat.eqb_eq in E; lia|]. cbn [andb].
  destruct r as [|c3 r]; [reflexivity|].
  destruct (isSpace3 (code c) (code c2) (code c3)) eqn:E3; [|reflexivity].
  apply isSpace3_lead in E3. lia.
Qed.

Lemma stopsSpace_head (c : ascii) (r : string) :
  isSpaceHead c = false -> stopsSpace (String c r) = true.
Proof. intros H. unfold stopsSpace. rewrite (whiteSpace_head c r H). reflexivity. Qed.

Lemma dropSpace_stops (s : string) :
  stopsSpace s = true -> dropSpace s = None.
Proof.
  unfold stopsSpace, dropSpace. intros H. apply Nat.eqb_eq in H. rewrite H.
  reflexivity.
Qed.

Lemma whiteSpace_bound (s : string) : whiteSpace s <= 3.
Proof.
  unfold whiteSpace. destruct s as [|c1 [|c2 [|c3 s]]];
    repeat match goal with |- context [if ?b then _ else _] => destruct b end;
    lia.
Qed.

Lemma spanSpace_eq (s : string) :
  spanSpace s =
  match s with
  | String c1 s1 =>
      match whiteSpace s with
      | 1 => let (run, rest) := spanSpace s1 in (String c1 run, rest)
      | 2 =>
          match s1 with
          | String c2 s2 =>
              let (run, rest) := spanSpace s2 in
              (String c1 (String c2 run), rest)
          | EmptyString => (EmptyString, s)
          end
      | 3 =>
          match s1 with
          | String c2 (String c3 s3) =>
              let (run, rest) := spanSpace s3 in
              (String c1 (String c2 (String c3 run)), rest)
          | _ => (EmptyString, s)
          end
      | _ => (EmptyString, s)
      end
  | EmptyString => (EmptyString, EmptyString)
  end.
Proof. destruct s; reflexivity. Qed.

(** The white space character at the head of a text is decided by the bytes
    of the character alone. *)
Lemma dropSpace_some (s r : string) :
  dropSpace s = Some r ->
  exists w,
    s = w +++ r /\ truthy w = true
    /\ (forall r', dropSpace (w +++ r') = Some r')
    /\ stopsSpace s = false
    /\ spanSpace s = (let (run, rest) := spanSpace r in (w +++ run, rest)).
Proof.
  unfold dropSpace, stopsSpace. rewrite (spanSpace_eq s).
  destruct (whiteSpace s) as [|[|[|[|n]]]] eqn:W.
  - destruct s; discriminate.
  - destruct s as [|c1 s1]; [discriminate|]. intros E. injection E as <-.
    exists (str c1). repeat split. intros r'. cbn [append str].
    assert (A : isAsciiSpace c1 = true).
    { cbn [whiteSpace] in W. destruct (isAsciiSpace c1); [reflexivity|].
      destruct s1 as [|c2 [|c3 s3]]; try discriminate W;
        repeat match type of W with
               | (if ?b then _ else _) = _ => destruct b
               end; discriminate W. }
    cbn [whiteSpace]. rewrite A. reflexivity.
  - destruct s as [|c1 [|c2 s2]]; try discriminate. intros E. injection E as <-.
    exists (String c1 (str c2)). repeat split. intros r'. cbn [append str].
    cbn [whiteSpace] in W |- *.
    destruct (isAsciiSpace c1); [discriminate W|].
    destruct ((code c1 =? 194) && (code c2 =? 160))%nat; [reflexivity|].
    destruct s2 as [|c3 s3]; [discriminate W|].
    destruct (isSpace3 (code c1) (code c2) (code c3)); discriminate W.
  - destruct s as [|c1 [|c2 [|c3 s3]]]; try discriminate.
    intros E. injection E as <-.
    exists (String c1 (String c2 (str c3))). repeat split. intros r'.
    cbn [append str]. cbn [whiteSpace] in W |- *.
    destruct (isAsciiSpace c1); [discriminate W|].
    destruct ((code c1 =? 194) && (code c2 =? 160))%nat; [discriminate W|].
    destruct (isSpace3 (code c1) (code c2) (code c3)); [reflexivity|discriminate W].
  - pose proof (whiteSpace_bound s). lia.
Qed.

Lemma dropSpace_head (c : ascii) (s r : string) :
  dropSpace (String c s) = Some r -> isSpaceHead c = true.
Proof.
  intros H. destruct (isSpaceHead c) eqn:E; [reflexivity|].
  rewrite (dropSpace_stops _ (stopsSpace_head c s E)) in H. discriminate H.
Qed.

Lemma dropSpace_ascii (c : ascii) (s : string) :
  isAsciiSpace c = true -> dropSpace (String c s) = Some s.
Proof. intros H. unfold dropSpace. cbn [whiteSpace]. rewrite H. reflexivity. Qed.

Lemma length_append (a b : string) :
  String.length (a +++ b) = String.length a + String.length b.
Proof. induction a; simpl; congruence. Qed.

Lemma dropSpace_shorter (s r : string) :
  dropSpace s = Some r -> String.length r < String.length s.
Proof.
  intros H. apply dropSpace_some in H as (w & -> & T & _).
  rewrite length_append. destruct w; [discriminate T|]. simpl. lia.
Qed.

(** The functions that walk over white space, one character at a time. *)
Lemma allSpace_step (s : string) :
  allSpace s =
  match s with
  | EmptyString => true
  | String _ _ =>
      match dropSpace s with
      | Some r => allSpace r
      | None => false
      end
  end.
Proof.
  destruct s as [|c1 [|c2 [|c3 s3]]]; [reflexivity| | |];
    unfold dropSpace; cbn [allSpace];
    destruct (whiteSpace _) as [|[|[|[|n]]]]; reflexivity.
Qed.

Lemma trimStart_step (s : string) :
  trimStart s =
  match dropSpace s with
  | Some r => trimStart r
  | None => s
  end.
Proof.
  destruct s as [|c1 [|c2 [|c3 s3]]]; [reflexivity| | |];
    unfold dropSpace; cbn [trimStart];
    destruct (whiteSpace _) as [|[|[|[|n]]]]; reflexivity.
Qed.

Section SpaceFacts.
Context {R : Type}.
Implicit Types (k : @Regex.Cont R).

Lemma spaces_step k (s : string) :
  Regex.spaces k s =
  match dropSpace s with
  | Some r =>
      match Regex.spaces k r with
      | Some x => Some x
      | None => k s
      end
  | None => k s
  end.
Proof.
  destruct s as [|c1 [|c2 [|c3 s3]]]; [reflexivity| | |];
    unfold dropSpace; cbn [Regex.spaces];
    destruct (whiteSpace _) as [|[|[|[|n]]]]; reflexivity.
Qed.

Lemma spaces1_step k (s : string) :
  Regex.spaces1 k s =
  match dropSpace s with
  | Some r => Regex.spaces k r
  | None => None
  end.
Proof.
  destruct s as [|c1 [|c2 [|c3 s3]]]; [reflexivity| | |];
    unfold dropSpace, Regex.spaces1;
    destruct (whiteSpace _) as [|[|[|[|n]]]]; reflexivity.
Qed.

End SpaceFacts.

(** Induction over a run of white space, character by character. *)
Lemma allSpace_ind (P : string -> Prop) :
  P EmptyString ->
  (forall w run,
      truthy w = true -> (forall r, dropSpace (w +++ r) = Some r) ->
      allSpace run = true -> P run -> P (w +++ run)) ->
  forall run, allSpace run = true -> P run.
Proof.
  intros H0 Hs run.
  remember (String.length run) as n eqn:Hn. revert run Hn.
  induction n as [n IH] using lt_wf_ind. intros run Hn A.
  destruct run as [|c run']; [exact H0|].
  rewrite allSpace_step in A.
  destruct (dropSpace (String c run')) as [r|] eqn:D; [|discriminate A].
  pose proof (dropSpace_shorter _ _ D) as L.
  apply dropSpace_some in D as (w & E & T & Dw & _). rewrite E.
  apply Hs; try assumption.
  apply (IH (String.length r)); [lia|reflexivity|exact A].
Qed.

Lemma allSpace_step_true (w run : string) :
  (forall r, dropSpace (w +++ r) = Some r) -> truthy w = true ->
  allSpace run = true -> allSpace (w +++ run) = true.
Proof.
  intros D T A. rewrite allSpace_step, D.
  destruct w; [discriminate T|]. exact A.
Qed.

Lemma allSpace_ascii (ws : string) :
  all isAsciiSpace ws = true -> allSpace ws = true.
Proof.
  induction ws as [|c ws IH]; [reflexivity|]. cbn [all].
  rewrite andb_true_iff. intros [Hc Hws].
  rewrite allSpace_step, (dropSpace_ascii c ws Hc). apply IH, Hws.
Qed.

Lemma allSpace_head (c : ascii) (s : string) :
  allSpace (String c s) = true -> isSpaceHead c = true.
Proof.
  rewrite allSpace_step.
  destruct (dropSpace (String c s)) eqn:D; [|discriminate].
  intros _. apply (dropSpace_head c s _ D).
Qed.

Section SpaceRuns.
Context {R : Type}.
Implicit Types (k : @Regex.Cont R).

(** A greedy run of white space followed by a pattern that cannot start
    with white space never gives a character back. *)
Lemma spaces_longest k (run rest : string) :
  (forall s, stopsSpace s = false -> k s = None) ->
  allSpace run = true -> stopsSpace rest = true ->
  Regex.spaces k (run +++ rest) = k rest.
Proof.
  intros Hk A St. revert run A. apply (allSpace_ind (fun run => _)); [|intros w run T D A IH].
  - cbn [append]. rewrite spaces_step, (dropSpace_stops rest St). reflexivity.
  - rewrite append_assoc, spaces_step, D, IH.
    destruct (k rest) eqn:E; [reflexivity|].
    apply Hk. pose proof (D (run +++ rest)) as D'.
    apply dropSpace_some in D' as (_ & _ & _ & _ & N & _). exact N.
Qed.

Lemma spaces_first k (run rest : string) (r : R) :
  allSpace run = true -> stopsSpace rest = true ->
  k rest = Some r ->
  Regex.spaces k (run +++ rest) = Some r.
Proof.
  intros A St Hk. revert run A. apply (allSpace_ind (fun run => _)); [|intros w run T D A IH].
  - cbn [append]. rewrite spaces_step, (dropSpace_stops rest St). exact Hk.
  - rewrite append_assoc, spaces_step, D, IH. reflexivity.
Qed.

Lemma allSpace_cons (run : string) :
  truthy run = true -> allSpace run = true ->
  exists run',
    allSpace run' = true
    /\ forall rest, dropSpace (run +++ rest) = Some (run' +++ rest).
Proof.
  intros T A. destruct run as [|c run0]; [discriminate T|].
  rewrite allSpace_step in A.
  destruct (dropSpace (String c run0)) as [r|] eqn:D; [|discriminate A].
  apply dropSpace_some in D as (w & E & _ & Dw & _).
  exists r. split; [exact A|]. intros rest. rewrite E, append_assoc. apply Dw.
Qed.

Lemma spaces1_longest k (run rest : string) :
  (forall s, stopsSpace s = false -> k s = None) ->
  truthy run = true -> allSpace run = true -> stopsSpace rest = true ->
  Regex.spaces1 k (run +++ rest) = k rest.
Proof.
  intros Hk T A St. destruct (allSpace_cons run T A) as (run' & A' & D).
  rewrite spaces1_step, D. apply spaces_longest; assumption.
Qed.

Lemma spaces1_first k (run rest : string) (r : R) :
  truthy run = true -> allSpace run = true -> stopsSpace rest = true ->
  k rest = Some r ->
  Regex.spaces1 k (run +++ rest) = Some r.
Proof.
  intros T A St Hk. destruct (allSpace_cons run T A) as (run' & A' & D).
  rewrite spaces1_step, D. apply spaces_first; assumption.
Qed.

Lemma spaces1_spaceHead k :
  (forall c r, isSpaceHead c = true -> k (String c r) = None) ->
  forall t, stopsSpace t = false -> k t = None.
Proof.
  intros Hk t H. destruct t as [|c r]; [discriminate H|].
  apply Hk. destruct (isSpaceHead c) eqn:E; [reflexivity|].
  rewrite (stopsSpace_head c r E) in H. discriminate H.
Qed.

Lemma spaces1_stops k (s : string) :
  stopsSpace s = true -> Regex.spaces1 k s = None.
Proof. intros H. rewrite spaces1_step, (dropSpace_stops s H). reflexivity. Qed.

Lemma spaces_captures k (s : string) (r : R) :
  Regex.spaces k s = Some r ->
  exists run rest,
    s = run +++ rest /\ allSpace run = true /\ k rest = Some r.
Proof.
  remember (String.length s) as n eqn:Hn. revert s Hn.
  induction n as [n IH] using lt_wf_ind. intros s Hn.
  assert (Here : k s = Some r ->
                 exists run rest,
                   s = run +++ rest /\ allSpace run = true /\ k rest = Some r).
  { intros H. exists EmptyString, s. auto. }
  rewrite spaces_step. destruct (dropSpace s) as [s1|] eqn:D; [|exact Here].
  destruct (Regex.spaces k s1) as [r'|] eqn:E; [|exact Here].
  intros H. injection H as ->.
  pose proof (dropSpace_shorter _ _ D) as L.
  apply dropSpace_some in D as (w & Es & T & Dw & _).
  destruct (IH (String.length s1) ltac:(lia) s1 eq_refl E)
    as (run & rest & -> & A & K).
  exists (w +++ run), rest. rewrite append_assoc.
  auto using allSpace_step_true.
Qed.

Lemma spaces1_captures k (s : string) (r : R) :
  Regex.spaces1 k s = Some r ->
  exists run rest,
    s = run +++ rest /\ truthy run = true /\ allSpace run = true
    /\ k rest = Some r.
Proof.
  rewrite spaces1_step. destruct (dropSpace s) as [s1|] eqn:D; [|discriminate].
  intros H. apply dropSpace_some in D as (w & Es & T & Dw & _).
  apply spaces_captures in H as (run & rest & -> & A & K).
  exists (w +++ run), rest. rewrite append_assoc.
  repeat split; auto using allSpace_step_true.
  destruct w; [discriminate T|reflexivity].
Qed.

End SpaceRuns.

(** ** The line pattern on the lines of the grammar *)

Section LinePattern.
Variables (name : string) (lbl : option string).

Let afterLabels : @Regex.Cont (string * option string * string) :=
  Regex.spaces1
    (Regex.plus isValueChar (fun value _ => Some (name, lbl, value))).

Lemma value_after_space (s : string) :
  stopsSpace s = false ->
  Regex.plus isValueChar (fun value _ => Some (name, lbl, value)) s = None.
Proof.
  apply spaces1_spaceHead. intros c r Hc.
  apply plus_head, spaceHead_not_value, Hc.
Qed.

Lemma afterLabels_value (ws value rest : string) :
  truthy ws = true -> allSpace ws = true -> decimal value = true ->
  stops isValueChar rest = true ->
  afterLabels (ws +++ value +++ rest) = Some (name, lbl, value).
Proof.
  intros Hne Hws Hval Hrest. unfold decimal in Hval.
  apply andb_true_iff in Hval as [Hv1 Hv2]. unfold afterLabels.
  apply spaces1_first; try assumption.
  - destruct value as [|v value]; [discriminate|]. simpl in *.
    apply andb_true_iff in Hv2 as [Hv _].
    apply stopsSpace_head, value_not_spaceHead, Hv.
  - apply plus_first; auto.
Qed.

Lemma afterLabels_minus (ws rest : string) :
  truthy ws = true -> allSpace ws = true ->
  afterLabels (ws +++ String "-" rest) = None.
Proof.
  intros Hne Hws. unfold afterLabels.
  rewrite spaces1_longest; try assumption; try reflexivity.
  - apply value_after_space.
  - apply stopsSpace_head. reflexivity.
Qed.

Lemma afterLabels_head (c : ascii) (s : string) :
  isSpaceHead c = false -> afterLabels (String c s) = None.
Proof. intros H. apply spaces1_stops, stopsSpace_head, H. Qed.

End LinePattern.

Lemma lineRegex_unfold (name tail : string) :
  metricName name = true -> stops isWord tail = true ->
  Client.lineRegex (name +++ tail) =
  Regex.opt
    (fun k =>
       Regex.char (isChar "{")
         (Regex.star (isNotChar "}")
            (fun body => Regex.char (isChar "}") (k ("{" +++ body +++ "}")))
            EmptyString))
    (fun labelsStr =>
       Regex.spaces1
         (Regex.plus isValueChar (fun value _ =>
            Some (name, labelsStr, value)))) tail.
Proof.
  intros Hname Htail. unfold metricName in Hname.
  apply andb_true_iff in Hname as [Hn1 Hn2]. unfold Client.lineRegex.
  rewrite plus_longest; try assumption; [reflexivity|].
  intros a c s Hc. unfold Regex.opt, Regex.char.
  rewrite (word_not_lbrace c Hc).
  apply spaces1_stops, stopsSpace_head, word_not_spaceHead, Hc.
Qed.

Lemma block_star {R : Type} (k : string -> @Regex.Cont R) (b rest : string) :
  all (isNotChar "}") b = true ->
  Regex.star (isNotChar "}")
    (fun body => Regex.char (isChar "}") (k body)) EmptyString
    (b +++ String "}" rest)
  = k b rest.
Proof.
  intros Hb. rewrite star_longest; try assumption; try reflexivity.
  intros a c s Hc. unfold Regex.char. rewrite isNotChar_isChar in Hc.
  apply negb_true_iff in Hc. rewrite Hc. reflexivity.
Qed.

Lemma opt_skipped {R A : Type} (g : (A -> @Regex.Cont R) -> Regex.Cont)
  (k : option A -> Regex.Cont) (s : string) :
  g (fun a => k (Some a)) s = None -> Regex.opt g k s = k None s.
Proof. intros H. unfold Regex.opt. rewrite H. reflexivity. Qed.

Lemma block_needs_brace {R : Type} (k : @Regex.Cont R) (ws rest : string) :
  truthy ws = true -> allSpace ws = true ->
  Regex.char (isChar "{") k (ws +++ rest) = None.
Proof.
  intros Hne Hws. destruct ws as [|w ws]; [discriminate|].
  apply allSpace_head in Hws. cbn [append Regex.char].
  rewrite (spaceHead_not_lbrace w Hws). reflexivity.
Qed.

Lemma stops_word_tail (body : option string) (ws rest : string) :
  truthy ws = true -> allSpace ws = true ->
  stops isWord (blockText body +++ ws +++ rest) = true.
Proof.
  intros Hne Hws. destruct body as [b|]; [reflexivity|].
  destruct ws as [|w ws]; [discriminate|].
  apply allSpace_head in Hws. cbn [blockText append stops].
  rewrite (spaceHead_not_word w Hws). reflexivity.
Qed.

Lemma blockOK_body (b : string) :
  blockOK (Some b) = true -> all (isNotChar "}") b = true.
Proof. simpl. unfold blockBody. rewrite andb_true_iff. tauto. Qed.

Lemma blank_parts (ws : string) :
  blank ws = true -> truthy ws = true /\ allSpace ws = true /\ noLF ws = true.
Proof. unfold blank. rewrite !andb_true_iff. tauto. Qed.

(** The pattern on a line of the grammar, whatever follows the value as long
    as it does not go on with a digit or a dot. *)
Lemma lineRegex_grammar (name : string) (body : option string)
  (ws value rest : string) :
  metricName name = true -> blockOK body = true -> blank ws = true ->
  decimal value = true -> stops isValueChar rest = true ->
  Client.lineRegex (name +++ blockText body +++ ws +++ value +++ rest)
  = Some (name, option_map (fun b => "{" +++ b +++ "}") body, value).
Proof.
  intros Hname Hbody Hws Hval Hrest.
  apply blank_parts in Hws as (Hw1 & Hw2 & _).
  rewrite lineRegex_unfold by (auto using stops_word_tail).
  destruct body as [b|].
  - unfold Regex.opt. cbn [blockText append]. rewrite append_assoc.
    cbn [append Regex.char]. change (isChar "{" "{") with true. cbv iota.
    rewrite block_star by (apply blockOK_body, Hbody).
    rewrite afterLabels_value by assumption. reflexivity.
  - change (blockText None +++ ws +++ value +++ rest) with (ws +++ value +++ rest).
    rewrite opt_skipped by (apply block_needs_brace; assumption).
    apply afterLabels_value; assumption.
Qed.

(** A minus sign where the value should start: no match. *)
Lemma lineRegex_negative (name : string) (body : option string)
  (ws rest : string) :
  metricName name = true -> blockOK body = true -> blank ws = true ->
  Client.lineRegex (name +++ blockText body +++ ws +++ String "-" rest) = None.
Proof.
  intros Hname Hbody Hws.
  apply blank_parts in Hws as (Hw1 & Hw2 & _).
  rewrite lineRegex_unfold by (auto using stops_word_tail).
  destruct body as [b|].
  - unfold Regex.opt. cbn [blockText append]. rewrite append_assoc.
    cbn [append Regex.char]. change (isChar "{" "{") with true. cbv iota.
    rewrite block_star by (apply blockOK_body, Hbody).
    rewrite afterLabels_minus by assumption.
    apply spaces1_stops, stopsSpace_head. reflexivity.
  - change (blockText None +++ ws +++ String "-" rest) with (ws +++ String "-" rest).
    rewrite opt_skipped by (apply block_needs_brace; assumption).
    apply afterLabels_minus; assumption.
Qed.

(** A line the pattern matches starts with a word character. *)
Lemma lineRegex_head (c : ascii) (s : string) :
  isWord c = false -> Client.lineRegex (String c s) = None.
Proof. intros H. unfold Client.lineRegex. apply plus_head, H. Qed.

Lemma lineRegex_skipped (line : string) :
  Skipped line -> Client.lineRegex line = None.
Proof.
  intros [l H | rest | name body ws rest Hn Hb Hw].
  - exact H.
  - apply lineRegex_head. reflexivity.
  - apply lineRegex_negative; assumption.
Qed.

(** ** The line pattern never needs to backtrack *)

Lemma span_spec (p : ascii -> bool) (s run rest : string) :
  span p s = (run, rest) ->
  s = run +++ rest /\ all p run = true /\ stops p rest = true.
Proof.
  revert run rest. induction s as [|c s IH]; intros run rest; simpl.
  - intros E. injection E as <- <-. repeat split.
  - destruct (p c) eqn:Hc.
    + destruct (span p s) as [run' rest'] eqn:S. intros E. injection E as <- <-.
      destruct (IH run' rest' eq_refl) as (-> & A & St).
      simpl. rewrite Hc, A. repeat split. exact St.
    + intros E. injection E as <- <-. simpl. rewrite Hc. repeat split.
Qed.

Lemma stops_head (p : ascii -> bool) (k : string -> @Regex.Cont
  (string * option string * string)) (s : string) :
  stops p s = true -> Regex.plus p k s = None.
Proof.
  destruct s as [|c s]; [reflexivity|]. simpl. intros H.
  apply negb_true_iff in H. rewrite H. reflexivity.
Qed.

Lemma dropSpace_none (s : string) :
  dropSpace s = None -> stopsSpace s = true /\ spanSpace s = (EmptyString, s).
Proof.
  unfold dropSpace, stopsSpace. rewrite (spanSpace_eq s).
  pose proof (whiteSpace_bound s) as B.
  destruct (whiteSpace s) as [|[|[|[|k]]]] eqn:W; try lia.
  - destruct s; split; reflexivity.
  - destruct s; [discriminate W|discriminate].
  - destruct s as [|c1 [|c2 s2]]; try discriminate. split; [|reflexivity].
    cbn [whiteSpace] in W. destruct (isAsciiSpace c1); discriminate W.
  - destruct s as [|c1 [|c2 [|c3 s3]]]; try discriminate; intros _.
    + cbn [whiteSpace] in W. destruct (isAsciiSpace c1); discriminate W.
    + cbn [whiteSpace] in W. destruct (isAsciiSpace c1); [discriminate W|].
      destruct ((code c1 =? 194) && (code c2 =? 160))%nat; discriminate W.
Qed.

Lemma spanSpace_spec (s run rest : string) :
  spanSpace s = (run, rest) ->
  s = run +++ rest /\ allSpace run = true /\ stopsSpace rest = true.
Proof.
  remember (String.length s) as n eqn:Hn. revert s Hn run rest.
  induction n as [n IH] using lt_wf_ind. intros s Hn run rest.
  destruct (dropSpace s) as [r|] eqn:D.
  - pose proof (dropSpace_shorter _ _ D) as L.
    apply dropSpace_some in D as (w & E & T & Dw & _ & Sp). rewrite Sp.
    destruct (spanSpace r) as [run' rest'] eqn:S.
    destruct (IH (String.length r) ltac:(lia) r eq_refl run' rest' S)
      as (Er & A & St).
    intros H. injection H as <- <-.
    rewrite E, Er, append_assoc.
    repeat split; [|exact St]. apply allSpace_step_true; assumption.
  - apply dropSpace_none in D as [St Sp]. rewrite Sp.
    intros H. injection H as <- <-. repeat split. exact St.
Qed.

Lemma afterLabels_spans (name : string) (lbl : option string) (s : string) :
  Regex.spaces1
    (Regex.plus isValueChar (fun value _ => Some (name, lbl, value))) s
  = restOfLine name lbl s.
Proof.
  unfold restOfLine.
  destruct (spanSpace s) as [ws r] eqn:S1.
  apply spanSpace_spec in S1 as (-> & A1 & St1).
  destruct (truthy ws) eqn:T1.
  - rewrite spaces1_longest; try assumption.
    + destruct (span isValueChar r) as [value r'] eqn:S2.
      apply span_spec in S2 as (-> & A2 & St2).
      destruct (truthy value) eqn:T2.
      * apply plus_first; auto.
      * destruct value; [|discriminate]. apply stops_head, St2.
    + apply value_after_space.
  - destruct ws; [|discriminate]. apply spaces1_stops, St1.
Qed.

(** X1.  On every line, the backtracking match of the line pattern is the
    match by longest runs: the word characters at the start of the line, a
    brace block up to the first closing brace when one follows, the blanks,
    the digits and dots.  Backtracking never changes what is captured, and
    never finds a match where the longest runs do not give one. *)
Lemma lineRegex_by_spans (line : string) :
  Client.lineRegex line = lineBySpans line.
Proof.
  unfold lineBySpans.
  destruct (span isWord line) as [name r1] eqn:S1.
  apply span_spec in S1 as (-> & A1 & St1).
  destruct (truthy name) eqn:T1.
  - rewrite lineRegex_unfold
      by (unfold metricName; rewrite ?T1, ?A1; auto).
    unfold Regex.opt. destruct r1 as [|c r]; [reflexivity|].
    cbn [Regex.char]. destruct (isChar "{" c) eqn:Hc.
    + destruct (span (isNotChar "}") r) as [body r'] eqn:S2.
      apply span_spec in S2 as (-> & A2 & St2).
      assert (N : Regex.spaces1
                    (Regex.plus isValueChar (fun value _ =>
                       Some (name, @None string, value)))
                    (String c (body +++ r')) = None).
      { apply spaces1_stops, stopsSpace_head. revert Hc. clear.
        by_cases_on_char c. }
      destruct r' as [|c' r2].
      * rewrite star_longest; try assumption; try reflexivity.
        intros a x s Hx. unfold Regex.char. rewrite isNotChar_isChar in Hx.
        apply negb_true_iff in Hx. rewrite Hx. reflexivity.
      * assert (c' = "}"%char) as ->.
        { simpl in St2. unfold isNotChar in St2. rewrite negb_involutive in St2.
          apply Ascii.eqb_eq in St2. exact St2. }
        rewrite block_star by assumption. rewrite afterLabels_spans.
        destruct (restOfLine name (Some ("{" +++ body +++ "}")) r2);
          [reflexivity | exact N].
    + apply afterLabels_spans.
  - destruct name; [|discriminate]. apply stops_head, St1.
Qed.

(** ** The global label pattern never runs out of rounds *)

Section MatchLengths.
Context {R : Type}.
Implicit Types (k : string -> @Regex.Cont R) (p : ascii -> bool).

Lemma char_shorter p (k : @Regex.Cont R) (s : string) (r : R) :
  Regex.char p k s = Some r ->
  exists s', k s' = Some r /\ String.length s' < String.length s.
Proof.
  destruct s as [|c s]; simpl; [discriminate|].
  destruct (p c); [|discriminate]. intros H. exists s. split; [exact H|lia].
Qed.

Lemma star_shorter p k (acc s : string) (r : R) :
  Regex.star p k acc s = Some r ->
  exists acc' s', k acc' s' = Some r /\ String.length s' <= String.length s.
Proof.
  revert acc. induction s as [|c s IH]; intros acc; simpl.
  - intros H. exists acc, EmptyString. split; [exact H|simpl; lia].
  - destruct (p c).
    + destruct (Regex.star p k (acc +++ str c) s) as [r'|] eqn:E.
      * intros H. injection H as ->.
        destruct (IH _ E) as (acc' & s' & K & L). exists acc', s'.
        split; [exact K|lia].
      * intros H. exists acc, (String c s). split; [exact H|simpl; lia].
    + intros H. exists acc, (String c s). split; [exact H|simpl; lia].
Qed.

Lemma plus_shorter p k (s : string) (r : R) :
  Regex.plus p k s = Some r ->
  exists acc' s', k acc' s' = Some r /\ String.length s' < String.length s.
Proof.
  destruct s as [|c s]; simpl; [discriminate|].
  destruct (p c); [|discriminate]. intros H.
  destruct (star_shorter p k _ _ _ H) as (acc' & s' & K & L).
  exists acc', s'. split; [exact K|lia].
Qed.

Lemma search_shorter (re : @Regex.Cont R) (s : string) (r : R) :
  Regex.search re s = Some r ->
  exists s', re s' = Some r /\ String.length s' <= String.length s.
Proof.
  induction s as [|c s IH]; simpl.
  - destruct (re EmptyString) eqn:E; [|discriminate].
    intros H. injection H as ->. exists EmptyString. split; [exact E|simpl; lia].
  - destruct (re (String c s)) eqn:E.
    + intros H. injection H as ->. exists (String c s). split; [exact E|simpl; lia].
    + intros H. destruct (IH H) as (s' & K & L). exists s'. split; [exact K|lia].
Qed.

End MatchLengths.

(** A match of the label pattern leaves a strictly shorter text. *)
Lemma labelRegex_shorter (s m n v rest : string) :
  Regex.search Client.labelRegex s = Some (m, n, v, rest) ->
  String.length rest < String.length s.
Proof.
  intros H. apply search_shorter in H as (s1 & H & L1).
  unfold Client.labelRegex in H.
  apply plus_shorter in H as (name & s2 & H & L2).
  apply char_shorter in H as (s3 & H & L3).
  apply char_shorter in H as (s4 & H & L4).
  apply star_shorter in H as (value & s5 & H & L5).
  apply char_shorter in H as (s6 & H & L6).
  injection H as _ _ _ <-. lia.
Qed.

(** More rounds than the text has characters find no more matches: the
    bound that [matchGlobal] sets is never reached. *)
Lemma matchAll_fuel (s : string) (fuel : nat) :
  String.length s < fuel ->
  Client.matchAll fuel s = Client.matchAll (S (String.length s)) s.
Proof.
  remember (String.length s) as n eqn:Hn.
  revert s Hn fuel. induction n as [n IH] using lt_wf_ind. intros s Hn fuel Hf.
  destruct fuel as [|fuel]; [lia|]. cbn [Client.matchAll].
  destruct (Regex.search Client.labelRegex s) as [[[[m nm] v] rest]|] eqn:E;
    [|reflexivity].
  apply labelRegex_shorter in E. f_equal.
  rewrite (IH (String.length rest)) by lia.
  symmetry. apply (IH (String.length rest)); lia.
Qed.

(** ** Lines of a text *)

Lemma split_line (l : string) : noLF l = true -> split LF l = [l].
Proof.
  induction l as [|c l IH]; simpl; [reflexivity|].
  unfold noLF in *. simpl. rewrite andb_true_iff, isNotChar_isChar, negb_true_iff.
  unfold isChar. intros [Hc Hl]. rewrite Hc, (IH Hl). reflexivity.
Qed.

Lemma split_append (l rest : string) :
  noLF l = true -> split LF (l +++ String LF rest) = l :: split LF rest.
Proof.
  induction l as [|c l IH]; simpl; [reflexivity|].
  unfold noLF in *. simpl. rewrite andb_true_iff, isNotChar_isChar, negb_true_iff.
  unfold isChar. intros [Hc Hl]. rewrite Hc, (IH Hl). reflexivity.
Qed.

Lemma split_unlines (l : string) (ls : list string) :
  Forall (fun l => noLF l = true) (l :: ls) ->
  split LF (unlines (l :: ls)) = l :: ls.
Proof.
  revert l. induction ls as [|l' ls IH]; intros l H.
  - apply split_line. inversion H; assumption.
  - inversion H as [|? ? Hl Hls]; subst.
    change (unlines (l :: l' :: ls)) with (l +++ String LF (unlines (l' :: ls))).
    rewrite (split_append _ _ Hl), (IH l' Hls). reflexivity.
Qed.

Lemma trimEnd_nonempty (c : ascii) (s : string) :
  isSpaceHead c = false -> truthy (trimEnd (String c s)) = true.
Proof.
  intros H.
  change (trimEnd (String c s))
    with (if allSpace (String c s) then EmptyString else String c (trimEnd s)).
  rewrite allSpace_step, (dropSpace_stops _ (stopsSpace_head c s H)).
  reflexivity.
Qed.

Lemma trim_head (c : ascii) (s : string) :
  isSpaceHead c = false -> trim (String c s) = String c (trimEnd s).
Proof.
  intros H. unfold trim.
  rewrite trimStart_step, (dropSpace_stops _ (stopsSpace_head c s H)).
  change (trimEnd (String c s))
    with (if allSpace (String c s) then EmptyString else String c (trimEnd s)).
  rewrite allSpace_step, (dropSpace_stops _ (stopsSpace_head c s H)).
  reflexivity.
Qed.

(** The filter on the lines drops nothing that the line pattern matches. *)
Lemma keep_false_unmatched (line : string) :
  Client.keep line = false -> Client.lineRegex line = None.
Proof.
  destruct line as [|c s]; [reflexivity|].
  intros H. apply lineRegex_head.
  destruct (isWord c) eqn:Hw; [exfalso|reflexivity].
  unfold Client.keep in H.
  rewrite (trim_head c s (word_not_spaceHead c Hw)) in H.
  cbn [truthy startsWith andb] in H. revert Hw H. clear. by_cases_on_char c.
Qed.

Section Loop.
Variables (parseFloat : string -> number) (timestamp : Z).

Let step := Client.pushSeries parseFloat timestamp.

Lemma pushSeries_app (acc : list TimeSeries.t) (line : string) :
  step acc line = acc ++ step [] line.
Proof.
  unfold step, Client.pushSeries.
  destruct (Client.lineRegex line) as [[[name labelsStr] value]|];
    [destruct (truthy name && truthy value)|]; simpl; auto using app_nil_r.
Qed.

Lemma fold_pushSeries (ls : list string) (acc : list TimeSeries.t) :
  fold_left step ls acc = acc ++ flat_map (step []) ls.
Proof.
  revert acc. induction ls as [|l ls IH]; intros acc; simpl.
  - symmetry. apply app_nil_r.
  - rewrite IH, (pushSeries_app acc l), app_assoc. reflexivity.
Qed.

Lemma flat_map_kept (ls : list string) :
  flat_map (step []) (filter Client.keep ls) = flat_map (step []) ls.
Proof.
  induction ls as [|l ls IH]; simpl; [reflexivity|].
  destruct (Client.keep l) eqn:K; simpl; rewrite IH; [reflexivity|].
  unfold step, Client.pushSeries. rewrite (keep_false_unmatched l K). reflexivity.
Qed.

(** The scrape of a text is the scrape of its lines, one after the other. *)
Lemma timeseries_unlines (ls : list string) :
  Forall (fun l => noLF l = true) ls ->
  Client.timeseries parseFloat timestamp (unlines ls) = flat_map (step []) ls.
Proof.
  intros H. unfold Client.timeseries, Client.lines. fold step.
  rewrite fold_pushSeries. simpl. destruct ls as [|l ls]; [reflexivity|].
  rewrite (split_unlines l ls H). apply flat_map_kept.
Qed.

Lemma timeseries_around (before after : list string) (line : string) :
  Forall (fun l => noLF l = true) before ->
  Forall (fun l => noLF l = true) after ->
  noLF line = true ->
  Client.timeseries parseFloat timestamp (unlines (before ++ line :: after))
  = Client.timeseries parseFloat timestamp (unlines before)
    ++ step [] line
    ++ Client.timeseries parseFloat timestamp (unlines after).
Proof.
  intros Hb Ha Hl. rewrite !timeseries_unlines; auto.
  - rewrite flat_map_app. reflexivity.
  - apply Forall_app. split; [assumption|]. constructor; assumption.
Qed.

End Loop.

Lemma labels_head (name : string) (labelsStr : option string) :
  exists scraped,
    Client.labels name labelsStr = Label.mk "__name__" name :: scraped.
Proof.
  assert (F : forall ms acc, exists more, fold_left Client.pushLabel ms acc = acc ++ more).
  { induction ms as [|m ms IH]; intros acc; simpl.
    - exists []. symmetry. apply app_nil_r.
    - unfold Client.pushLabel at 2.
      destruct (Regex.search Client.labelRegex m) as [[[[? n] v] ?]|]; [|apply IH].
      destruct (truthy n && truthy v); [|apply IH].
      destruct (IH (acc ++ [Label.mk n v])) as [more E]. rewrite E, <- app_assoc.
      eexists. reflexivity. }
  unfold Client.labels. destruct labelsStr as [s|]; [|exists []; reflexivity].
  destruct (truthy s); [|exists []; reflexivity].
  destruct (Client.matchGlobal s) as [ms|]; [|exists []; reflexivity].
  destruct (F ms [Label.mk "__name__" name]) as [more E]. rewrite E.
  exists more. reflexivity.
Qed.

Lemma noLF_append (a b : string) : noLF (a +++ b) = noLF a && noLF b.
Proof. apply all_append. Qed.

Lemma noLF_grammarLine (name : string) (body : option string) (ws value : string) :
  metricName name = true -> blockOK body = true -> blank ws = true ->
  decimal value = true -> noLF (grammarLine name body ws value) = true.
Proof.
  unfold metricName, blank, decimal, grammarLine.
  rewrite !andb_true_iff. intros [_ Hn] Hb [[_ _] Hw] [_ Hv].
  rewrite !noLF_append, Hw.
  assert (W : forall s, all isWord s = true -> noLF s = true).
  { intros s. apply all_weaken. intros c. by_cases_on_char c. }
  assert (V : forall s, all isValueChar s = true -> noLF s = true).
  { intros s. apply all_weaken. intros c. by_cases_on_char c. }
  rewrite (W _ Hn), (V _ Hv). destruct body as [b|]; [|reflexivity].
  simpl in Hb. unfold blockBody in Hb. apply andb_true_iff in Hb as [_ Hb].
  simpl. change (noLF (String "{" (b +++ "}"))) with (noLF (b +++ "}")).
  rewrite noLF_append, Hb. reflexivity.
Qed.

(** ** What the patterns capture *)

Section Captures.
Context {R : Type}.

Lemma char_captures p (k : @Regex.Cont R) (s : string) (r : R) :
  Regex.char p k s = Some r ->
  exists c s', s = String c s' /\ p c = true /\ k s' = Some r.
Proof.
  destruct s as [|c s]; simpl; [discriminate|].
  destruct (p c) eqn:Hc; [|discriminate].
  intros H. exists c, s. auto.
Qed.

Lemma star_captures p k (acc s : string) (r : R) :
  Regex.star p k acc s = Some r ->
  exists run rest,
    s = run +++ rest /\ all p run = true /\ k (acc +++ run) rest = Some r.
Proof.
  revert acc. induction s as [|c s IH]; intros acc; simpl.
  - intros H. exists EmptyString, EmptyString.
    rewrite (append_nil_r acc). repeat split. exact H.
  - assert (Here : k acc (String c s) = Some r ->
                   exists run rest,
                     String c s = run +++ rest /\ all p run = true
                     /\ k (acc +++ run) rest = Some r).
    { intros H. exists EmptyString, (String c s). rewrite (append_nil_r acc).
      repeat split. exact H. }
    destruct (p c) eqn:Hc; [|exact Here].
    destruct (Regex.star p k (acc +++ str c) s) as [r'|] eqn:E; [|exact Here].
    intros H. injection H as ->.
    destruct (IH _ E) as (run & rest & -> & A & K).
    exists (String c run), rest. simpl. rewrite Hc, A.
    rewrite append_assoc in K. auto.
Qed.

Lemma plus_captures p k (s : string) (r : R) :
  Regex.plus p k s = Some r ->
  exists run rest,
    s = run +++ rest /\ truthy run = true /\ all p run = true
    /\ k run rest = Some r.
Proof.
  destruct s as [|c s]; simpl; [discriminate|].
  destruct (p c) eqn:Hc; [|discriminate].
  intros H. apply star_captures in H as (run & rest & -> & A & K).
  exists (String c run), rest. simpl. rewrite Hc, A. auto.
Qed.

Lemma search_captures (re : @Regex.Cont R) (s : string) (r : R) :
  Regex.search re s = Some r ->
  exists before s', s = before +++ s' /\ re s' = Some r.
Proof.
  induction s as [|c s IH]; simpl.
  - destruct (re EmptyString) eqn:E; [|discriminate].
    intros H. injection H as ->. exists EmptyString, EmptyString. auto.
  - destruct (re (String c s)) eqn:E.
    + intros H. injection H as ->. exists EmptyString, (String c s). auto.
    + intros H. destruct (IH H) as (before & s' & -> & K).
      exists (String c before), s'. auto.
Qed.

End Captures.

(** What follows the label block in the line pattern. *)
Lemma afterLabels_captures (name : string) (lbl : option string) (s : string)
  (n : string) (l : option string) (v : string) :
  Regex.spaces1
    (Regex.plus isValueChar (fun value _ => Some (name, lbl, value))) s
  = Some (n, l, v) ->
  n = name /\ l = lbl /\ decimal v = true.
Proof.
  intros H. apply spaces1_captures in H as (ws & s1 & _ & _ & _ & H).
  apply plus_captures in H as (value & s2 & _ & T & A & H).
  injection H as <- <- <-. unfold decimal. rewrite T, A. auto.
Qed.

(** The captures of a match of the line pattern: the name is a run of word
    characters, the value a run of digits and dots, neither empty; the label
    block, when it took part, is a text between braces. *)
Lemma lineRegex_captures (line name : string) (labelsStr : option string)
  (value : string) :
  Client.lineRegex line = Some (name, labelsStr, value) ->
  metricName name = true /\ decimal value = true
  /\ match labelsStr with
     | Some block =>
         exists body,
           block = "{" +++ body +++ "}" /\ all (isNotChar "}") body = true
     | None => True
     end.
Proof.
  unfold Client.lineRegex. intros H.
  apply plus_captures in H as (run & s1 & _ & T & A & H).
  unfold Regex.opt in H.
  match type of H with
  | match ?g with _ => _ end = _ => destruct g as [r|] eqn:G
  end.
  - injection H as ->.
    apply char_captures in G as (c & s2 & _ & _ & G).
    apply star_captures in G as (body & s3 & _ & B & G).
    apply char_captures in G as (c' & s4 & _ & _ & G).
    apply afterLabels_captures in G as (-> & -> & D).
    unfold metricName. rewrite T, A. repeat split; [exact D|].
    exists body. auto.
  - apply afterLabels_captures in H as (-> & -> & D).
    unfold metricName. rewrite T, A. auto.
Qed.

(** The guard [if (name && value)] never turns a matched line away. *)
Lemma pushSeries_matched (parseFloat : string -> number) (timestamp : Z)
  (line name : string) (labelsStr : option string) (value : string) :
  Client.lineRegex line = Some (name, labelsStr, value) ->
  Client.pushSeries parseFloat timestamp [] line
  = [TimeSeries.mk (Client.labels name labelsStr)
       [Sample.mk (parseFloat value) timestamp]].
Proof.
  intros H. unfold Client.pushSeries. rewrite H.
  apply lineRegex_captures in H as (N & D & _).
  unfold metricName in N. unfold decimal in D.
  apply andb_true_iff in N as [-> _]. apply andb_true_iff in D as [-> _].
  reflexivity.
Qed.

(** ** C3 *)

(** A line of the grammar whose label value holds a closing brace: the
    label block of the pattern, [\{[^}]*\}], ends at that brace, no white
    space follows it, and the line is not matched.  A line of the grammar
    whose metric name holds a colon: the name of the pattern, [\w+], ends at
    the colon, and the line is not matched either. *)
Example brace_line_scraped :
  forall (parseFloat : string -> number) (timestamp : Z),
    Client.timeseries parseFloat timestamp braceLine = []
    /\ Client.timeseries parseFloat timestamp colonLine = [].
Proof. intros. split; reflexivity. Qed.

(** C3, as stated, fails: the lines [braceLine] and [colonLine] are of the
    grammar and no TimeSeries is produced for either. *)
Lemma brace_line_not_scraped :
  ~ (forall (parseFloat : string -> number) (timestamp : Z),
       exists scraped,
         Client.timeseries parseFloat timestamp braceLine
         = [TimeSeries.mk
              (Label.mk "__name__" "http_requests_total" :: scraped)
              [Sample.mk (parseFloat "5") timestamp]])
  /\ ~ (forall (parseFloat : string -> number) (timestamp : Z),
         exists scraped,
           Client.timeseries parseFloat timestamp colonLine
           = [TimeSeries.mk
                (Label.mk "__name__" "job:requests_total" :: scraped)
                [Sample.mk (parseFloat "5") timestamp]]).
Proof.
  split; intros H; destruct (H (fun _ => 0%Z) 0%Z) as [scraped E];
    destruct (brace_line_scraped (fun _ => 0%Z) 0%Z) as [B C].
  - rewrite B in E. discriminate E.
  - rewrite C in E. discriminate E.
Qed.

(** C3, amended.  Every line made of a metric name of word characters, an
    optional label block whose text holds no closing brace, white space and
    a decimal value contributes exactly one TimeSeries to the scrape, at the
    place of the line among the others: its first label is [__name__] with
    the metric name as value, and it carries one Sample, whose value is
    [parseFloat] of the value text and whose timestamp is the capture time
    that every series of the scrape shares. *)
Theorem scraper_one_series_per_line :
  forall (parseFloat : string -> number) (timestamp : Z)
         (before after : list string)
         (name : string) (body : option string) (ws value : string),
    Forall (fun l => noLF l = true) before ->
    Forall (fun l => noLF l = true) after ->
    metricName name = true -> blockOK body = true ->
    blank ws = true -> decimal value = true ->
    (exists scraped,
       Client.timeseries parseFloat timestamp
         (unlines (before ++ grammarLine name body ws value :: after))
       = Client.timeseries parseFloat timestamp (unlines before)
         ++ [TimeSeries.mk (Label.mk "__name__" name :: scraped)
               [Sample.mk (parseFloat value) timestamp]]
         ++ Client.timeseries parseFloat timestamp (unlines after))
    /\ Forall (fun s => map Sample.timestamp (TimeSeries.samples s) = [timestamp])
         (Client.timeseries parseFloat timestamp
            (unlines (before ++ grammarLine name body ws value :: after))).
Proof.
  intros pf ts before after name body ws value Hb Ha Hn Hbody Hws Hv.
  split.
  - destruct (labels_head name (option_map (fun b => "{" +++ b +++ "}") body))
      as [scraped E].
    exists scraped.
    rewrite timeseries_around by auto using noLF_grammarLine.
    pose proof (lineRegex_grammar name body ws value EmptyString
                  Hn Hbody Hws Hv eq_refl) as M.
    rewrite append_nil_r in M.
    unfold Client.pushSeries. fold (grammarLine name body ws value) in M.
    rewrite M.
    unfold metricName, decimal in Hn, Hv.
    apply andb_true_iff in Hn as [Hn _]. apply andb_true_iff in Hv as [Hv _].
    rewrite Hn, Hv, E. reflexivity.
  - unfold Client.timeseries.
    generalize (Client.lines (unlines (before ++ grammarLine name body ws value :: after))).
    intros ls. rewrite fold_pushSeries. simpl.
    induction ls as [|l ls IH]; simpl; [constructor|].
    apply Forall_app. split; [|exact IH].
    unfold Client.pushSeries.
    destruct (Client.lineRegex l) as [[[n lb] v]|]; [|constructor].
    destruct (truthy n && truthy v); repeat constructor.
Qed.

Lemma timeseries_line (parseFloat : string -> number) (timestamp : Z)
  (line : string) :
  noLF line = true ->
  Client.timeseries parseFloat timestamp line
  = Client.pushSeries parseFloat timestamp [] line.
Proof.
  intros H. change line with (unlines [line]) at 1.
  rewrite timeseries_unlines by (repeat constructor; assumption).
  simpl. apply app_nil_r.
Qed.

(** ** C5 *)

(** A value in exponent notation: the pattern, which is not anchored at the
    end of the line, matches the digits before the exponent. *)
Example exponent_line_scraped :
  forall (parseFloat : string -> number) (timestamp : Z),
    Client.timeseries parseFloat timestamp "demo_gauge 1.5e3"
    = [TimeSeries.mk [Label.mk "__name__" "demo_gauge"]
         [Sample.mk (parseFloat "1.5") timestamp]].
Proof. intros. reflexivity. Qed.

(** C5, as stated, fails: a line whose value uses exponent notation is not
    skipped. *)
Lemma exponent_line_not_skipped :
  ~ (forall (parseFloat : string -> number) (timestamp : Z),
       Client.timeseries parseFloat timestamp "demo_gauge 1.5e3" = []).
Proof.
  intros H. specialize (H (fun _ => 0%Z) 0%Z).
  rewrite exponent_line_scraped in H. discriminate H.
Qed.

(** C5, amended.  A line that the line pattern does not match at its start --
    a comment line beginning with [#], a line whose value is negative, any
    other unmatched line -- contributes no TimeSeries, and the lines before
    and after it are scraped as if it were absent. *)
Theorem unmatched_lines_skipped :
  forall (parseFloat : string -> number) (timestamp : Z)
         (before after : list string) (line : string),
    Forall (fun l => noLF l = true) before ->
    Forall (fun l => noLF l = true) after ->
    noLF line = true ->
    Skipped line ->
    Client.timeseries parseFloat timestamp (unlines (before ++ line :: after))
    = Client.timeseries parseFloat timestamp (unlines before)
      ++ Client.timeseries parseFloat timestamp (unlines after).
Proof.
  intros pf ts before after line Hb Ha Hl Hs.
  rewrite timeseries_around by assumption.
  unfold Client.pushSeries. rewrite (lineRegex_skipped line Hs). reflexivity.
Qed.

(** ** The label pattern on the label block *)

Lemma search_here {R : Type} (re : @Regex.Cont R) (s : string) (r : R) :
  re s = Some r -> Regex.search re s = Some r.
Proof. intros H. destruct s; simpl; rewrite H; reflexivity. Qed.

Lemma search_next {R : Type} (re : @Regex.Cont R) (c : ascii) (s : string) :
  re (String c s) = None -> Regex.search re (String c s) = Regex.search re s.
Proof. intros H. simpl. rewrite H. reflexivity. Qed.

Lemma scrapable_parts (l : Label.t) :
  scrapable l = true ->
  truthy (Label.name l) = true /\ all isWord (Label.name l) = true
  /\ all (isNotChar DQ) (Label.value l) = true
  /\ all (isNotChar "}") (Label.value l) = true
  /\ noLF (Label.value l) = true.
Proof.
  unfold scrapable, metricName. rewrite !andb_true_iff. intros [[H1 H2] H3].
  repeat split; try assumption; revert H3; apply all_weaken; intros c;
    rewrite !andb_true_iff; tauto.
Qed.

Lemma scrapable_written (l : Label.t) :
  scrapable l = true -> writtenLabel l = true.
Proof.
  intros H. apply scrapable_parts in H as (H1 & H2 & H3 & _).
  unfold writtenLabel, metricName. rewrite H1, H2, H3. reflexivity.
Qed.

Lemma labelRegex_written (l : Label.t) (rest : string) :
  writtenLabel l = true ->
  Client.labelRegex (renderLabel l +++ rest)
  = Some (renderLabel l, Label.name l, Label.value l, rest).
Proof.
  unfold writtenLabel, metricName. rewrite !andb_true_iff.
  intros [[H1 H2] H3].
  unfold renderLabel, Client.labelRegex. rewrite !append_assoc.
  rewrite plus_longest; try assumption; try reflexivity.
  - simpl. rewrite star_longest; try assumption; try reflexivity.
    intros a c s Hc. unfold Regex.char. rewrite isNotChar_isChar in Hc.
    apply negb_true_iff in Hc. rewrite Hc. reflexivity.
  - intros a c s Hc. unfold Regex.char. rewrite (word_not_equals c Hc). reflexivity.
Qed.

Lemma labelRegex_render (l : Label.t) (rest : string) :
  scrapable l = true ->
  Client.labelRegex (renderLabel l +++ rest)
  = Some (renderLabel l, Label.name l, Label.value l, rest).
Proof. intros H. apply labelRegex_written, scrapable_written, H. Qed.

Lemma renderLabels_cons (l : Label.t) (ls : list Label.t) :
  renderLabels (l :: ls) +++ "}" = renderLabel l +++ blockTail ls.
Proof.
  destruct ls as [|l' ls]; [reflexivity|].
  unfold renderLabels, blockTail. simpl map. cbn [join].
  rewrite !append_assoc. reflexivity.
Qed.

Lemma matchAll_tail (ls : list Label.t) (fuel : nat) :
  Forall (fun l => scrapable l = true) ls -> List.length ls < fuel ->
  Client.matchAll fuel (blockTail ls) = map renderLabel ls.
Proof.
  revert fuel. induction ls as [|l ls IH]; intros fuel H Hfuel.
  - destruct fuel as [|fuel]; reflexivity.
  - destruct fuel as [|fuel]; [simpl in Hfuel; lia|].
    inversion H as [|? ? Hl Hls]; subst.
    unfold blockTail. rewrite renderLabels_cons.
    cbn [Client.matchAll]. rewrite search_next by reflexivity.
    rewrite (search_here _ _ _ (labelRegex_render l (blockTail ls) Hl)).
    rewrite IH; [reflexivity | assumption | simpl in Hfuel; lia].
Qed.

Lemma matchAll_block (ls : list Label.t) (fuel : nat) :
  Forall (fun l => scrapable l = true) ls -> List.length ls < fuel ->
  Client.matchAll fuel ("{" +++ renderLabels ls +++ "}") = map renderLabel ls.
Proof.
  intros H Hfuel. destruct ls as [|l ls].
  - destruct fuel as [|fuel]; reflexivity.
  - destruct fuel as [|fuel]; [simpl in Hfuel; lia|].
    inversion H as [|? ? Hl Hls]; subst.
    rewrite renderLabels_cons.
    change ("{" +++ renderLabel l +++ blockTail ls)
      with (String "{" (renderLabel l +++ blockTail ls)).
    cbn [Client.matchAll]. rewrite search_next by reflexivity.
    rewrite (search_here _ _ _ (labelRegex_render l (blockTail ls) Hl)).
    rewrite matchAll_tail; [reflexivity | assumption | simpl in Hfuel; lia].
Qed.

Lemma renderLabels_length (ls : list Label.t) :
  List.length ls <= String.length (renderLabels ls).
Proof.
  assert (R : forall l, 1 <= String.length (renderLabel l)).
  { intros l. unfold renderLabel. rewrite !length_append. simpl. lia. }
  induction ls as [|l ls IH]; [simpl; lia|].
  destruct ls as [|l' ls].
  - apply R.
  - change (renderLabels (l :: l' :: ls))
      with (renderLabel l +++ "," +++ renderLabels (l' :: ls)).
    rewrite !length_append. specialize (R l). simpl in *. lia.
Qed.

Lemma fold_pushLabel_written (ls acc : list Label.t) :
  Forall (fun l => writtenLabel l = true) ls ->
  fold_left Client.pushLabel (map renderLabel ls) acc
  = acc ++ filter nonEmptyValue ls.
Proof.
  revert acc. induction ls as [|l ls IH]; intros acc H; simpl.
  - symmetry. apply app_nil_r.
  - inversion H as [|? ? Hl Hls]; subst. rewrite (IH _ Hls).
    unfold Client.pushLabel.
    pose proof (labelRegex_written l EmptyString Hl) as M.
    rewrite append_nil_r in M. rewrite (search_here _ _ _ M).
    unfold writtenLabel, metricName in Hl.
    apply andb_true_iff in Hl as [Hn _]. apply andb_true_iff in Hn as [Hn _].
    rewrite Hn. unfold nonEmptyValue.
    destruct l as [n v]. simpl.
    destruct (truthy v); simpl; [rewrite <- app_assoc|]; reflexivity.
Qed.

Lemma fold_pushLabel (ls acc : list Label.t) :
  Forall (fun l => scrapable l = true) ls ->
  fold_left Client.pushLabel (map renderLabel ls) acc
  = acc ++ filter nonEmptyValue ls.
Proof.
  intros H. apply fold_pushLabel_written.
  eapply Forall_impl; [|exact H]. intros l. apply scrapable_written.
Qed.

(** The labels scraped from a block of rendered labels. *)
Lemma labels_block (name : string) (ls : list Label.t) :
  Forall (fun l => scrapable l = true) ls ->
  Client.labels name (Some ("{" +++ renderLabels ls +++ "}"))
  = Label.mk "__name__" name :: filter nonEmptyValue ls.
Proof.
  intros H. unfold Client.labels, Client.matchGlobal.
  cbn [truthy String.append].
  change (String "{" (renderLabels ls +++ "}")) with ("{" +++ renderLabels ls +++ "}").
  rewrite matchAll_block; try assumption.
  - destruct ls as [|l ls]; [reflexivity|].
    change (map renderLabel (l :: ls)) with (renderLabel l :: map renderLabel ls).
    cbv iota beta.
    change (renderLabel l :: map renderLabel ls) with (map renderLabel (l :: ls)).
    rewrite fold_pushLabel by assumption. reflexivity.
  - simpl. rewrite length_append. pose proof (renderLabels_length ls). lia.
Qed.

Lemma all_renderLabels (p : ascii -> bool) (ls : list Label.t) :
  p ","%char = true ->
  Forall (fun l => all p (renderLabel l) = true) ls ->
  all p (renderLabels ls) = true.
Proof.
  intros Hc H. induction H as [|l ls Hl Hls IH]; [reflexivity|].
  destruct ls as [|l' ls]; [exact Hl|].
  change (renderLabels (l :: l' :: ls))
    with (renderLabel l +++ "," +++ renderLabels (l' :: ls)).
  rewrite !all_append, Hl, IH. simpl. rewrite Hc. reflexivity.
Qed.

Lemma blockOK_render (ls : list Label.t) :
  Forall (fun l => scrapable l = true) ls ->
  blockOK (Some (renderLabels ls)) = true.
Proof.
  intros H.
  assert (W : forall s, all isWord s = true ->
              all (isNotChar "}") s = true /\ all (isNotChar LF) s = true).
  { intros s Hs. split; revert Hs; apply all_weaken; intros c; by_cases_on_char c. }
  assert (L : forall l, scrapable l = true ->
              all (isNotChar "}") (renderLabel l) = true
              /\ all (isNotChar LF) (renderLabel l) = true).
  { intros l Hl. apply scrapable_parts in Hl as (_ & Hn & _ & Hv1 & Hv2).
    destruct (W _ Hn) as [W1 W2]. unfold renderLabel, noLF in *.
    rewrite !all_append, W1, W2, Hv1, Hv2. split; reflexivity. }
  unfold blockOK, blockBody, noLF. apply andb_true_iff. split.
  - apply all_renderLabels; [reflexivity|].
    eapply Forall_impl; [|exact H]. intros l Hl. apply L, Hl.
  - apply all_renderLabels; [reflexivity|].
    eapply Forall_impl; [|exact H]. intros l Hl. apply L, Hl.
Qed.

(** ** C4 *)

(** The label whose value is the empty string is dropped by the guard
    [if (labelName && labelValue)]. *)
Example empty_label_value_scraped :
  forall (parseFloat : string -> number) (timestamp : Z),
    Client.timeseries parseFloat timestamp
      ("m{a=" +++ str DQ +++ str DQ +++ ",b=" +++ str DQ +++ "c" +++ str DQ +++ "} 1")
    = [TimeSeries.mk [Label.mk "__name__" "m"; Label.mk "b" "c"]
         [Sample.mk (parseFloat "1") timestamp]].
Proof. intros. reflexivity. Qed.

(** C4, as stated, fails: the scraped label [a] with the empty value is not
    among the labels of the series produced for the line. *)
Lemma empty_label_value_omitted :
  ~ (forall (parseFloat : string -> number) (timestamp : Z),
       exists s,
         Client.timeseries parseFloat timestamp
           ("m{a=" +++ str DQ +++ str DQ +++ ",b=" +++ str DQ +++ "c" +++ str DQ +++ "} 1")
         = [s]
         /\ In (Label.mk "a" EmptyString) (TimeSeries.labels s)).
Proof.
  intros H. destruct (H (fun _ => 0%Z) 0%Z) as [s [E I]].
  rewrite empty_label_value_scraped in E. injection E as <-.
  simpl in I. destruct I as [I | [I | []]]; discriminate I.
Qed.

(** *** The label pattern against the reading by longest runs *)

Lemma quotedValue_tail (name r : string) :
  Regex.char (isChar "=")
    (Regex.char (isChar DQ)
       (Regex.star (isNotChar DQ)
          (fun labelValue =>
             Regex.char (isChar DQ) (fun rest =>
               Some (name +++ "=" +++ str DQ +++ labelValue +++ str DQ,
                     name, labelValue, rest)))
          EmptyString)) r
  = match quotedValue r with
    | Some (value, rest) =>
        Some (name +++ "=" +++ str DQ +++ value +++ str DQ, name, value, rest)
    | None => None
    end.
Proof.
  destruct r as [|c1 [|c2 r2]]; cbn [Regex.char quotedValue]; try reflexivity.
  - destruct (isChar "=" c1); reflexivity.
  - destruct (isChar "=" c1); [|reflexivity].
    destruct (isChar DQ c2); [|reflexivity]. cbn [andb].
    destruct (span (isNotChar DQ) r2) as [value r3] eqn:S.
    apply span_spec in S as (-> & A & St).
    rewrite star_longest; try assumption.
    + destruct r3 as [|c r4]; [reflexivity|]. cbn [Regex.char append].
      cbn [stops] in St. rewrite isNotChar_isChar, negb_involutive in St.
      rewrite St. reflexivity.
    + intros a c s Hc. unfold Regex.char. rewrite isNotChar_isChar in Hc.
      apply negb_true_iff in Hc. rewrite Hc. reflexivity.
Qed.

Lemma labelRegex_run (name r : string) :
  truthy name = true -> all isWord name = true -> stops isWord r = true ->
  Client.labelRegex (name +++ r)
  = match quotedValue r with
    | Some (value, rest) =>
        Some (name +++ "=" +++ str DQ +++ value +++ str DQ, name, value, rest)
    | None => None
    end.
Proof.
  intros T A St. unfold Client.labelRegex.
  rewrite plus_longest; try assumption; [apply quotedValue_tail|].
  intros a c s Hc. unfold Regex.char. rewrite (word_not_equals c Hc). reflexivity.
Qed.

(** A run of word characters that no quoted text follows holds no start of
    a match. *)
Lemma search_skip_run (run r : string) :
  all isWord run = true -> stops isWord r = true -> quotedValue r = None ->
  Regex.search Client.labelRegex (run +++ r) = Regex.search Client.labelRegex r.
Proof.
  intros A St Q. induction run as [|c run IH]; [reflexivity|].
  pose proof A as A'. cbn [all] in A'. apply andb_true_iff in A' as [Hc Hrun].
  cbn [append]. rewrite search_next; [apply IH, Hrun|].
  change (String c (run +++ r)) with (String c run +++ r).
  rewrite labelRegex_run by (assumption || reflexivity). rewrite Q. reflexivity.
Qed.

Lemma quotedValue_shorter (r value rest : string) :
  quotedValue r = Some (value, rest) ->
  String.length rest < String.length r /\ all (isNotChar DQ) value = true.
Proof.
  destruct r as [|c1 [|c2 r2]]; cbn [quotedValue]; try discriminate.
  destruct (isChar "=" c1 && isChar DQ c2); [|discriminate].
  destruct (span (isNotChar DQ) r2) as [v r3] eqn:S.
  apply span_spec in S as (-> & A & _).
  destruct r3 as [|c r4]; [discriminate|]. intros H. injection H as <- <-.
  split; [|exact A]. cbn [String.length]. rewrite length_append. simpl. lia.
Qed.

Lemma pairsIn_word (fuel : nat) (c : ascii) (s : string) :
  isWord c = true ->
  pairsIn (S fuel) (String c s)
  = let (name, r) := span isWord (String c s) in
    match quotedValue r with
    | Some (value, r4) => Label.mk name value :: pairsIn fuel r4
    | None => pairsIn fuel r
    end.
Proof.
  intros H.
  change (pairsIn (S fuel) (String c s))
    with (if isWord c then
            let (name, r) := span isWord (String c s) in
            match quotedValue r with
            | Some (value, r4) => Label.mk name value :: pairsIn fuel r4
            | None => pairsIn fuel r
            end
          else pairsIn fuel s).
  rewrite H. reflexivity.
Qed.

Lemma pairsIn_other (fuel : nat) (c : ascii) (s : string) :
  isWord c = false -> pairsIn (S fuel) (String c s) = pairsIn fuel s.
Proof.
  intros H.
  change (pairsIn (S fuel) (String c s))
    with (if isWord c then
            let (name, r) := span isWord (String c s) in
            match quotedValue r with
            | Some (value, r4) => Label.mk name value :: pairsIn fuel r4
            | None => pairsIn fuel r
            end
          else pairsIn fuel s).
  rewrite H. reflexivity.
Qed.

(** The matches of the global label pattern are the pairs that the reading
    by longest runs finds, as they are written. *)
Lemma pairsIn_matchAll (n : nat) :
  forall (s : string) (f1 f2 : nat),
    String.length s <= n -> String.length s < f1 -> String.length s < f2 ->
    Client.matchAll f1 s = map renderLabel (pairsIn f2 s)
    /\ Forall (fun l => writtenLabel l = true) (pairsIn f2 s).
Proof.
  induction n as [n IH] using lt_wf_ind. intros s f1 f2 Hn H1 H2.
  destruct f1 as [|f1]; [lia|]. destruct f2 as [|f2]; [lia|].
  destruct s as [|c s']; [split; [reflexivity|constructor]|].
  cbn [String.length] in *.
  destruct (isWord c) eqn:W.
  - rewrite (pairsIn_word f2 c s' W).
    destruct (span isWord (String c s')) as [name r] eqn:S.
    apply span_spec in S as (E & A & St).
    assert (T : truthy name = true).
    { destruct name; [|reflexivity]. cbn [append] in E. subst r.
      cbn [stops] in St. rewrite W in St. discriminate St. }
    assert (L : String.length name + String.length r = S (String.length s')).
    { rewrite <- length_append, <- E. reflexivity. }
    assert (Ln : 0 < String.length name) by (destruct name; [discriminate T|simpl; lia]).
    rewrite E. cbn [Client.matchAll].
    destruct (quotedValue r) as [[value r4]|] eqn:Q.
    + pose proof (labelRegex_run name r T A St) as M. rewrite Q in M.
      rewrite (search_here _ _ _ M).
      apply quotedValue_shorter in Q as [L4 V].
      destruct (IH (String.length r4) ltac:(lia) r4 f1 f2) as [IH1 IH2]; try lia.
      rewrite IH1. split; [reflexivity|]. constructor; [|exact IH2].
      unfold writtenLabel, metricName. cbn [Label.name Label.value].
      rewrite T, A, V. reflexivity.
    + rewrite (search_skip_run name r A St Q).
      change (match Regex.search Client.labelRegex r with
              | Some (m, _, _, rest) => m :: Client.matchAll f1 rest
              | None => []
              end) with (Client.matchAll (S f1) r).
      apply (IH (String.length r)); lia.
  - rewrite (pairsIn_other f2 c s' W). cbn [Client.matchAll].
    rewrite search_next
      by (unfold Client.labelRegex; apply plus_head, W).
    change (match Regex.search Client.labelRegex s' with
            | Some (m, _, _, rest) => m :: Client.matchAll f1 rest
            | None => []
            end) with (Client.matchAll (S f1) s').
    apply (IH (String.length s')); lia.
Qed.

(** The labels built for a matched line with a label block. *)
Lemma labels_pairs (name block : string) :
  Client.labels name (Some block)
  = Label.mk "__name__" name :: filter nonEmptyValue (labelPairs block).
Proof.
  unfold Client.labels, Client.matchGlobal, labelPairs.
  destruct (pairsIn_matchAll (String.length block) block
              (S (String.length block)) (S (String.length block)))
    as [M F]; try lia.
  destruct (truthy block) eqn:T.
  - rewrite M.
    destruct (pairsIn (S (String.length block)) block) as [|l ls];
      [reflexivity|].
    change (map renderLabel (l :: ls)) with (renderLabel l :: map renderLabel ls).
    cbv iota beta.
    change (renderLabel l :: map renderLabel ls) with (map renderLabel (l :: ls)).
    rewrite fold_pushLabel_written by assumption. reflexivity.
  - destruct block; [reflexivity|discriminate T].
Qed.

Lemma renderLabel_inj (l1 l2 : Label.t) :
  writtenLabel l1 = true -> writtenLabel l2 = true ->
  renderLabel l1 = renderLabel l2 -> l1 = l2.
Proof.
  intros H1 H2 E.
  pose proof (labelRegex_written l1 EmptyString H1) as M1.
  pose proof (labelRegex_written l2 EmptyString H2) as M2.
  rewrite E, M2 in M1. injection M1 as En Ev.
  destruct l1, l2. simpl in *. congruence.
Qed.

Lemma map_renderLabel_inj (ls1 ls2 : list Label.t) :
  Forall (fun l => writtenLabel l = true) ls1 ->
  Forall (fun l => writtenLabel l = true) ls2 ->
  map renderLabel ls1 = map renderLabel ls2 -> ls1 = ls2.
Proof.
  intros H1. revert ls2. induction H1 as [|l1 ls1 Hl1 _ IH]; intros ls2 H2 E.
  - destruct ls2; [reflexivity|discriminate E].
  - destruct ls2 as [|l2 ls2]; [discriminate E|].
    inversion H2 as [|? ? Hl2 H2']; subst.
    injection E as E1 E2.
    rewrite (renderLabel_inj l1 l2 Hl1 Hl2 E1), (IH ls2 H2' E2). reflexivity.
Qed.

(** On a block that is a list of pairs joined by commas, the reading finds
    these pairs. *)
Lemma labelPairs_render (ls : list Label.t) :
  Forall (fun l => scrapable l = true) ls ->
  labelPairs ("{" +++ renderLabels ls +++ "}") = ls.
Proof.
  intros H. unfold labelPairs.
  set (block := "{" +++ renderLabels ls +++ "}").
  destruct (pairsIn_matchAll (String.length block) block
              (S (String.length block)) (S (String.length block)))
    as [M F]; try lia.
  apply map_renderLabel_inj; try assumption.
  - eapply Forall_impl; [|exact H]. intros l. apply scrapable_written.
  - rewrite <- M. unfold block. apply matchAll_block; [assumption|].
    simpl. rewrite length_append. pose proof (renderLabels_length ls). lia.
Qed.

(** C4, amended.  On every matched line with a label block, the labels of
    the produced TimeSeries are [__name__] followed by the label pairs read
    in the block whose value is not the empty string, in the order in which
    the block writes them; a pair with an empty value is left out, and no
    other pair is.  The pairs of a block are read by [labelPairs]; on a
    block that lists pairs between commas they are the pairs listed. *)
Theorem scraped_labels_in_order :
  forall (parseFloat : string -> number) (timestamp : Z)
         (line name block value : string),
    noLF line = true ->
    Client.lineRegex line = Some (name, Some block, value) ->
    Client.timeseries parseFloat timestamp line
    = [TimeSeries.mk
         (Label.mk "__name__" name :: filter nonEmptyValue (labelPairs block))
         [Sample.mk (parseFloat value) timestamp]]
    /\ (forall ls : list Label.t,
          Forall (fun l => scrapable l = true) ls ->
          block = "{" +++ renderLabels ls +++ "}" ->
          labelPairs block = ls).
Proof.
  intros pf ts line name block value Hl M. split.
  - rewrite timeseries_line by assumption.
    rewrite (pushSeries_matched pf ts line name (Some block) value M).
    rewrite labels_pairs. reflexivity.
  - intros ls Hls ->. apply labelPairs_render, Hls.
Qed.

(** ** Numbers *)

Section NumberFacts.
Local Open Scope Z_scope.

(** The pattern of a non-zero integer below [2^53]: sign, exponent, fraction. *)
Lemma ofInteger_fields (z : Z) :
  z <> 0 -> Z.abs z < 2 ^ 53 ->
  let e := Z.log2 (Z.abs z) in
  let m := Z.abs z * 2 ^ (52 - e) - 2 ^ 52 in
  0 <= e <= 52 /\ 0 <= m < 2 ^ 52
  /\ Number.ofInteger z = (if z <? 0 then 2 ^ 63 else 0) + (e + 1023) * 2 ^ 52 + m.
Proof.
  intros Hz Hlt e m.
  assert (Ha : 0 < Z.abs z) by lia.
  pose proof (Z.log2_spec (Z.abs z) Ha) as [Hlo Hhi]. fold e in Hlo, Hhi.
  assert (He0 : 0 <= e) by apply Z.log2_nonneg.
  assert (He : e <= 52).
  { destruct (Z_le_gt_dec e 52) as [|G]; [assumption|exfalso].
    assert (2 ^ 53 <= 2 ^ e) by (apply Z.pow_le_mono_r; lia). lia. }
  assert (Hp : 2 ^ e * 2 ^ (52 - e) = 2 ^ 52).
  { rewrite <- Z.pow_add_r by lia. f_equal. lia. }
  assert (Hq : 0 < 2 ^ (52 - e)) by (apply Z.pow_pos_nonneg; lia).
  assert (Hs : 2 ^ Z.succ e = 2 * 2 ^ e) by (rewrite Z.pow_succ_r; lia).
  repeat split; try assumption.
  - subst m. nia.
  - subst m. nia.
  - unfold Number.ofInteger. fold e.
    destruct (Z.eqb_spec z 0); [contradiction|].
    destruct (Z.leb_spec e 52); [reflexivity|lia].
Qed.

Lemma pattern_fields (s e m : Z) :
  (s = 0 \/ s = 1) -> 0 <= e < 2 ^ 11 -> 0 <= m < 2 ^ 52 ->
  let x := s * 2 ^ 63 + e * 2 ^ 52 + m in
  Number.exponent x = e /\ Number.fraction x = m
  /\ Number.negative x = (s =? 1).
Proof.
  intros Hs He Hm x. unfold Number.exponent, Number.fraction, Number.negative.
  assert (D : x / 2 ^ 52 = s * 2 ^ 11 + e).
  { symmetry. apply (Z.div_unique_pos x (2 ^ 52) (s * 2 ^ 11 + e) m); [lia|].
    subst x. change (2 ^ 63) with (2 ^ 52 * 2 ^ 11). ring. }
  repeat split.
  - rewrite D. symmetry. apply (Z.mod_unique_pos _ _ s); [lia|ring].
  - symmetry. apply (Z.mod_unique_pos _ _ (s * 2 ^ 11 + e)); [lia|].
    subst x. change (2 ^ 63) with (2 ^ 52 * 2 ^ 11). ring.
  - assert (R : x mod 2 ^ 64 = x).
    { apply Z.mod_small. subst x. destruct Hs; subst s; lia. }
    rewrite R. subst x. destruct Hs; subst s; simpl (_ =? _).
    + apply Z.leb_gt. lia.
    + apply Z.leb_le. lia.
Qed.

Lemma ofInteger_pattern (z : Z) :
  z <> 0 -> Z.abs z < 2 ^ 53 ->
  let e := Z.log2 (Z.abs z) in
  let m := Z.abs z * 2 ^ (52 - e) - 2 ^ 52 in
  0 <= e <= 52 /\ 0 <= m < 2 ^ 52
  /\ Number.exponent (Number.ofInteger z) = e + 1023
  /\ Number.fraction (Number.ofInteger z) = m
  /\ Number.negative (Number.ofInteger z) = (z <? 0).
Proof.
  intros Hz Hlt e m.
  destruct (ofInteger_fields z Hz Hlt) as (He & Hm & E). fold e m in He, Hm, E.
  pose proof (pattern_fields (if z <? 0 then 1 else 0) (e + 1023) m) as P.
  cbv zeta in P.
  assert (X : (if z <? 0 then 1 else 0) * 2 ^ 63 + (e + 1023) * 2 ^ 52 + m
              = Number.ofInteger z).
  { rewrite E. destruct (z <? 0); ring. }
  rewrite X in P.
  destruct P as (P1 & P2 & P3); try lia.
  { destruct (z <? 0); auto. }
  repeat split; try lia; try assumption.
  rewrite P3. destruct (z <? 0); reflexivity.
Qed.

(** The number of an integer is integral, and holds that integer. *)
Lemma isInteger_ofInteger (z : Z) :
  Z.abs z < 2 ^ 53 -> Number.isInteger (Number.ofInteger z) = true.
Proof.
  intros Hlt. destruct (Z.eq_dec z 0) as [->|Hz]; [reflexivity|].
  destruct (ofInteger_pattern z Hz Hlt) as (He & Hm & E1 & E2 & _).
  set (e := Z.log2 (Z.abs z)) in *.
  set (m := Z.abs z * 2 ^ (52 - e) - 2 ^ 52) in *.
  unfold Number.isInteger. rewrite E1, E2.
  destruct (Z.eqb_spec (e + 1023) 2047); [lia|].
  destruct (Z.eqb_spec (e + 1023) 0); [lia|].
  destruct (Z.leb_spec 1075 (e + 1023)); [reflexivity|].
  destruct (Z.ltb_spec (e + 1023) 1023); [lia|].
  apply Z.eqb_eq. replace (1075 - (e + 1023)) with (52 - e) by lia.
  replace (2 ^ 52 + m) with (Z.abs z * 2 ^ (52 - e)) by (subst m; lia).
  apply Z.mod_mul. apply Z.pow_nonzero; lia.
Qed.

Lemma toInteger_ofInteger (z : Z) :
  Z.abs z < 2 ^ 53 -> Number.toInteger (Number.ofInteger z) = z.
Proof.
  intros Hlt. destruct (Z.eq_dec z 0) as [->|Hz]; [reflexivity|].
  destruct (ofInteger_pattern z Hz Hlt) as (He & Hm & E1 & E2 & E3).
  set (e := Z.log2 (Z.abs z)) in *.
  set (m := Z.abs z * 2 ^ (52 - e) - 2 ^ 52) in *.
  unfold Number.toInteger. rewrite E1, E2, E3.
  destruct (Z.eqb_spec (e + 1023) 0); [lia|].
  assert (A : (if 1075 <=? e + 1023
               then (2 ^ 52 + m) * 2 ^ (e + 1023 - 1075)
               else (2 ^ 52 + m) / 2 ^ (1075 - (e + 1023))) = Z.abs z).
  { replace (2 ^ 52 + m) with (Z.abs z * 2 ^ (52 - e)) by (subst m; lia).
    destruct (Z.leb_spec 1075 (e + 1023)).
    - replace e with 52 by lia. simpl. lia.
    - replace (1075 - (e + 1023)) with (52 - e) by lia.
      apply Z.div_mul. apply Z.pow_nonzero; lia. }
  rewrite A. destruct (Z.ltb_spec z 0); lia.
Qed.

(** An integer from [2^53] on, whatever a number keeps of it, is held by
    an integral number. *)
Lemma isInteger_ofInteger_large (z : Z) :
  2 ^ 53 <= Z.abs z <= 2 ^ 63 -> Number.isInteger (Number.ofInteger z) = true.
Proof.
  intros Hz. set (a := Z.abs z) in *. set (e := Z.log2 a).
  assert (Ha : 0 < a) by lia.
  pose proof (Z.log2_spec a Ha) as [Hlo Hhi]. fold e in Hlo, Hhi.
  assert (He53 : 53 <= e).
  { apply Z.log2_le_pow2; lia. }
  assert (He63 : e <= 63).
  { destruct (Z_le_gt_dec e 63) as [|G]; [assumption|exfalso].
    assert (2 ^ 64 <= 2 ^ e) by (apply Z.pow_le_mono_r; lia). lia. }
  set (d := 2 ^ (e - 52)).
  assert (Hd : 0 < d) by (apply Z.pow_pos_nonneg; lia).
  assert (Hp : 2 ^ e = 2 ^ 52 * d).
  { unfold d. rewrite <- Z.pow_add_r by lia. f_equal. lia. }
  assert (Hs : 2 ^ Z.succ e = 2 ^ 53 * d).
  { rewrite Z.pow_succ_r by lia. rewrite Hp. change (2 ^ 53) with (2 * 2 ^ 52). ring. }
  set (m := a / d - 2 ^ 52).
  assert (Hm : 0 <= m < 2 ^ 52).
  { unfold m. split.
    - assert (2 ^ 52 <= a / d) by (apply Z.div_le_lower_bound; lia). lia.
    - assert (a / d < 2 ^ 53) by (apply Z.div_lt_upper_bound; lia).
      change (2 ^ 53) with (2 ^ 52 + 2 ^ 52) in *. lia. }
  assert (E : Number.ofInteger z
              = (if z <? 0 then 1 else 0) * 2 ^ 63 + (e + 1023) * 2 ^ 52 + m).
  { unfold Number.ofInteger. fold a e.
    destruct (Z.eqb_spec z 0); [lia|].
    destruct (Z.leb_spec e 52); [lia|]. fold d m.
    destruct (z <? 0); lia. }
  pose proof (pattern_fields (if z <? 0 then 1 else 0) (e + 1023) m) as P.
  cbv zeta in P. rewrite <- E in P.
  destruct P as (P1 & P2 & _); try lia.
  { destruct (z <? 0); auto. }
  unfold Number.isInteger. rewrite P1.
  destruct (Z.eqb_spec (e + 1023) 2047); [lia|].
  destruct (Z.eqb_spec (e + 1023) 0); [lia|].
  destruct (Z.leb_spec 1075 (e + 1023)); [reflexivity|lia].
Qed.

Lemma isInteger_int64 (z : Z) :
  - 2 ^ 63 <= z < 2 ^ 63 -> Number.isInteger (Number.ofInteger z) = true.
Proof.
  intros Hz. destruct (Z_lt_ge_dec (Z.abs z) (2 ^ 53)).
  - apply isInteger_ofInteger. assumption.
  - apply isInteger_ofInteger_large. lia.
Qed.

End NumberFacts.

(** ** The wire format: what is written is read back *)

Section WireFacts.
Local Open Scope Z_scope.
Import Protobuf.

Lemma Z_of_byte_of_Z (z : Z) : Z_of_byte (byte_of_Z z) = z mod 256.
Proof.
  unfold Z_of_byte, byte_of_Z.
  assert (B : 0 <= z mod 256 < 256) by (apply Z.mod_pos_bound; lia).
  destruct (Byte.of_N (Z.to_N (z mod 256))) as [b|] eqn:E.
  - apply Byte.to_of_N in E. rewrite E. lia.
  - apply Byte.of_N_None_iff in E. lia.
Qed.

Lemma len_app {A : Type} (a b : list A) : len (a ++ b) = len a + len b.
Proof. unfold len. rewrite length_app. lia. Qed.

Lemma len_nonneg {A : Type} (a : list A) : 0 <= len a.
Proof. unfold len. lia. Qed.

Lemma writer_varint_S (fuel : nat) (n : Z) :
  Writer.varint (S fuel) n
  = if n <? 128 then [byte_of_Z n]
    else byte_of_Z (n mod 128 + 128) :: Writer.varint fuel (n / 128).
Proof. reflexivity. Qed.

Lemma varint_read (fuel extra : nat) (n : Z) (rest : list byte) :
  0 <= n < 128 ^ Z.of_nat (S fuel) ->
  Reader.varint (S fuel + extra) (Writer.varint (S fuel) n ++ rest)
  = Some (n, rest).
Proof.
  revert n. induction fuel as [|fuel IH]; intros n Hn.
  - change (128 ^ Z.of_nat 1) with 128 in Hn.
    cbn [Writer.varint]. destruct (Z.ltb_spec n 128); [|lia].
    cbn [app Nat.add Reader.varint]. rewrite Z_of_byte_of_Z, Z.mod_small by lia.
    destruct (Z.ltb_spec n 128); [reflexivity|lia].
  - rewrite (writer_varint_S (S fuel)). destruct (Z.ltb_spec n 128).
    + cbn [app Nat.add Reader.varint]. rewrite Z_of_byte_of_Z, Z.mod_small by lia.
      destruct (Z.ltb_spec n 128); [reflexivity|lia].
    + change (S (S fuel) + extra)%nat with (S (S fuel + extra)).
      cbn [app Reader.varint]. rewrite Z_of_byte_of_Z.
      assert (M : 0 <= n mod 128 < 128) by (apply Z.mod_pos_bound; lia).
      rewrite (Z.mod_small (n mod 128 + 128)) by lia.
      destruct (Z.ltb_spec (n mod 128 + 128) 128); [lia|].
      rewrite IH.
      * f_equal. f_equal. pose proof (Z.div_mod n 128 ltac:(lia)). lia.
      * replace (Z.of_nat (S (S fuel))) with (Z.succ (Z.of_nat (S fuel))) in Hn by lia.
        rewrite Z.pow_succ_r in Hn by lia.
        split; [apply Z.div_pos; lia|].
        apply Z.div_lt_upper_bound; lia.
Qed.

Lemma uint32_read (v : Z) (rest : list byte) :
  0 <= v < 2 ^ 32 ->
  Reader.uint32 (Writer.uint32 v ++ rest) = Some (v, rest).
Proof.
  intros Hv. unfold Reader.uint32, Writer.uint32.
  rewrite (Z.mod_small v) by lia.
  change (Reader.varint 10) with (Reader.varint (5 + 5)).
  rewrite (varint_read 4 5 v rest); [rewrite Z.mod_small by lia; reflexivity|].
  change (128 ^ Z.of_nat 5) with (2 ^ 35). lia.
Qed.

Lemma int64_read (z : Z) (rest : list byte) :
  - 2 ^ 63 <= z < 2 ^ 63 ->
  Reader.int64 (Writer.int64 (z mod 2 ^ 64) ++ rest) = Some (z, rest).
Proof.
  intros Hz. unfold Reader.int64, Writer.int64.
  assert (B : 0 <= z mod 2 ^ 64 < 2 ^ 64) by (apply Z.mod_pos_bound; lia).
  rewrite Z.mod_mod by lia.
  change (Reader.varint 10) with (Reader.varint (10 + 0)).
  rewrite (varint_read 9 0 (z mod 2 ^ 64) rest).
  - rewrite Z.mod_mod by lia. f_equal. f_equal.
    destruct (Z.leb_spec (2 ^ 63) (z mod 2 ^ 64)) as [G|G].
    + assert (z < 0).
      { destruct (Z_lt_ge_dec z 0); [assumption|].
        rewrite Z.mod_small in G; lia. }
      assert (E : z mod 2 ^ 64 = z + 2 ^ 64).
      { symmetry. apply (Z.mod_unique_pos _ _ (-1)); lia. }
      lia.
    + destruct (Z_lt_ge_dec z 0) as [L|L].
      * assert (E : z mod 2 ^ 64 = z + 2 ^ 64).
        { symmetry. apply (Z.mod_unique_pos _ _ (-1)); lia. }
        lia.
      * apply Z.mod_small. lia.
  - change (128 ^ Z.of_nat 10) with (2 ^ 70). lia.
Qed.

Lemma littleEndian_read (n : nat) (x : Z) (rest : list byte) :
  0 <= x < 256 ^ Z.of_nat n ->
  Reader.littleEndian n (Writer.littleEndian n x ++ rest) = Some (x, rest).
Proof.
  revert x. induction n as [|n IH]; intros x Hx.
  - change (256 ^ Z.of_nat 0) with 1 in Hx. simpl. f_equal. f_equal. lia.
  - cbn [Writer.littleEndian app Reader.littleEndian].
    replace (Z.of_nat (S n)) with (Z.succ (Z.of_nat n)) in Hx by lia.
    rewrite Z.pow_succ_r in Hx by lia.
    rewrite IH.
    + rewrite Z_of_byte_of_Z, Z.mod_mod by lia. f_equal. f_equal.
      pose proof (Z.div_mod x 256 ltac:(lia)). lia.
    + split; [apply Z.div_pos; lia|]. apply Z.div_lt_upper_bound; lia.
Qed.

Lemma double_read (x : number) (rest : list byte) :
  0 <= x < 2 ^ 64 ->
  Reader.double (Writer.double x ++ rest) = Some (x, rest).
Proof.
  intros Hx. unfold Reader.double, Writer.double.
  rewrite Z.mod_small by lia. apply littleEndian_read.
  change (256 ^ Z.of_nat 8) with (2 ^ 64). exact Hx.
Qed.

Lemma take_read (b rest : list byte) :
  Reader.take (len b) (b ++ rest) = Some (b, rest).
Proof.
  unfold Reader.take. rewrite len_app.
  pose proof (len_nonneg rest).
  destruct (Z.leb_spec (len b) (len b + len rest)); [|lia].
  unfold len. rewrite Nat2Z.id.
  rewrite firstn_app, skipn_app, Nat.sub_diag, firstn_all, skipn_all.
  simpl. rewrite app_nil_r. reflexivity.
Qed.

Lemma bytes_read (b rest : list byte) :
  len b < 2 ^ 32 ->
  Reader.bytes (Writer.ldelim b ++ rest) = Some (b, rest).
Proof.
  intros Hb. unfold Reader.bytes, Writer.ldelim. rewrite <- app_assoc.
  rewrite uint32_read by (pose proof (len_nonneg b); lia).
  apply take_read.
Qed.

Lemma string_read (s : string) (rest : list byte) :
  len (list_byte_of_string s) < 2 ^ 32 ->
  Reader.string (Writer.string s ++ rest) = Some (s, rest).
Proof.
  intros Hs. unfold Reader.string.
  change (Writer.string s) with (Writer.ldelim (list_byte_of_string s)).
  rewrite bytes_read by assumption.
  rewrite string_of_list_byte_of_string. reflexivity.
Qed.

Lemma nested_read {A : Type} (decode : list byte -> option A)
  (body rest : list byte) (a : A) :
  len body < 2 ^ 32 -> decode body = Some a ->
  nested decode (Writer.ldelim body ++ rest) = Some (a, rest).
Proof.
  intros Hb Hd. unfold nested. rewrite bytes_read by assumption.
  rewrite Hd. reflexivity.
Qed.

End WireFacts.

(** ** The messages: what is encoded is decoded back *)

Section MessageFacts.
Local Open Scope Z_scope.
Import Protobuf.

Lemma small_app_l (a b : list byte) : small (a ++ b) -> small a.
Proof. unfold small. rewrite len_app. pose proof (len_nonneg b). lia. Qed.

Lemma small_app_r (a b : list byte) : small (a ++ b) -> small b.
Proof. unfold small. rewrite len_app. pose proof (len_nonneg a). lia. Qed.

Lemma tag_read (t : Z) (rest : list byte) :
  0 <= t < 2 ^ 32 -> Reader.uint32 (Writer.uint32 t ++ rest) = Some (t, rest).
Proof. apply uint32_read. Qed.

(** *** Label *)

Lemma Label_encode_label (l : Label.t) :
  Label_encode (JS.label l)
  = Writer.uint32 10 ++ Writer.string (Label.name l)
    ++ Writer.uint32 18 ++ Writer.string (Label.value l).
Proof. destruct l. reflexivity. Qed.

Lemma Label_fields_step (fuel : nat) (b : byte) (buf : list byte) (m : Label.t) :
  Label_fields (S fuel) (b :: buf) m
  = match Reader.uint32 (b :: buf) with
    | Some (tag, buf1) =>
        match tag / 8 with
        | 1 =>
            match Reader.string buf1 with
            | Some (s, buf2) => Label_fields fuel buf2 (Label.mk s (Label.value m))
            | None => None
            end
        | 2 =>
            match Reader.string buf1 with
            | Some (s, buf2) => Label_fields fuel buf2 (Label.mk (Label.name m) s)
            | None => None
            end
        | _ =>
            match Reader.skipType (tag mod 8) buf1 with
            | Some buf2 => Label_fields fuel buf2 m
            | None => None
            end
        end
    | None => None
    end.
Proof. reflexivity. Qed.

Lemma Label_roundtrip (l : Label.t) (fuel : nat) :
  small (Label_encode (JS.label l)) ->
  Label_fields (S (S fuel)) (Label_encode (JS.label l))
    (Label.mk EmptyString EmptyString)
  = Some l.
Proof.
  rewrite Label_encode_label. intros Hs.
  assert (H1 : small (list_byte_of_string (Label.name l))).
  { apply small_app_r in Hs. apply small_app_l in Hs.
    unfold Writer.string in Hs. apply small_app_r in Hs. exact Hs. }
  assert (H2 : small (list_byte_of_string (Label.value l))).
  { do 3 apply small_app_r in Hs.
    unfold Writer.string in Hs. apply small_app_r in Hs. exact Hs. }
  change (Writer.uint32 10 ++ ?x) with (x0a :: x).
  rewrite Label_fields_step.
  change (x0a :: ?x) with (Writer.uint32 10 ++ x).
  rewrite tag_read by lia. change (10 / 8) with 1. cbv iota.
  rewrite string_read by exact H1.
  change (Writer.uint32 18 ++ ?x) with (x12 :: x).
  rewrite Label_fields_step.
  change (x12 :: ?x) with (Writer.uint32 18 ++ x).
  rewrite tag_read by lia. change (18 / 8) with 2. cbv iota.
  rewrite <- (app_nil_r (Writer.string (Label.value l))).
  rewrite string_read by exact H2.
  destruct l, fuel; reflexivity.
Qed.

Lemma length_ge_2 (a b c d : list byte) (x y : byte) :
  exists fuel, List.length ((x :: a) ++ b ++ (y :: c) ++ d) = S (S fuel).
Proof.
  exists (List.length a + List.length b + List.length c + List.length d)%nat.
  repeat (rewrite ?length_app; simpl). lia.
Qed.

Lemma Label_decode_encode (l : Label.t) :
  small (Label_encode (JS.label l)) ->
  Label_decode (Label_encode (JS.label l)) = Some l.
Proof.
  intros Hs. unfold Label_decode.
  assert (E : exists fuel,
             List.length (Label_encode (JS.label l)) = S (S fuel)).
  { rewrite Label_encode_label.
    change (Writer.uint32 10) with [x0a]. change (Writer.uint32 18) with [x12].
    apply (length_ge_2 [] _ [] _ x0a x12). }
  destruct E as [fuel E]. rewrite E. apply Label_roundtrip, Hs.
Qed.

(** *** Sample *)

Lemma Sample_encode_sample (s : Sample.t) :
  Sample_encode (JS.sample s)
  = Writer.uint32 9 ++ Writer.double (Sample.value s)
    ++ Writer.uint32 16
    ++ Writer.int64
         (Number.toInteger (Number.ofInteger (Sample.timestamp s)) mod 2 ^ 64).
Proof. destruct s. reflexivity. Qed.

Lemma Sample_fields_step (fuel : nat) (b : byte) (buf : list byte) (m : Sample.t) :
  Sample_fields (S fuel) (b :: buf) m
  = match Reader.uint32 (b :: buf) with
    | Some (tag, buf1) =>
        match tag / 8 with
        | 1 =>
            match Reader.double buf1 with
            | Some (x, buf2) => Sample_fields fuel buf2 (Sample.mk x (Sample.timestamp m))
            | None => None
            end
        | 2 =>
            match Reader.int64 buf1 with
            | Some (t, buf2) => Sample_fields fuel buf2 (Sample.mk (Sample.value m) t)
            | None => None
            end
        | _ =>
            match Reader.skipType (tag mod 8) buf1 with
            | Some buf2 => Sample_fields fuel buf2 m
            | None => None
            end
        end
    | None => None
    end.
Proof. reflexivity. Qed.

Lemma Sample_roundtrip (s : Sample.t) (fuel : nat) :
  wireSample s ->
  Sample_fields (S (S fuel)) (Sample_encode (JS.sample s)) (Sample.mk 0 0)
  = Some s.
Proof.
  rewrite Sample_encode_sample. intros [Hv [Hr He]]. rewrite He.
  change (Writer.uint32 9 ++ ?x) with (x09 :: x).
  rewrite Sample_fields_step.
  change (x09 :: ?x) with (Writer.uint32 9 ++ x).
  rewrite tag_read by lia. change (9 / 8) with 1. cbv iota.
  rewrite double_read by exact Hv.
  change (Writer.uint32 16 ++ ?x) with (x10 :: x).
  rewrite Sample_fields_step.
  change (x10 :: ?x) with (Writer.uint32 16 ++ x).
  rewrite tag_read by lia. change (16 / 8) with 2. cbv iota.
  rewrite <- (app_nil_r (Writer.int64 _)).
  rewrite int64_read by lia.
  destruct s, fuel; reflexivity.
Qed.

Lemma Sample_decode_encode (s : Sample.t) :
  wireSample s ->
  Sample_decode (Sample_encode (JS.sample s)) = Some s.
Proof.
  intros Hs. unfold Sample_decode.
  assert (E : exists fuel,
             List.length (Sample_encode (JS.sample s)) = S (S fuel)).
  { rewrite Sample_encode_sample.
    change (Writer.uint32 9) with [x09]. change (Writer.uint32 16) with [x10].
    apply (length_ge_2 [] _ [] _ x09 x10). }
  destruct E as [fuel E]. rewrite E. apply Sample_roundtrip, Hs.
Qed.

(** *** Repeated fields *)

Lemma flat_map_map {A B C : Type} (f : B -> list C) (g : A -> B) (l : list A) :
  flat_map f (map g l) = flat_map (fun x => f (g x)) l.
Proof. induction l as [|x l IH]; simpl; [reflexivity | rewrite IH; reflexivity]. Qed.

Lemma small_flat_map {A : Type} (f : A -> list byte) (l : list A) :
  small (flat_map f l) -> Forall (fun x => small (f x)) l.
Proof.
  induction l as [|x l IH]; simpl; intros H; constructor.
  - apply small_app_l in H. exact H.
  - apply IH. apply small_app_r in H. exact H.
Qed.

Lemma length_flat_map_ge {A : Type} (f : A -> list byte) (l : list A) :
  (forall x, (1 <= List.length (f x))%nat) ->
  (List.length l <= List.length (flat_map f l))%nat.
Proof.
  intros Hf. induction l as [|x l IH]; simpl; [lia|].
  rewrite length_app. specialize (Hf x). lia.
Qed.

Lemma varint_length (fuel : nat) (n : Z) :
  (List.length (Writer.varint fuel n) <= fuel)%nat.
Proof.
  revert n. induction fuel as [|fuel IH]; intros n; [simpl; lia|].
  rewrite writer_varint_S. destruct (n <? 128); simpl; [lia|].
  specialize (IH (n / 128)). lia.
Qed.

Lemma littleEndian_length (n : nat) (x : Z) :
  List.length (Writer.littleEndian n x) = n.
Proof. revert x. induction n as [|n IH]; intros x; simpl; [|rewrite IH]; reflexivity. Qed.

Lemma Sample_small (s : Sample.t) : small (Sample_encode (JS.sample s)).
Proof.
  rewrite Sample_encode_sample. unfold small, len, Writer.double, Writer.int64.
  change (Writer.uint32 9) with [x09]. change (Writer.uint32 16) with [x10].
  rewrite !length_app, littleEndian_length.
  match goal with |- context [Writer.varint 10 ?n] =>
    pose proof (varint_length 10 n) end.
  cbn [List.length]. lia.
Qed.

Lemma TimeSeries_encode_series (t : TimeSeries.t) :
  TimeSeries_encode (JS.series t)
  = flat_map labelField (TimeSeries.labels t)
    ++ flat_map sampleField (TimeSeries.samples t).
Proof.
  destruct t as [ls ss]. unfold TimeSeries_encode, JS.series.
  cbn [JS.field JS.lookup String.eqb Ascii.eqb Bool.eqb JS.notNullish
       writeRepeated TimeSeries.labels TimeSeries.samples].
  rewrite !flat_map_map. reflexivity.
Qed.

Lemma TimeSeries_fields_step (fuel : nat) (b : byte) (buf : list byte)
  (m : TimeSeries.t) :
  TimeSeries_fields (S fuel) (b :: buf) m
  = match Reader.uint32 (b :: buf) with
    | Some (tag, buf1) =>
        match tag / 8 with
        | 1 =>
            match nested Label_decode buf1 with
            | Some (l, buf2) =>
                TimeSeries_fields fuel buf2
                  (TimeSeries.mk (TimeSeries.labels m ++ [l]) (TimeSeries.samples m))
            | None => None
            end
        | 2 =>
            match nested Sample_decode buf1 with
            | Some (s, buf2) =>
                TimeSeries_fields fuel buf2
                  (TimeSeries.mk (TimeSeries.labels m) (TimeSeries.samples m ++ [s]))
            | None => None
            end
        | _ =>
            match Reader.skipType (tag mod 8) buf1 with
            | Some buf2 => TimeSeries_fields fuel buf2 m
            | None => None
            end
        end
    | None => None
    end.
Proof. reflexivity. Qed.

Lemma TimeSeries_fields_labels (ls : list Label.t) (fuel : nat)
  (rest : list byte) (m : TimeSeries.t) :
  Forall (fun l => small (Label_encode (JS.label l))) ls ->
  TimeSeries_fields (List.length ls + fuel) (flat_map labelField ls ++ rest) m
  = TimeSeries_fields fuel rest
      (TimeSeries.mk (TimeSeries.labels m ++ ls) (TimeSeries.samples m)).
Proof.
  revert m. induction ls as [|l ls IH]; intros m H.
  - simpl. rewrite app_nil_r. destruct m. reflexivity.
  - inversion H as [|? ? Hl Hls]; subst.
    cbn [flat_map List.length Nat.add]. unfold labelField at 1.
    rewrite <- !app_assoc.
    change (Writer.uint32 10 ++ ?x) with (x0a :: x).
    rewrite TimeSeries_fields_step.
    change (x0a :: ?x) with (Writer.uint32 10 ++ x).
    rewrite tag_read by lia. change (10 / 8) with 1. cbv iota.
    rewrite (nested_read Label_decode _ _ l Hl (Label_decode_encode l Hl)).
    rewrite (IH _ Hls). cbn [TimeSeries.labels TimeSeries.samples].
    rewrite <- app_assoc. reflexivity.
Qed.

Lemma TimeSeries_fields_samples (ss : list Sample.t) (fuel : nat)
  (rest : list byte) (m : TimeSeries.t) :
  Forall wireSample ss ->
  TimeSeries_fields (List.length ss + fuel) (flat_map sampleField ss ++ rest) m
  = TimeSeries_fields fuel rest
      (TimeSeries.mk (TimeSeries.labels m) (TimeSeries.samples m ++ ss)).
Proof.
  revert m. induction ss as [|s ss IH]; intros m H.
  - simpl. rewrite app_nil_r. destruct m. reflexivity.
  - inversion H as [|? ? Hs Hss]; subst.
    cbn [flat_map List.length Nat.add]. unfold sampleField at 1.
    rewrite <- !app_assoc.
    change (Writer.uint32 18 ++ ?x) with (x12 :: x).
    rewrite TimeSeries_fields_step.
    change (x12 :: ?x) with (Writer.uint32 18 ++ x).
    rewrite tag_read by lia. change (18 / 8) with 2. cbv iota.
    rewrite (nested_read Sample_decode _ _ s (Sample_small s)
               (Sample_decode_encode s Hs)).
    rewrite (IH _ Hss). cbn [TimeSeries.labels TimeSeries.samples].
    rewrite <- app_assoc. reflexivity.
Qed.

Lemma field_nonempty (tag : Z) (body : list byte) :
  (1 <= List.length (Writer.uint32 tag ++ Writer.ldelim body))%nat.
Proof.
  unfold Writer.uint32. change 5%nat with (S 4). rewrite writer_varint_S.
  destruct (_ <? 128); simpl; lia.
Qed.

Lemma TimeSeries_decode_encode (t : TimeSeries.t) :
  small (TimeSeries_encode (JS.series t)) -> wireSeries t ->
  TimeSeries_decode (TimeSeries_encode (JS.series t)) = Some t.
Proof.
  rewrite TimeSeries_encode_series. intros Hs Hv. unfold TimeSeries_decode.
  destruct t as [ls ss]. cbn [TimeSeries.labels TimeSeries.samples] in *.
  assert (Hl : Forall (fun l => small (Label_encode (JS.label l))) ls).
  { apply small_app_l, small_flat_map in Hs.
    eapply Forall_impl; [|exact Hs]. intros l H. unfold labelField in H.
    apply small_app_r in H. unfold Writer.ldelim in H.
    apply small_app_r in H. exact H. }
  assert (L : exists extra,
             List.length (flat_map labelField ls ++ flat_map sampleField ss)
             = (List.length ls + (List.length ss + extra))%nat).
  { exists (List.length (flat_map labelField ls ++ flat_map sampleField ss)
            - List.length ls - List.length ss)%nat.
    rewrite length_app.
    pose proof (length_flat_map_ge labelField ls (fun l => field_nonempty _ _)).
    pose proof (length_flat_map_ge sampleField ss (fun s => field_nonempty _ _)).
    lia. }
  destruct L as [extra L]. rewrite L.
  rewrite (TimeSeries_fields_labels ls _ _ _ Hl).
  rewrite <- (app_nil_r (flat_map sampleField ss)).
  rewrite (TimeSeries_fields_samples ss _ _ _ Hv).
  destruct extra; reflexivity.
Qed.

(** *** WriteRequest *)

Lemma WriteRequest_encode_request (w : list TimeSeries.t) :
  WriteRequest_encode (WriteRequest_create (JS.writeRequest w))
  = flat_map seriesField w.
Proof.
  unfold WriteRequest_encode, WriteRequest_create, JS.writeRequest.
  cbn [filter snd JS.notNullish app JS.field JS.lookup String.eqb Ascii.eqb
       Bool.eqb writeRepeated].
  rewrite flat_map_map. reflexivity.
Qed.

Lemma WriteRequest_fields_step (fuel : nat) (b : byte) (buf : list byte)
  (m : WriteRequest.t) :
  WriteRequest_fields (S fuel) (b :: buf) m
  = match Reader.uint32 (b :: buf) with
    | Some (tag, buf1) =>
        match tag / 8 with
        | 1 =>
            match nested TimeSeries_decode buf1 with
            | Some (t, buf2) =>
                WriteRequest_fields fuel buf2
                  (WriteRequest.mk (WriteRequest.timeseries m ++ [t]))
            | None => None
            end
        | _ =>
            match Reader.skipType (tag mod 8) buf1 with
            | Some buf2 => WriteRequest_fields fuel buf2 m
            | None => None
            end
        end
    | None => None
    end.
Proof. reflexivity. Qed.

Lemma WriteRequest_fields_series (w : list TimeSeries.t) (fuel : nat)
  (rest : list byte) (m : WriteRequest.t) :
  Forall (fun t => small (TimeSeries_encode (JS.series t))) w ->
  Forall wireSeries w ->
  WriteRequest_fields (List.length w + fuel) (flat_map seriesField w ++ rest) m
  = WriteRequest_fields fuel rest
      (WriteRequest.mk (WriteRequest.timeseries m ++ w)).
Proof.
  revert m. induction w as [|t w IH]; intros m H V.
  - simpl. rewrite app_nil_r. destruct m. reflexivity.
  - inversion H as [|? ? Ht Hw]; subst. inversion V as [|? ? Vt Vw]; subst.
    cbn [flat_map List.length Nat.add]. unfold seriesField at 1.
    rewrite <- !app_assoc.
    change (Writer.uint32 10 ++ ?x) with (x0a :: x).
    rewrite WriteRequest_fields_step.
    change (x0a :: ?x) with (Writer.uint32 10 ++ x).
    rewrite tag_read by lia. change (10 / 8) with 1. cbv iota.
    rewrite (nested_read TimeSeries_decode _ _ t Ht (TimeSeries_decode_encode t Ht Vt)).
    rewrite (IH _ Hw Vw). cbn [WriteRequest.timeseries].
    rewrite <- app_assoc. reflexivity.
Qed.

(** The serialized request decodes to the request. *)
Lemma WriteRequest_decode_encode (w : list TimeSeries.t) :
  Forall wireSeries w -> encodedSize w < 2 ^ 32 ->
  WriteRequest_decode
    (WriteRequest_encode (WriteRequest_create (JS.writeRequest w)))
  = Some (WriteRequest.mk w).
Proof.
  unfold encodedSize. rewrite WriteRequest_encode_request. intros V Hs.
  fold (small (flat_map seriesField w)) in Hs.
  assert (H : Forall (fun t => small (TimeSeries_encode (JS.series t))) w).
  { apply small_flat_map in Hs. eapply Forall_impl; [|exact Hs].
    intros t Ht. unfold seriesField in Ht. apply small_app_r in Ht.
    unfold Writer.ldelim in Ht. apply small_app_r in Ht. exact Ht. }
  unfold WriteRequest_decode.
  assert (L : exists extra,
             List.length (flat_map seriesField w) = (List.length w + extra)%nat).
  { exists (List.length (flat_map seriesField w) - List.length w)%nat.
    pose proof (length_flat_map_ge seriesField w (fun t => field_nonempty _ _)).
    lia. }
  destruct L as [extra L]. rewrite L.
  rewrite <- (app_nil_r (flat_map seriesField w)).
  rewrite (WriteRequest_fields_series w _ _ _ H V).
  destruct extra; reflexivity.
Qed.

(** *** Verification of the requests that the object literals build *)

Lemma Label_verify_label (l : Label.t) : Label_verify (JS.label l) = None.
Proof. destruct l. reflexivity. Qed.

Lemma Sample_verify_sample (s : Sample.t) :
  integerTimestamp s -> Sample_verify (JS.sample s) = None.
Proof.
  intros Ht. destruct s as [v t]. unfold integerTimestamp in Ht.
  cbn [Sample.timestamp] in Ht.
  unfold Sample_verify, JS.sample, expectObject, present.
  cbn [JS.isObject JS.field JS.lookup String.eqb Ascii.eqb Bool.eqb
       JS.notNullish Sample.value Sample.timestamp expectNumber orElse].
  unfold expectInt64, JS.isInteger.
  rewrite Ht. reflexivity.
Qed.

Lemma firstError_none {A : Type} (verify : jsval -> option string)
  (toJS : A -> jsval) (l : list A) :
  Forall (fun x => verify (toJS x) = None) l ->
  firstError verify (map toJS l) = None.
Proof.
  induction 1 as [|x l Hx Hl IH]; simpl; [reflexivity|].
  rewrite Hx. exact IH.
Qed.

Lemma TimeSeries_verify_series (t : TimeSeries.t) :
  Forall integerTimestamp (TimeSeries.samples t) ->
  TimeSeries_verify (JS.series t) = None.
Proof.
  intros V. destruct t as [ls ss]. cbn [TimeSeries.samples] in V.
  unfold TimeSeries_verify, JS.series, expectObject, present.
  cbn [JS.isObject JS.field JS.lookup String.eqb Ascii.eqb Bool.eqb
       JS.notNullish TimeSeries.labels TimeSeries.samples expectRepeated].
  rewrite (firstError_none Label_verify JS.label ls)
    by (apply Forall_forall; intros; apply Label_verify_label).
  rewrite (firstError_none Sample_verify JS.sample ss)
    by (eapply Forall_impl; [|exact V]; intros; apply Sample_verify_sample; assumption).
  reflexivity.
Qed.

Lemma WriteRequest_verify_integers (w : list TimeSeries.t) :
  Forall (fun t => Forall integerTimestamp (TimeSeries.samples t)) w ->
  WriteRequest_verify (JS.writeRequest w) = None.
Proof.
  intros V. unfold WriteRequest_verify, JS.writeRequest, expectObject, present.
  cbn [JS.isObject JS.field JS.lookup String.eqb Ascii.eqb Bool.eqb
       JS.notNullish expectRepeated].
  rewrite (firstError_none TimeSeries_verify JS.series w)
    by (eapply Forall_impl; [|exact V]; intros; apply TimeSeries_verify_series; assumption).
  reflexivity.
Qed.

Lemma WriteRequest_verify_request (w : list TimeSeries.t) :
  Forall (fun t => Forall safeTimestamp (TimeSeries.samples t)) w ->
  WriteRequest_verify (JS.writeRequest w) = None.
Proof.
  intros V. apply WriteRequest_verify_integers.
  eapply Forall_impl; [|exact V]. intros t Ht.
  eapply Forall_impl; [|exact Ht]. intros s Hs.
  unfold safeTimestamp in Hs. apply isInteger_ofInteger. lia.
Qed.

Lemma wireSeries_integers (w : list TimeSeries.t) :
  Forall wireSeries w ->
  Forall (fun t => Forall integerTimestamp (TimeSeries.samples t)) w.
Proof.
  intros V. eapply Forall_impl; [|exact V]. intros t Ht.
  eapply Forall_impl; [|exact Ht]. intros s [_ [Hs _]].
  apply isInteger_int64, Hs.
Qed.

Lemma validSeries_wire (w : list TimeSeries.t) :
  Forall validSeries w -> Forall wireSeries w.
Proof.
  intros V. eapply Forall_impl; [|exact V]. intros t Ht.
  eapply Forall_impl; [|exact Ht]. intros s [Hv Hs].
  unfold safeTimestamp in Hs. split; [exact Hv|]. split; [lia|].
  apply toInteger_ofInteger. lia.
Qed.

(** *** Verification accepts the values of the shape of the schema, and
    only them *)

Lemma firstError_iff (verify : jsval -> option string) (items : list jsval) :
  firstError verify items = None <-> Forall (fun v => verify v = None) items.
Proof.
  induction items as [|v items IH]; simpl.
  - split; [constructor | reflexivity].
  - destruct (verify v) eqn:E; simpl.
    + split; [discriminate|]. intros H. inversion H; congruence.
    + rewrite IH. split; [intros H; constructor; assumption|].
      intros H. inversion H; assumption.
Qed.

Lemma expectRepeated_iff (key : string) (verify : jsval -> option string)
  (P : jsval -> Prop) (v : jsval) :
  (forall x, verify x = None <-> P x) ->
  expectRepeated key verify v = None <-> isArrayOf P v.
Proof.
  intros HP. destruct v; simpl; try (split; [discriminate | contradiction]).
  destruct (firstError verify items) eqn:E.
  - split; [discriminate|]. intros H.
    assert (F : firstError verify items = None).
    { apply firstError_iff. eapply Forall_impl; [|exact H].
      intros x. apply HP. }
    congruence.
  - split; [|reflexivity]. intros _. apply firstError_iff in E.
    eapply Forall_impl; [|exact E]. intros x. apply HP.
Qed.

Lemma present_iff (m : jsval) (key : string) (check : jsval -> option string)
  (P : jsval -> Prop) :
  (forall v, check v = None <-> P v) ->
  present m key check = None <-> absentOr P m key.
Proof.
  intros H. unfold present, absentOr.
  destruct (JS.field m key); [apply H | tauto].
Qed.

Lemma orElse_none (a b : option string) :
  orElse a b = None <-> a = None /\ b = None.
Proof.
  destruct a; simpl; [split; [discriminate | intros [H _]; discriminate] | tauto].
Qed.

Lemma expectObject_iff (m : jsval) (fields : option string) :
  expectObject m fields = None <-> JS.isObject m = true /\ fields = None.
Proof.
  unfold expectObject.
  destruct (JS.isObject m); [tauto | split; [discriminate | intros [H _]; discriminate]].
Qed.

Lemma expectString_iff (key : string) (v : jsval) :
  expectString key v = None <-> isString v.
Proof. destruct v; simpl; split; try tauto; try discriminate. Qed.

Lemma expectNumber_iff (key : string) (v : jsval) :
  expectNumber key v = None <-> isNumber v.
Proof. destruct v; simpl; split; try tauto; try discriminate. Qed.

Lemma expectInt64_iff (key : string) (v : jsval) :
  expectInt64 key v = None <-> isInt64 v.
Proof.
  unfold expectInt64, isInt64.
  destruct (JS.isInteger (Some v)), (JS.isLongLike v); simpl; split;
    try tauto; try discriminate; intros [H|H]; discriminate.
Qed.

Lemma Label_verify_iff (m : jsval) : Label_verify m = None <-> LabelShape m.
Proof.
  unfold Label_verify, LabelShape.
  rewrite expectObject_iff, orElse_none.
  rewrite !(present_iff _ _ _ isString) by (intros; apply expectString_iff).
  tauto.
Qed.

Lemma Sample_verify_iff (m : jsval) : Sample_verify m = None <-> SampleShape m.
Proof.
  unfold Sample_verify, SampleShape.
  rewrite expectObject_iff, orElse_none.
  rewrite (present_iff _ _ _ isNumber) by (intros; apply expectNumber_iff).
  rewrite (present_iff _ _ _ isInt64) by (intros; apply expectInt64_iff).
  tauto.
Qed.

Lemma TimeSeries_verify_iff (m : jsval) :
  TimeSeries_verify m = None <-> TimeSeriesShape m.
Proof.
  unfold TimeSeries_verify, TimeSeriesShape.
  rewrite expectObject_iff, orElse_none.
  rewrite (present_iff _ _ _ (isArrayOf LabelShape))
    by (intros; apply expectRepeated_iff, Label_verify_iff).
  rewrite (present_iff _ _ _ (isArrayOf SampleShape))
    by (intros; apply expectRepeated_iff, Sample_verify_iff).
  tauto.
Qed.

Lemma WriteRequest_verify_iff (m : jsval) :
  WriteRequest_verify m = None <-> WriteRequestShape m.
Proof.
  unfold WriteRequest_verify, WriteRequestShape.
  rewrite expectObject_iff.
  rewrite (present_iff _ _ _ (isArrayOf TimeSeriesShape))
    by (intros; apply expectRepeated_iff, TimeSeries_verify_iff).
  tauto.
Qed.

End MessageFacts.

(** ** C1 *)

(** A timestamp beyond the range of the [int64] field: the request passes
    validation, the writer keeps the low 64 bits of the integer, and the
    reader returns [4096] for [2^64 + 4096]. *)
Example wrapped_timestamp_decoded :
  Protobuf.WriteRequest_verify (JS.writeRequest wrappedSeries) = None
  /\ exists output,
       Client.encodeWriteRequest storeCompress (JS.writeRequest wrappedSeries)
       = Return output
       /\ match storeUncompress output with
          | Some buffer =>
              option_map WriteRequest.timeseries
                (Protobuf.WriteRequest_decode buffer)
          | None => None
          end
          = Some [TimeSeries.mk [Label.mk "__name__" "demo_gauge"]
                    [Sample.mk 4627307879634829312%Z 4096%Z]].
Proof. split; [reflexivity|]. eexists. split; reflexivity. Qed.



(** ** C2 *)

(** A request with one series that has neither labels nor samples: the
    schema declares both fields [repeated], and verification finds nothing to
    object to. *)
Example empty_series_encoded :
  forall (snappy_compress : list byte -> list byte),
    Client.encodeWriteRequest snappy_compress
      (JS.writeRequest [TimeSeries.mk [] []])
    = Return (snappy_compress [x0a; x00]).
Proof. intros. reflexivity. Qed.



(** What validation objects to: a label value that is not a string. *)
Example number_label_rejected :
  forall (snappy_compress : list byte -> list byte),
    Client.encodeWriteRequest snappy_compress
      (JObject
         [("timeseries",
           JArray
             [JObject
                [("labels",
                  JArray [JObject [("name", JString "a"); ("value", JNumber 0%Z)]]);
                 ("samples", JArray [])]])])
    = Throw (Error "Protobuf validation failed: timeseries.labels.value: string expected").
Proof. intros. reflexivity. Qed.

(** ** C10 *)

Lemma timeseries_shape (parseFloat : string -> number) (timestamp : Z)
  (metrics : string) :
  Forall (fun t =>
            exists name scraped value,
              TimeSeries.labels t = Label.mk "__name__" name :: scraped
              /\ TimeSeries.samples t = [Sample.mk (parseFloat value) timestamp])
    (Client.timeseries parseFloat timestamp metrics).
Proof.
  unfold Client.timeseries. generalize (Client.lines metrics). intros ls.
  rewrite fold_pushSeries. simpl.
  induction ls as [|l ls IH]; simpl; [constructor|].
  apply Forall_app. split; [|exact IH].
  unfold Client.pushSeries.
  destruct (Client.lineRegex l) as [[[n lb] v]|]; [|constructor].
  destruct (truthy n && truthy v); [|constructor].
  constructor; [|constructor].
  destruct (labels_head n lb) as [scraped E].
  exists n, scraped, v. cbn [TimeSeries.labels TimeSeries.samples].
  rewrite E. split; reflexivity.
Qed.

Lemma scraper_output_encodes (parseFloat : string -> number)
  (snappy_compress : list byte -> list byte) (timestamp : Z) (metrics : string) :
  (- 2 ^ 53 < timestamp < 2 ^ 53)%Z ->
  exists output,
    Client.encodeWriteRequest snappy_compress
      (JS.writeRequest (Client.timeseries parseFloat timestamp metrics))
    = Return output.
Proof.
  intros Hts.
  assert (V : Protobuf.WriteRequest_verify
                (JS.writeRequest (Client.timeseries parseFloat timestamp metrics))
              = None).
  { apply WriteRequest_verify_request.
    eapply Forall_impl; [|apply timeseries_shape]. intros t (n & sc & v & _ & E).
    rewrite E. repeat constructor; unfold safeTimestamp; simpl; lia. }
  unfold Client.encodeWriteRequest. rewrite V. eexists. reflexivity.
Qed.

(** C10.  Whatever the text exposition, the request that the scraper
    assembles passes the schema validation that precedes encoding, so that
    the encode step returns its output and does not throw: every TimeSeries
    produced has a label list that begins with [__name__] and exactly one
    sample, a number for value and the integer capture time for timestamp. *)
Theorem scraped_request_passes_validation :
  forall (parseFloat : string -> number)
         (snappy_compress : list byte -> list byte)
         (timestamp : Z) (metrics : string),
    (- 2 ^ 53 < timestamp < 2 ^ 53)%Z ->
    let timeseries := Client.timeseries parseFloat timestamp metrics in
    Forall (fun t =>
              exists name scraped value,
                TimeSeries.labels t = Label.mk "__name__" name :: scraped
                /\ TimeSeries.samples t = [Sample.mk (parseFloat value) timestamp])
      timeseries
    /\ Protobuf.WriteRequest_verify (JS.writeRequest timeseries) = None
    /\ exists output,
         Client.encodeWriteRequest snappy_compress (JS.writeRequest timeseries)
         = Return output.
Proof.
  intros pf compress ts metrics Hts timeseries.
  pose proof (timeseries_shape pf ts metrics) as S. fold timeseries in S.
  assert (V : Protobuf.WriteRequest_verify (JS.writeRequest timeseries) = None).
  { apply WriteRequest_verify_request.
    eapply Forall_impl; [|exact S]. intros t (n & sc & v & _ & E).
    rewrite E. repeat constructor; unfold safeTimestamp; simpl; lia. }
  split; [exact S|]. split; [exact V|].
  unfold Client.encodeWriteRequest. rewrite V. eexists. reflexivity.
Qed.
(** * Computations *)

Lemma bind_normal {A B : Type} (c : M A) (k : A -> M B) (w : World)
  (t t' : trace) (a : A) :
  c w t = (Normal a, t') -> bind c k w t = k a w t'.
Proof. intros E. unfold bind. rewrite E. reflexivity. Qed.

Lemma bind_thrown {A B : Type} (c : M A) (k : A -> M B) (w : World)
  (t t' : trace) (e : error) :
  c w t = (Thrown e, t') -> bind c k w t = (Thrown e, t').
Proof. intros E. unfold bind. rewrite E. reflexivity. Qed.

Lemma bind_emit {B : Type} (e : event) (k : unit -> M B) (w : World) (t : trace) :
  bind (emit e) k w t = k tt w (t ++ [e]).
Proof. reflexivity. Qed.

Lemma bind_log {B : Type} (text : string) (args : list arg) (k : unit -> M B)
  (w : World) (t : trace) :
  bind (console_log text args) k w t = k tt w (t ++ [ConsoleLog text args]).
Proof. reflexivity. Qed.

Lemma bind_ask {A B : Type} (f : World -> trace -> A) (k : A -> M B)
  (w : World) (t : trace) :
  bind (ask f) k w t = k (f w t) w t.
Proof. reflexivity. Qed.

Lemma bind_ret {A B : Type} (a : A) (k : A -> M B) (w : World) (t : trace) :
  bind (ret a) k w t = k a w t.
Proof. reflexivity. Qed.

Lemma bind_assoc {A B C : Type} (c : M A) (f : A -> M B) (k : B -> M C)
  (w : World) (t : trace) :
  bind (bind c f) k w t = bind c (fun x => bind (f x) k) w t.
Proof.
  unfold bind. destruct (c w t) as [[a|e|n] t']; reflexivity.
Qed.

Lemma tryCatch_bind_normal {A B : Type} (c : M A) (k : A -> M B)
  (h : error -> M B) (w : World) (t t1 : trace) (a : A) :
  c w t = (Normal a, t1) ->
  tryCatch (bind c k) h w t = tryCatch (k a) h w t1.
Proof. intros E. unfold tryCatch, bind. rewrite E. reflexivity. Qed.

Lemma tryCatch_bind_thrown {A B : Type} (c : M A) (k : A -> M B)
  (h : error -> M B) (w : World) (t t1 : trace) (e : error) :
  c w t = (Thrown e, t1) ->
  tryCatch (bind c k) h w t = h e w t1.
Proof. intros E. unfold tryCatch, bind. rewrite E. reflexivity. Qed.

Lemma tryCatch_bind_assoc {A B C : Type} (c : M A) (f : A -> M B)
  (k : B -> M C) (h : error -> M C) (w : World) (t : trace) :
  tryCatch (bind (bind c f) k) h w t
  = tryCatch (bind c (fun x => bind (f x) k)) h w t.
Proof. unfold tryCatch. rewrite bind_assoc. reflexivity. Qed.

(** ** What a computation does besides writing on the console *)

Lemma effects_app (a b : trace) : effects (a ++ b) = effects a ++ effects b.
Proof. apply filter_app. Qed.

Lemma effects_requests (t : trace) : effects t = [] -> filter isRequest t = [].
Proof.
  unfold effects. induction t as [|e t IH]; [reflexivity|].
  destruct e; cbn [filter isConsole negb isRequest]; try discriminate; exact IH.
Qed.

Lemma consoleOnly_log (text : string) (args : list arg) :
  consoleOnly (console_log text args).
Proof.
  intros w t. exists (Normal tt), [ConsoleLog text args].
  repeat split; discriminate.
Qed.

Lemma consoleOnly_error (text : string) (args : list arg) :
  consoleOnly (console_error text args).
Proof.
  intros w t. exists (Normal tt), [ConsoleError text args].
  repeat split; discriminate.
Qed.

Lemma consoleOnly_ret {A : Type} (a : A) : consoleOnly (ret a).
Proof.
  intros w t. exists (Normal a), []. rewrite app_nil_r.
  repeat split; discriminate.
Qed.

Lemma consoleOnly_throw {A : Type} (message : string) :
  consoleOnly (@throw A (Error message)).
Proof.
  intros w t. exists (Thrown (Error message)), []. rewrite app_nil_r.
  repeat split; [discriminate|]. intros e E. injection E as <-. reflexivity.
Qed.

Lemma consoleOnly_ask {A : Type} (f : World -> trace -> A) : consoleOnly (ask f).
Proof.
  intros w t. exists (Normal (f w t)), []. rewrite app_nil_r.
  repeat split; discriminate.
Qed.

Lemma consoleOnly_interpolate (data : jsval) : consoleOnly (interpolate data).
Proof.
  unfold interpolate. destruct (JS.printable data);
    [apply consoleOnly_ret|apply consoleOnly_throw].
Qed.

Lemma consoleOnly_dateString (rendering : option string) :
  consoleOnly (dateString rendering).
Proof.
  destruct rendering; [apply consoleOnly_ret|apply consoleOnly_throw].
Qed.

Lemma consoleOnly_bind {A B : Type} (c : M A) (k : A -> M B) :
  consoleOnly c -> (forall a, consoleOnly (k a)) -> consoleOnly (bind c k).
Proof.
  intros Hc Hk w t. unfold bind.
  destruct (Hc w t) as (r & t1 & E & Q & NE & P). rewrite E.
  destruct r as [a|e|n].
  - destruct (Hk a w (t ++ t1)) as (r' & t2 & E' & Q' & NE' & P'). rewrite E'.
    exists r', (t1 ++ t2). rewrite app_assoc, effects_app, Q, Q'. auto.
  - exists (Thrown e), t1. repeat split; [exact Q|discriminate|].
    intros e' E'. injection E' as <-. apply P. reflexivity.
  - destruct (NE n eq_refl).
Qed.

Lemma consoleOnly_forEach {A : Type} (body : A -> Z -> M unit) (xs : list A) :
  (forall x i, consoleOnly (body x i)) ->
  forall from, consoleOnly (forEach from xs body).
Proof.
  intros Hb. induction xs as [|x xs IH]; intros from; cbn [forEach].
  - apply consoleOnly_ret.
  - apply consoleOnly_bind; [apply Hb|intros _; apply IH].
Qed.

Lemma consoleOnly_forOf {A : Type} (body : A -> M unit) (xs : list A) :
  (forall x, consoleOnly (body x)) -> consoleOnly (forOf xs body).
Proof.
  intros Hb. induction xs as [|x xs IH]; cbn [forOf].
  - apply consoleOnly_ret.
  - apply consoleOnly_bind; [apply Hb|intros _; apply IH].
Qed.

Lemma consoleOnly_tryCatch {A : Type} (body : M A) (handler : error -> M A) :
  consoleOnly body -> (forall e, consoleOnly (handler e)) ->
  consoleOnly (tryCatch body handler).
Proof.
  intros Hb Hh w t. unfold tryCatch.
  destruct (Hb w t) as (r & t1 & E & Q & NE & P). rewrite E.
  destruct r as [a|e|n].
  - exists (Normal a), t1. repeat split; [exact Q|discriminate|discriminate].
  - destruct (Hh e w (t ++ t1)) as (r' & t2 & E' & Q' & NE' & P'). rewrite E'.
    exists r', (t1 ++ t2). rewrite app_assoc, effects_app, Q, Q'. auto.
  - destruct (NE n eq_refl).
Qed.

(** ** The [catch] blocks *)

Lemma interpolate_run (data : jsval) (w : World) (t : trace) :
  interpolate data w t
  = (if JS.printable data then Normal tt else Thrown notPrintable, t).
Proof. unfold interpolate. destruct (JS.printable data); reflexivity. Qed.

Lemma consoleOnly_queryFailed (e : error) : consoleOnly (queryFailed e).
Proof.
  unfold queryFailed. apply consoleOnly_bind; [apply consoleOnly_error|].
  intros _. destruct (axiosResponse e) as [[status data]|].
  - apply consoleOnly_bind; [apply consoleOnly_error|].
    intros _. apply consoleOnly_bind; [apply consoleOnly_interpolate|].
    intros _. apply consoleOnly_error.
  - apply consoleOnly_ret.
Qed.

(** An error without response is reported on one line. *)
Lemma queryFailed_plain (e : error) (w : World) (t : trace) :
  axiosResponse e = None ->
  queryFailed e w t
  = (Normal tt,
     t ++ [ConsoleError "   Error querying Prometheus: " [Str (messageOf e)]]).
Proof. intros H. unfold queryFailed. run_M. rewrite H. reflexivity. Qed.

(** The error of a request is reported with the status and the body of the
    response, when there is one; the block throws on a body that cannot be
    written. *)
Lemma queryFailed_rejection (a : answer jsval) (w : World) (t : trace) :
  accepted a = false ->
  queryFailed (rejection a) w t = (reported a, t ++ queryReport a).
Proof.
  intros A. unfold queryFailed, reported, loggable. rewrite A.
  destruct a as [status data|message]; cbn [rejection axiosResponse messageOf].
  - unfold console_error. rewrite !bind_emit. cbv beta. unfold bind.
    rewrite interpolate_run. cbn [orb queryReport].
    destruct (JS.printable data); unfold emit; rewrite <- ?app_assoc;
      reflexivity.
  - run_M. reflexivity.
Qed.

Lemma consoleOnly_readOutsideInterface (body : jsval) :
  consoleOnly (readOutsideInterface body).
Proof.
  unfold readOutsideInterface. apply consoleOnly_bind; [apply consoleOnly_ask|].
  intros r. apply consoleOnly_bind.
  - apply consoleOnly_forOf. intros line. apply consoleOnly_log.
  - intros _. destruct (snd r); [apply consoleOnly_throw|apply consoleOnly_ret].
Qed.

(** A [try] block that only writes on the console, guarded by the [catch]
    block of a query: the query returns normally. *)
Lemma query_tail (body : M unit) (w : World) (t : trace) :
  consoleOnly body ->
  exists t',
    tryCatch body queryFailed w t = (Normal tt, t ++ t') /\ effects t' = [].
Proof.
  intros Hb. unfold tryCatch.
  destruct (Hb w t) as (r & t1 & E & Q & NE & P). rewrite E.
  destruct r as [[]|e|n].
  - exists t1. auto.
  - rewrite (queryFailed_plain e w (t ++ t1) (P e eq_refl)).
    rewrite <- app_assoc. eexists. split; [reflexivity|].
    rewrite effects_app, Q. reflexivity.
  - destruct (NE n eq_refl).
Qed.

(** ** Requests *)

Lemma settle_run (a : answer jsval) (w : World) (t : trace) :
  settle (fun v => v) a w t
  = (match a with
     | Response status data =>
         if accepted a then Normal (status, data) else Thrown (rejection a)
     | NoResponse _ => Thrown (rejection a)
     end, t).
Proof.
  destruct a as [status data|message]; cbn [settle accepted rejection].
  - unfold statusMessage.
    destruct ((200 <=? status) && (status <? 300))%Z; reflexivity.
  - reflexivity.
Qed.

Lemma settle_accepted (a : answer jsval) (w : World) (t : trace) :
  accepted a = true ->
  exists status data,
    a = Response status data
    /\ settle (fun v => v) a w t = (Normal (status, data), t).
Proof.
  intros A. rewrite settle_run. destruct a as [status data|message];
    [|discriminate A].
  rewrite A. exists status, data. split; reflexivity.
Qed.

Lemma settle_rejected (a : answer jsval) (w : World) (t : trace) :
  accepted a = false ->
  settle (fun v => v) a w t = (Thrown (rejection a), t).
Proof.
  intros A. rewrite settle_run. destruct a as [status data|message];
    [rewrite A|]; reflexivity.
Qed.

Lemma accepted_status (status : Z) :
  (200 <= status < 300)%Z ->
  ((200 <=? status) && (status <? 300))%Z = true.
Proof.
  intros H. apply andb_true_iff. split; [apply Z.leb_le|apply Z.ltb_lt]; lia.
Qed.

Lemma rejected_status (status : Z) :
  ~ (200 <= status < 300)%Z ->
  ((200 <=? status) && (status <? 300))%Z = false.
Proof.
  intros H. apply andb_false_iff.
  destruct (Z.leb_spec 200 status); [right|left; reflexivity].
  apply Z.ltb_ge. lia.
Qed.

(** A query after its request: the [try] block goes on with [rest], which
    only writes on the console.  The query makes that one request, never
    exits, and returns normally when the answer can be reported. *)
Lemma guarded_query (rest : Z * jsval -> M unit) (url : string)
  (params : list (string * string)) (timeout : Z) (w : World) (t : trace) :
  (forall response, consoleOnly (rest response)) ->
  let asked := t ++ [AxiosGet url params timeout] in
  exists c post,
    tryCatch (response <- axios_get_query url params timeout ;; rest response)
      queryFailed w t
    = (c, asked ++ post)
    /\ effects post = []
    /\ (forall n, c <> Exited n)
    /\ (forall e, c = Thrown e -> axiosResponse e = None)
    /\ (loggable (queryServer w asked) = true -> c = Normal tt).
Proof.
  intros Hr asked. unfold axios_get_query.
  rewrite tryCatch_bind_assoc.
  rewrite (tryCatch_bind_normal _ _ _ w t _ tt eq_refl).
  fold asked. rewrite tryCatch_bind_assoc.
  rewrite (tryCatch_bind_normal _ _ _ w asked _ (queryServer w asked) eq_refl).
  destruct (accepted (queryServer w asked)) eqn:A.
  - destruct (settle_accepted _ w asked A) as (status & data & Ea & S).
    rewrite (tryCatch_bind_normal _ _ _ w asked _ (status, data) S).
    destruct (query_tail (rest (status, data)) w asked (Hr _)) as (t' & F & Q).
    rewrite F. exists (Normal tt), t'.
    repeat split; try assumption; discriminate.
  - rewrite (tryCatch_bind_thrown _ _ _ w asked _ _ (settle_rejected _ w asked A)).
    rewrite (queryFailed_rejection _ w asked A).
    exists (reported (queryServer w asked)), (queryReport (queryServer w asked)).
    split; [reflexivity|]. unfold reported.
    split; [|split; [|split]].
    + destruct (queryServer w asked) as [status data|message];
        cbn [queryReport]; [destruct (JS.printable data)|]; reflexivity.
    + intros n. destruct (loggable _); discriminate.
    + intros e. destruct (loggable _); [discriminate|].
      intros E. injection E as <-. reflexivity.
    + intros L. rewrite L. reflexivity.
Qed.

(** * The write paths and the test scripts *)

(** ** The full path *)

Lemma failureLogged_app_r (a b : trace) : failureLogged b -> failureLogged (a ++ b).
Proof. intros [m H]. exists m. apply in_or_app. right. exact H. Qed.

Lemma filter_write_request (t : trace) :
  filter isRequest t = [] -> filter isWrite t = [].
Proof.
  induction t as [|e t IH]; simpl; [reflexivity|].
  destruct e; simpl; try discriminate; assumption.
Qed.

Lemma filter_request_effects (t : trace) :
  filter isRequest t = filter isRequest (effects t).
Proof.
  unfold effects. induction t as [|e t IH]; [reflexivity|].
  destruct e; cbn [filter isConsole negb isRequest]; rewrite ?IH; reflexivity.
Qed.

Lemma filter_write_effects (t : trace) :
  filter isWrite t = filter isWrite (effects t).
Proof.
  unfold effects. induction t as [|e t IH]; [reflexivity|].
  destruct e; cbn [filter isConsole negb isWrite]; rewrite ?IH; reflexivity.
Qed.

Lemma filter_get_effects (t : trace) :
  filter isGet t = filter isGet (effects t).
Proof.
  unfold effects. induction t as [|e t IH]; [reflexivity|].
  destruct e; cbn [filter isConsole negb isGet]; rewrite ?IH; reflexivity.
Qed.

Lemma postReport_effects (now : Z) (a : answer jsval) :
  effects (postReport now a) = [].
Proof.
  destruct a as [status data|message]; cbn [postReport]; [|reflexivity].
  destruct ((200 <=? status) && (status <? 300))%Z; [reflexivity|].
  destruct (JS.printable data); reflexivity.
Qed.

Section FullPath.
Variable snappy_compress : list byte -> list byte.
Variable parseFloat : string -> number.

(** [metricsToRemoteWrite] leaves no trace: it returns the compressed request
    or throws an error that carries no response. *)
Lemma metricsToRemoteWrite_cases (w : World) (t : trace) :
  (exists data,
      Client.metricsToRemoteWrite snappy_compress parseFloat w t
      = (Normal data, t))
  \/ (exists message,
         Client.metricsToRemoteWrite snappy_compress parseFloat w t
         = (Thrown (Error message), t)).
Proof.
  unfold Client.metricsToRemoteWrite. run_M.
  destruct (registry w t) as [metrics|message];
    [|right; exists message; reflexivity].
  run_M. unfold Client.encodeWriteRequest.
  match goal with
  | |- context [Protobuf.WriteRequest_verify ?x] =>
      destruct (Protobuf.WriteRequest_verify x) as [errMsg|]
  end.
  - right. eexists. reflexivity.
  - left. eexists. reflexivity.
Qed.

(** When the registry yields its text and the clock an integer time, the
    encode step returns. *)
Lemma metricsToRemoteWrite_returns (w : World) (t : trace) (metrics : string) :
  registry w t = Exposition metrics ->
  (- 2 ^ 53 < clock w t < 2 ^ 53)%Z ->
  exists data,
    Client.encodeWriteRequest snappy_compress
      (JS.writeRequest (Client.timeseries parseFloat (clock w t) metrics))
    = Return data
    /\ Client.metricsToRemoteWrite snappy_compress parseFloat w t
       = (Normal data, t).
Proof.
  intros R C.
  destruct (scraper_output_encodes parseFloat snappy_compress (clock w t)
              metrics C) as [data E].
  exists data. split; [exact E|].
  unfold Client.metricsToRemoteWrite. run_M.
  rewrite R. run_M. rewrite E. reflexivity.
Qed.

(** When the encode step throws, nothing is requested: the message of the
    error is logged and the send returns. *)
Lemma encode_failure_run (w : World) (t : trace) (e : error) :
  Client.metricsToRemoteWrite snappy_compress parseFloat w t = (Thrown e, t) ->
  Client.sendMetricsToPrometheus snappy_compress parseFloat w t
  = (Normal tt,
     t ++ [ConsoleError "Failed to send metrics to Prometheus: "
             [Str (messageOf e)]]).
Proof.
  intros T.
  destruct (metricsToRemoteWrite_cases w t) as [[data N]|[message T']];
    rewrite T in *; [discriminate N|]. injection T' as ->.
  unfold Client.sendMetricsToPrometheus.
  rewrite (tryCatch_bind_thrown _ _ _ w t _ _ T). reflexivity.
Qed.

(** After the encode step the send makes its POST and reports the answer;
    the [catch] block throws on a body that cannot be written into the
    log. *)
Lemma full_path_run (w : World) (t : trace) (data : list byte) :
  Client.metricsToRemoteWrite snappy_compress parseFloat w t
  = (Normal data, t) ->
  let posted :=
    t ++ [AxiosPost (baseUrl w +++ "/api/v1/write") data Client.headers 5000] in
  Client.sendMetricsToPrometheus snappy_compress parseFloat w t
  = (reported (server w posted),
     posted ++ postReport (clock w posted) (server w posted)).
Proof.
  intros N posted.
  unfold Client.sendMetricsToPrometheus, tryCatch. unfold bind at 1.
  rewrite N. unfold axios_post. run_M. fold posted.
  rewrite settle_run. unfold reported, loggable.
  destruct (server w posted) as [status body|message];
    cbn [accepted postReport rejection].
  - destruct ((200 <=? status) && (status <? 300))%Z; cbn [orb].
    + rewrite <- !app_assoc. reflexivity.
    + cbn [axiosResponse messageOf]. rewrite interpolate_run.
      destruct (JS.printable body); rewrite <- ?app_assoc; reflexivity.
  - cbn [axiosResponse messageOf]. reflexivity.
Qed.

(** The full path, spelled out: either the encode step threw and no request
    was made, or one POST was made, followed by the success lines or by the
    failure lines according to the answer. *)
Lemma client_send (w : World) (t : trace) :
  exists c t',
    Client.sendMetricsToPrometheus snappy_compress parseFloat w t = (c, t ++ t')
    /\ ((exists e,
           Client.metricsToRemoteWrite snappy_compress parseFloat w t
           = (Thrown e, t)
           /\ c = Normal tt
           /\ effects t' = [] /\ failureLogged t')
        \/ (exists data post,
              Client.metricsToRemoteWrite snappy_compress parseFloat w t
              = (Normal data, t)
              /\ t' = AxiosPost (baseUrl w +++ "/api/v1/write") data
                        Client.headers 5000 :: post
              /\ effects post = []
              /\ let a := server w (t ++ [AxiosPost (baseUrl w +++ "/api/v1/write")
                                           data Client.headers 5000]) in
                 c = reported a
                 /\ ((accepted a = true /\ sentLogged post
                      /\ filter isConsoleError post = [])
                     \/ (accepted a = false /\ failureLogged post
                         /\ forall status data',
                              a = Response status data' ->
                              In (ConsoleError "   Response status: " [Int status])
                                post)))).
Proof.
  destruct (metricsToRemoteWrite_cases w t) as [[data N]|[message T]].
  - rewrite (full_path_run w t data N). cbv zeta.
    set (posted := t ++ [AxiosPost _ data Client.headers 5000]).
    exists (reported (server w posted)),
      (AxiosPost (baseUrl w +++ "/api/v1/write") data Client.headers 5000
       :: postReport (clock w posted) (server w posted)).
    split; [unfold posted; rewrite <- app_assoc; reflexivity|].
    right. exists data, (postReport (clock w posted) (server w posted)).
    split; [exact N|]. split; [reflexivity|].
    split; [apply postReport_effects|]. cbv zeta. fold posted.
    split; [reflexivity|].
    destruct (server w posted) as [status body|message];
      cbn [accepted postReport].
    + destruct ((200 <=? status) && (status <? 300))%Z.
      * left. split; [reflexivity|]. split; [|reflexivity].
        eexists. left. reflexivity.
      * right. split; [reflexivity|]. split; [eexists; left; reflexivity|].
        intros s d E. injection E as <- <-. right. left. reflexivity.
    + right. split; [reflexivity|]. split; [eexists; left; reflexivity|].
      discriminate.
  - rewrite (encode_failure_run w t _ T).
    eexists. eexists. split; [reflexivity|]. left.
    exists (Error message). split; [exact T|]. split; [reflexivity|].
    split; [reflexivity|]. eexists. left. reflexivity.
Qed.

End FullPath.

(** [updateMetrics] returns, and makes no request. *)
Lemma client_update (w : World) (t : trace) :
  exists t',
    Client.updateMetrics w t = (Normal tt, t ++ t')
    /\ filter isRequest t' = [] /\ filter isConsoleError t' = [].
Proof.
  unfold Client.updateMetrics. run_M. rewrite <- !app_assoc. cbn [app].
  eexists. split; [reflexivity|]. split; reflexivity.
Qed.

(** ** The simple path *)

(** The simple path, spelled out: the lines that list the metrics, one push,
    and the line that reports it. *)
Lemma simple_send_run (w : World) (t : trace) :
  exists metrics,
    SimpleClient.generateMetrics w t = (Normal metrics, t)
    /\ map fst metrics
       = ["demo_counter_total"; "demo_gauge"; "demo_duration_seconds";
          "custom_metric"]
    /\ In ("custom_metric", 4631107791820423168%Z) metrics
    /\ let pushed :=
         t ++ ConsoleLog "Sending  metrics to Prometheus..." [Int 4]
              :: map metricLine metrics
              ++ [PushMetrics metrics (baseUrl w +++ "/api/v1/write")
                    [("X-Prometheus-Remote-Write-Version", "0.1.0")]] in
       SimpleClient.sendMetricsToPrometheus w t
       = (Normal tt,
          pushed ++ [pushReport (clock w pushed) (server w pushed)]).
Proof.
  eexists. split; [reflexivity|]. split; [reflexivity|].
  split; [right; right; right; left; reflexivity|].
  cbv zeta.
  unfold SimpleClient.sendMetricsToPrometheus, tryCatch,
    SimpleClient.generateMetrics, SimpleClient.pushMetrics, SimpleClient.headers.
  run_M. cbn [forOf]. run_M. cbn [List.length map fst snd]. unfold metricLine.
  change (Z.of_nat 4) with 4%Z.
  rewrite <- !app_assoc. cbn [app fst snd].
  match goal with
  | |- context [server w ?tr] => destruct (server w tr) as [status body|message]
  end; run_M; cbn [pushReport messageOf]; rewrite <- ?app_assoc; cbn [app];
    reflexivity.
Qed.

(** The same, by what the send does besides writing on the console. *)
Lemma simple_send_effects (w : World) (t : trace) :
  exists pre push post,
    SimpleClient.sendMetricsToPrometheus w t
    = (Normal tt, t ++ pre ++ push :: post)
    /\ isPush w push
    /\ effects pre = [] /\ effects post = []
    /\ post = [pushReport (clock w (t ++ pre ++ [push]))
                 (server w (t ++ pre ++ [push]))].
Proof.
  destruct (simple_send_run w t) as (metrics & _ & Names & _ & S).
  cbv zeta in S.
  exists (ConsoleLog "Sending  metrics to Prometheus..." [Int 4]
          :: map metricLine metrics),
    (PushMetrics metrics (baseUrl w +++ "/api/v1/write")
       [("X-Prometheus-Remote-Write-Version", "0.1.0")]).
  eexists. split; [|split; [|split; [|split; [|reflexivity]]]].
  - rewrite S. f_equal.
    repeat (rewrite <- ?app_assoc; cbn [app]). reflexivity.
  - exists metrics. split; [reflexivity|exact Names].
  - unfold effects. cbn [filter isConsole negb].
    clear. induction metrics as [|m ms IH]; [reflexivity|exact IH].
  - destruct (server w _); reflexivity.
Qed.

Lemma last_snoc {A : Type} (l : list A) (x d : A) : last (l ++ [x]) d = x.
Proof.
  induction l as [|y l IH]; [reflexivity|].
  cbn [app]. destruct (l ++ [x]) eqn:E; [destruct l; discriminate E|].
  cbn [last]. exact IH.
Qed.

(** ** C6 *)

(** A push that the server answers with status 500: the helper resolves,
    and the simple path reports the metrics as sent. *)
Example rejected_push_run :
  SimpleClient.generateAndSendMetrics
    (sampleWorld (Response 200 JNull) (Response 500 (JString "down"))
       (NoResponse "timeout")) []
  = (Normal tt,
     [ConsoleLog "Sending  metrics to Prometheus..." [Int 4];
      ConsoleLog "   -  = " [Str "demo_counter_total"; Num 4631107791820423168%Z];
      ConsoleLog "   -  = " [Str "demo_gauge"; Num 4631107791820423168%Z];
      ConsoleLog "   -  = " [Str "demo_duration_seconds"; Num 4631107791820423168%Z];
      ConsoleLog "   -  = " [Str "custom_metric"; Num 4631107791820423168%Z];
      PushMetrics
        [("demo_counter_total", 4631107791820423168%Z);
         ("demo_gauge", 4631107791820423168%Z);
         ("demo_duration_seconds", 4631107791820423168%Z);
         ("custom_metric", 4631107791820423168%Z)]
        "http://localhost:9090/api/v1/write"
        [("X-Prometheus-Remote-Write-Version", "0.1.0")];
      ConsoleLog "Metrics sent to Prometheus at " [Time 1700000000000%Z]]).
Proof. reflexivity. Qed.



(** ** C7 *)

(** C7.  On the full path, when the registry yields its text and the clock
    an integer time, an invocation makes exactly one request: a POST to
    [PROMETHEUS_URL/api/v1/write] whose body is the encoder's output, with
    the three headers Content-Type, Content-Encoding and
    X-Prometheus-Remote-Write-Version and a timeout of 5000 ms.  A response
    that is not 2xx is logged, status included, and nothing is sent again;
    the invocation ends there, normally when the body of the response can be
    written into the log. *)
Theorem full_path_single_post :
  forall (snappy_compress : list byte -> list byte)
         (parseFloat : string -> number) (w : World) (t : trace)
         (metrics : string),
    registry w t = Exposition metrics ->
    (- 2 ^ 53 < clock w t < 2 ^ 53)%Z ->
    exists data c t',
      Client.encodeWriteRequest snappy_compress
        (JS.writeRequest (Client.timeseries parseFloat (clock w t) metrics))
      = Return data
      /\ Client.sendMetricsToPrometheus snappy_compress parseFloat w t
         = (c, t ++ t')
      /\ filter isRequest t'
         = [AxiosPost (baseUrl w +++ "/api/v1/write") data
              [("Content-Type", "application/x-protobuf");
               ("Content-Encoding", "snappy");
               ("X-Prometheus-Remote-Write-Version", "0.1.0")]
              5000]
      /\ (forall code, c <> Exited code)
      /\ forall status body,
           server w
             (t ++ [AxiosPost (baseUrl w +++ "/api/v1/write") data
                      [("Content-Type", "application/x-protobuf");
                       ("Content-Encoding", "snappy");
                       ("X-Prometheus-Remote-Write-Version", "0.1.0")]
                      5000])
           = Response status body ->
           ~ (200 <= status < 300)%Z ->
           failureLogged t'
           /\ In (ConsoleError "   Response status: " [Int status]) t'
           /\ (JS.printable body = true -> c = Normal tt).
Proof.
  intros compress pf w t metrics R C.
  destruct (metricsToRemoteWrite_returns compress pf w t metrics R C)
    as (data & E & N).
  destruct (client_send compress pf w t) as (c & t' & S & Cs).
  exists data, c, t'. split; [exact E|]. split; [exact S|].
  destruct Cs as [(e & T & _)|(data' & post & N' & -> & Q & Cs)].
  - rewrite N in T. discriminate T.
  - rewrite N in N'. injection N' as <-. cbv zeta in Cs.
    fold Client.headers. destruct Cs as [-> Cs].
    split; [|split].
    + cbn [filter isRequest]. rewrite (effects_requests _ Q). reflexivity.
    + intros code. unfold reported. destruct (loggable _); discriminate.
    + intros status body A Hs. rewrite A in *.
      destruct Cs as [(Acc & _)|(_ & F & Ls)].
      * exfalso. cbn [accepted] in Acc.
        rewrite (rejected_status status Hs) in Acc. discriminate Acc.
      * split; [|split].
        -- destruct F as [m F]. exists m. right. exact F.
        -- right. apply (Ls status body eq_refl).
        -- intros P. unfold reported, loggable. rewrite P, orb_true_r.
           reflexivity.
Qed.

(** ** The test scripts *)

(** The health check: one request, and one line that reports the answer. *)
Lemma health_check_run (w : World) (t : trace) :
  let asked := t ++ [ConsoleLog "Checking Prometheus status..." [];
                     AxiosGet (baseUrl w +++ "/-/healthy") [] 5000] in
  getPrometheusStatus w t
  = (Normal (accepted (server w asked)),
     asked ++ [healthReport (server w asked)]).
Proof.
  intros asked.
  unfold getPrometheusStatus, tryCatch, axios_get. run_M.
  rewrite <- !app_assoc. cbn [app]. fold asked.
  destruct (server w asked) as [status data|message]; unfold settle, healthReport.
  - cbn [accepted]. unfold statusMessage.
    destruct ((200 <=? status) && (status <? 300))%Z; run_M;
      cbn [fst messageOf]; reflexivity.
  - run_M. reflexivity.
Qed.

Lemma consoleOnly_typed_listing (data : PrometheusResponse.t)
  (listing : list PrometheusResponse.entry -> M unit) :
  (forall results, consoleOnly (listing results)) ->
  consoleOnly
    (if String.eqb (PrometheusResponse.status data) "success" then
       console_log "   Status: " [Str (PrometheusResponse.status data)] ;;
       match PrometheusResponse.result data with
       | Some (first :: more) => listing (first :: more)
       | _ => console_log "   No data found for this query" []
       end
     else
       console_log "   Query failed: "
         [Str match PrometheusResponse.error data with
              | Some e => if truthy e then e else "Unknown error"
              | None => "Unknown error"
              end]).
Proof.
  intros Hl. destruct (String.eqb _ _); [|apply consoleOnly_log].
  apply consoleOnly_bind; [apply consoleOnly_log|]. intros _.
  destruct (PrometheusResponse.result data) as [[|first more]|];
    try apply consoleOnly_log.
  apply Hl.
Qed.

(** The query of the simple test: its two lines, its request, and lines on
    the console; it returns normally when the answer can be reported. *)
Lemma simple_query_cases (w : World) (t : trace) :
  exists c post,
    SimpleTest.queryPrometheus w t = (c, simpleAsked w t ++ post)
    /\ effects post = []
    /\ (forall n, c <> Exited n)
    /\ (loggable (queryServer w (simpleAsked w t)) = true -> c = Normal tt).
Proof.
  unfold SimpleTest.queryPrometheus.
  rewrite (tryCatch_bind_normal _ _ _ w t _ tt eq_refl).
  rewrite (tryCatch_bind_normal _ _ _ w _ _ tt eq_refl).
  unfold PROMETHEUS_URL.
  rewrite (tryCatch_bind_normal _ _ _ w _ _ (baseUrl w) eq_refl).
  match goal with
  | |- context [tryCatch (bind (axios_get_query ?u ?p ?n) ?rest) queryFailed w ?tr] =>
      destruct (guarded_query rest u p n w tr) as (c & post & E & Q & NE & _ & L)
  end.
  - intros response.
    destruct (PrometheusResponse_ofJS (snd response)) as [data|];
      [|apply consoleOnly_readOutsideInterface].
    apply (consoleOnly_typed_listing data
             (fun results =>
                console_log "   Found  result(s):"
                  [Int (Z.of_nat (List.length results))] ;;
                forEach 0 results (fun result index =>
                  console_log "      .  = "
                    [Int (index + 1);
                     Str (metricNameOf (PrometheusResponse.metric result));
                     Str (braced (renderMetricLabels
                                    (PrometheusResponse.metric result)));
                     Str (snd (PrometheusResponse.value result))]))).
    intros results. apply consoleOnly_bind; [apply consoleOnly_log|].
    intros _. apply consoleOnly_forEach. intros x i. apply consoleOnly_log.
  - rewrite E. exists c, post. unfold simpleAsked, queryGet.
    rewrite <- !app_assoc in L. cbn [app] in L.
    split; [f_equal; same_trace|]. split; [exact Q|]. split; [exact NE|exact L].
Qed.

Section EnhancedQuery.
Variable toISOString : number -> option string.

(** One query of the enhanced test, likewise. *)
Lemma enhanced_query_cases (query name : string) (w : World) (t : trace) :
  exists c post,
    EnhancedTest.queryPrometheus toISOString query name w t
    = (c, queryAsked w t query name ++ post)
    /\ effects post = []
    /\ (forall n, c <> Exited n)
    /\ (loggable (queryServer w (queryAsked w t query name)) = true ->
        c = Normal tt).
Proof.
  unfold EnhancedTest.queryPrometheus.
  rewrite (tryCatch_bind_normal _ _ _ w t _ tt eq_refl).
  rewrite (tryCatch_bind_normal _ _ _ w _ _ tt eq_refl).
  unfold PROMETHEUS_URL.
  rewrite (tryCatch_bind_normal _ _ _ w _ _ (baseUrl w) eq_refl).
  match goal with
  | |- context [tryCatch (bind (axios_get_query ?u ?p ?n) ?rest) queryFailed w ?tr] =>
      destruct (guarded_query rest u p n w tr) as (c & post & E & Q & NE & _ & L)
  end.
  - intros response.
    destruct (PrometheusResponse_ofJS (snd response)) as [data|];
      [|apply consoleOnly_readOutsideInterface].
    apply (consoleOnly_typed_listing data
             (fun results =>
                console_log "   Found  result(s):"
                  [Int (Z.of_nat (List.length results))] ;;
                forEach 0 results (fun result index =>
                  timestamp <- dateString
                                 (toISOString
                                    (fst (PrometheusResponse.value result))) ;;
                  console_log "      .  =  @ "
                    [Int (index + 1);
                     Str (metricNameOf (PrometheusResponse.metric result));
                     Str (braced (renderMetricLabels
                                    (PrometheusResponse.metric result)));
                     Str (snd (PrometheusResponse.value result));
                     Str timestamp]))).
    intros results. apply consoleOnly_bind; [apply consoleOnly_log|].
    intros _. apply consoleOnly_forEach. intros x i.
    apply consoleOnly_bind; [apply consoleOnly_dateString|].
    intros ts. apply consoleOnly_log.
  - rewrite E. exists c, post. unfold queryAsked, queryGet.
    rewrite <- !app_assoc in L. cbn [app] in L.
    split; [f_equal; same_trace|]. split; [exact Q|]. split; [exact NE|exact L].
Qed.

(** A body with status [success] and an empty result array is read through
    the interface. *)
Lemma emptySuccess_ofJS (body : jsval) :
  emptySuccess body = true ->
  exists e,
    PrometheusResponse_ofJS body
    = Some (PrometheusResponse.mk "success" (Some []) e).
Proof.
  unfold emptySuccess, PrometheusResponse_ofJS.
  destruct body as [| | | | |items|props]; try discriminate.
  destruct (JS.lookup "status" props) as [[| | | |status| |]|]; try discriminate.
  destruct (JS.lookup "data" props) as [[| | | | | |data]|] eqn:D;
    try discriminate.
  rewrite andb_true_iff. intros [Es Er]. rewrite Es.
  apply String.eqb_eq in Es. subst status.
  cbn [result_ofJS].
  destruct (JS.lookup "result" data) as [[| | | | |[|item items]|]|];
    try discriminate Er.
  cbn [traverse option_map]. eexists. reflexivity.
Qed.

(** The two outcomes of C9 for one query. *)
Lemma enhanced_query_empty (query name : string) (w : World) (t : trace)
  (status : Z) (body : jsval) :
  queryServer w (queryAsked w t query name) = Response status body ->
  (200 <= status < 300)%Z ->
  emptySuccess body = true ->
  EnhancedTest.queryPrometheus toISOString query name w t
  = (Normal tt,
     queryAsked w t query name
     ++ [ConsoleLog "   Status: " [Str "success"];
         ConsoleLog "   No data found for this query" []]).
Proof.
  intros A Hs Hb. destruct (emptySuccess_ofJS body Hb) as [e D].
  unfold EnhancedTest.queryPrometheus, tryCatch, axios_get_query. run_M.
  rewrite <- !app_assoc. cbn [app]. fold (queryGet w query).
  fold (queryAsked w t query name). rewrite A. unfold settle.
  rewrite (accepted_status status Hs). run_M. cbn [snd]. rewrite D.
  cbn [PrometheusResponse.status PrometheusResponse.result String.eqb
       Ascii.eqb Bool.eqb].
  run_M. rewrite <- !app_assoc. reflexivity.
Qed.

Lemma enhanced_query_unanswered (query name : string) (w : World) (t : trace)
  (message : string) :
  queryServer w (queryAsked w t query name) = NoResponse message ->
  EnhancedTest.queryPrometheus toISOString query name w t
  = (Normal tt,
     queryAsked w t query name
     ++ [ConsoleError "   Error querying Prometheus: " [Str message]]).
Proof.
  intros A.
  unfold EnhancedTest.queryPrometheus, tryCatch, axios_get_query. run_M.
  rewrite <- !app_assoc. cbn [app]. fold (queryGet w query).
  fold (queryAsked w t query name). rewrite A. unfold settle. run_M.
  apply (queryFailed_plain (AxiosError message None)). reflexivity.
Qed.

(** The loop over the queries.  The queries are made in order; the loop
    stops at a query that throws, and goes to its end when every answer can
    be reported. *)
Lemma enhanced_loop (qs : list (string * string)) (w : World) (t : trace) :
  exists c t' made rest,
    forOf qs (fun queryInfo =>
      EnhancedTest.queryPrometheus toISOString (fst queryInfo) (snd queryInfo) ;;
      console_log EmptyString []) w t
    = (c, t ++ t')
    /\ effects t' = map (queryGet w) made
    /\ map fst qs = made ++ rest
    /\ (forall n, c <> Exited n)
    /\ (c = Normal tt -> rest = [])
    /\ ((forall asked, loggable (queryServer w asked) = true) -> c = Normal tt).
Proof.
  revert t. induction qs as [|[q n] qs IH]; intros t.
  - exists (Normal tt), [], [], []. rewrite app_nil_r.
    repeat split; try discriminate.
  - cbn [forOf fst snd]. rewrite bind_assoc.
    destruct (enhanced_query_cases q n w t) as (c & post & E & Q & NE & L).
    unfold bind at 1. rewrite E.
    assert (Eq : effects (queryAsked w [] q n ++ post) = [queryGet w q]).
    { rewrite effects_app, Q. reflexivity. }
    assert (Et : queryAsked w t q n ++ post = t ++ queryAsked w [] q n ++ post).
    { unfold queryAsked. rewrite <- !app_assoc. reflexivity. }
    destruct c as [[]|e|code].
    + rewrite bind_log. cbv beta.
      match goal with
      | |- context [forOf qs ?b w ?tr] =>
          destruct (IH tr) as (c' & t' & made & rest & E' & Q' & M & NE' & R & L')
      end.
      rewrite E'. rewrite Et, <- !app_assoc.
      exists c', (queryAsked w [] q n ++ post ++ [ConsoleLog EmptyString []] ++ t'),
        (q :: made), rest.
      split; [reflexivity|].
      split; [rewrite app_assoc, effects_app, Eq, effects_app, Q'; reflexivity|].
      split; [cbn [map fst app]; rewrite M; reflexivity|]. auto.
    + rewrite Et.
      exists (Thrown e), (queryAsked w [] q n ++ post), [q], (map fst qs).
      split; [reflexivity|]. split; [exact Eq|]. split; [reflexivity|].
      split; [discriminate|]. split; [discriminate|].
      intros La. specialize (L (La _)). discriminate L.
    + destruct (NE code eq_refl).
Qed.

(** After a query whose request got no answer, the loop goes on with the
    next queries. *)
Lemma enhanced_loop_continues (query name : string)
  (more : list (string * string)) (w : World) (t : trace) (message : string) :
  queryServer w (queryAsked w t query name) = NoResponse message ->
  forOf ((query, name) :: more) (fun queryInfo =>
    EnhancedTest.queryPrometheus toISOString (fst queryInfo) (snd queryInfo) ;;
    console_log EmptyString []) w t
  = forOf more (fun queryInfo =>
      EnhancedTest.queryPrometheus toISOString (fst queryInfo) (snd queryInfo) ;;
      console_log EmptyString []) w
      (queryAsked w t query name
       ++ [ConsoleError "   Error querying Prometheus: " [Str message];
           ConsoleLog EmptyString []]).
Proof.
  intros A. cbn [forOf fst snd]. rewrite bind_assoc.
  rewrite (bind_normal _ _ _ _ _ _ (enhanced_query_unanswered _ _ _ _ _ A)).
  rewrite bind_log. cbv beta. rewrite <- !app_assoc. reflexivity.
Qed.

End EnhancedQuery.

(** The part of a test script that follows a health check that succeeded:
    the push of the simple client, the wait, the queries, and lines on the
    console. *)
Lemma simple_test_body (w : World) (t : trace) :
  exists c t' push,
    (console_log "Generating and sending metrics..." [] ;;
     SimpleClient.generateAndSendMetrics ;;
     console_log "Waiting for metrics to be processed..." [] ;;
     emit (SetTimeout 2000) ;;
     console_log "Running query..." [] ;;
     SimpleTest.queryPrometheus ;;
     console_log "Test completed!" [] ;;
     console_log "Tips:" [] ;;
     console_log "   - Visit http://localhost:9090 for Prometheus UI" [] ;;
     console_log "   - Run this test again to see updated values" []) w t
    = (c, t ++ t')
    /\ isPush w push
    /\ effects t' = [push; SetTimeout 2000; queryGet w "demo_counter_total"]
    /\ (forall n, c <> Exited n)
    /\ ((forall asked, loggable (queryServer w asked) = true) -> c = Normal tt).
Proof.
  unfold SimpleClient.generateAndSendMetrics.
  rewrite bind_log. cbv beta.
  destruct (simple_send_effects w
              (t ++ [ConsoleLog "Generating and sending metrics..." []]))
    as (pre & push & post & S & P & Qp & Qq & _).
  rewrite (bind_normal _ _ _ _ _ _ S). cbv beta.
  rewrite bind_log. cbv beta. rewrite bind_emit. cbv beta.
  rewrite bind_log. cbv beta.
  match goal with
  | |- context [bind SimpleTest.queryPrometheus _ w ?tr] =>
      destruct (simple_query_cases w tr) as (c & qpost & Eq & Qq' & NE & L);
      set (tq := tr) in *
  end.
  assert (Et : exists mid,
             simpleAsked w tq ++ qpost = t ++ mid
             /\ effects mid
                = [push; SetTimeout 2000; queryGet w "demo_counter_total"]).
  { unfold simpleAsked, tq. rewrite <- !app_assoc. cbn [app].
    eexists. split; [reflexivity|].
    unfold effects in *. cbn [filter isConsole negb].
    rewrite filter_app, Qp. cbn [app filter].
    destruct P as (metrics & -> & _). cbn [isConsole negb].
    rewrite filter_app, Qq. cbn [app filter isConsole negb].
    rewrite Qq'. reflexivity. }
  destruct Et as (mid & Et & Em).
  unfold bind at 1. rewrite Eq, Et.
  destruct c as [[]|e|code].
  - run_M. rewrite <- !app_assoc. eexists. eexists. exists push.
    split; [reflexivity|]. split; [exact P|].
    split; [rewrite effects_app, Em; reflexivity|].
    split; [discriminate|reflexivity].
  - exists (Thrown e), mid, push. split; [reflexivity|]. split; [exact P|].
    split; [exact Em|]. split; [discriminate|].
    intros La. apply L, La.
  - destruct (NE code eq_refl).
Qed.

Section EnhancedMain.
Variable toISOString : number -> option string.

Lemma enhanced_test_body (w : World) (t : trace) :
  exists c t' push made rest,
    (console_log "Generating and sending metrics..." [] ;;
     SimpleClient.generateAndSendMetrics ;;
     console_log "Waiting for metrics to be processed..." [] ;;
     emit (SetTimeout 2000) ;;
     console_log "Running queries..." [] ;;
     forOf EnhancedTest.queries (fun queryInfo =>
       EnhancedTest.queryPrometheus toISOString (fst queryInfo) (snd queryInfo) ;;
       console_log EmptyString []) ;;
     console_log "Test completed!" [] ;;
     console_log "Tips:" [] ;;
     console_log "   - Visit http://localhost:9090 for Prometheus UI" [] ;;
     console_log "   - Run this test again to see updated values" [] ;;
     console_log
       ("   - Try queries like: demo_counter_total{service=" +++ str DQ
        +++ "demo-service" +++ str DQ +++ "}") [])
      w t
    = (c, t ++ t')
    /\ isPush w push
    /\ effects t' = push :: SetTimeout 2000 :: map (queryGet w) made
    /\ map fst EnhancedTest.queries = made ++ rest
    /\ (forall n, c <> Exited n)
    /\ (c = Normal tt -> rest = [])
    /\ ((forall asked, loggable (queryServer w asked) = true) -> c = Normal tt).
Proof.
  unfold SimpleClient.generateAndSendMetrics.
  rewrite bind_log. cbv beta.
  destruct (simple_send_effects w
              (t ++ [ConsoleLog "Generating and sending metrics..." []]))
    as (pre & push & post & S & P & Qp & Qq & _).
  rewrite (bind_normal _ _ _ _ _ _ S). cbv beta.
  rewrite bind_log. cbv beta. rewrite bind_emit. cbv beta.
  rewrite bind_log. cbv beta.
  match goal with
  | |- context [bind (forOf _ _) _ w ?tr] =>
      destruct (enhanced_loop toISOString EnhancedTest.queries w tr)
        as (c & tl & made & rest & El & Ql & M & NE & R & L);
      set (tq := tr) in *
  end.
  assert (Et : exists mid,
             tq ++ tl = t ++ mid
             /\ effects mid = push :: SetTimeout 2000 :: map (queryGet w) made).
  { unfold tq. rewrite <- !app_assoc. cbn [app].
    eexists. split; [reflexivity|].
    unfold effects in *. cbn [filter isConsole negb].
    rewrite filter_app, Qp. cbn [app filter].
    destruct P as (metrics & -> & _). cbn [isConsole negb].
    rewrite filter_app, Qq. cbn [app filter isConsole negb].
    rewrite Ql. reflexivity. }
  destruct Et as (mid & Et & Em).
  unfold bind at 1. rewrite El, Et.
  destruct c as [[]|e|code].
  - run_M. rewrite <- !app_assoc. eexists. eexists. exists push, made, rest.
    split; [reflexivity|]. split; [exact P|].
    split; [rewrite effects_app, Em; cbn [app]; rewrite app_nil_r; reflexivity|].
    split; [exact M|]. split; [discriminate|]. split; [exact R|reflexivity].
  - exists (Thrown e), mid, push, made, rest.
    split; [reflexivity|]. split; [exact P|]. split; [exact Em|].
    split; [exact M|]. split; [discriminate|]. split; [discriminate|exact L].
  - destruct (NE code eq_refl).
Qed.

End EnhancedMain.

Lemma healthReport_effects (a : answer jsval) : effects [healthReport a] = [].
Proof.
  destruct a as [status data|message]; cbn [healthReport];
    [destruct ((200 <=? status) && (status <? 300))%Z|]; reflexivity.
Qed.

(** [main] of the simple test, from the empty trace: the header and the
    health check; then, by its answer, the exit with code 1, or the push,
    the wait and the query. *)
Lemma simple_main_cases (w : World) :
  exists c rest,
    SimpleTest.main w []
    = (c, healthAsked w "Simple Prometheus Remote Write Test" ++ rest)
    /\ if accepted (server w (healthAsked w "Simple Prometheus Remote Write Test"))
       then (forall n, c <> Exited n)
            /\ ((forall asked, loggable (queryServer w asked) = true) ->
                c = Normal tt)
            /\ exists push,
                 isPush w push
                 /\ effects rest
                    = [push; SetTimeout 2000; queryGet w "demo_counter_total"]
       else c = Exited 1 /\ effects rest = [].
Proof.
  unfold SimpleTest.main, PROMETHEUS_URL.
  rewrite bind_log. cbv beta. rewrite bind_ask. cbv beta.
  rewrite bind_log. cbv beta. rewrite bind_log. cbv beta.
  cbn [app].
  match goal with
  | |- context [bind getPrometheusStatus _ w ?tr] =>
      pose proof (health_check_run w tr) as G
  end.
  cbv zeta in G. cbn [app] in G. fold (healthGet w) in G.
  change [ConsoleLog "Simple Prometheus Remote Write Test" [];
          ConsoleLog "Prometheus URL: " [Str (baseUrl w)];
          ConsoleLog "==================================================" [];
          ConsoleLog "Checking Prometheus status..." [];
          healthGet w]
    with (healthAsked w "Simple Prometheus Remote Write Test") in G.
  rewrite (bind_normal _ _ _ _ _ _ G). cbv beta.
  set (asked := healthAsked w "Simple Prometheus Remote Write Test") in *.
  pose proof (healthReport_effects (server w asked)) as Qh.
  destruct (accepted (server w asked)); cbn [negb].
  - rewrite bind_ret.
    match goal with
    | |- context [bind _ _ w ?tr] =>
        destruct (simple_test_body w tr) as (c & t' & push & B & P & R & NE & L)
    end.
    rewrite B. exists c, (healthReport (server w asked) :: t').
    split; [reflexivity|].
    split; [exact NE|]. split; [exact L|]. exists push. split; [exact P|].
    change (healthReport (server w asked) :: t')
      with ([healthReport (server w asked)] ++ t').
    rewrite effects_app, Qh, R. reflexivity.
  - run_M. cbn [app].
    exists (Exited 1),
      ([healthReport (server w asked)]
       ++ [ConsoleLog "Make sure Prometheus is running and accessible." [];
           ConsoleLog "   You can start it with: docker-compose up -d" []]).
    split; [reflexivity|].
    split; [reflexivity|]. rewrite effects_app, Qh. reflexivity.
Qed.

Lemma enhanced_main_cases (toISOString : number -> option string) (w : World) :
  exists c rest,
    EnhancedTest.main toISOString w []
    = (c, healthAsked w "Enhanced Prometheus Remote Write Test" ++ rest)
    /\ if accepted
            (server w (healthAsked w "Enhanced Prometheus Remote Write Test"))
       then (forall n, c <> Exited n)
            /\ ((forall asked, loggable (queryServer w asked) = true) ->
                c = Normal tt)
            /\ exists push made unmade,
                 isPush w push
                 /\ effects rest
                    = push :: SetTimeout 2000 :: map (queryGet w) made
                 /\ map fst EnhancedTest.queries = made ++ unmade
                 /\ (c = Normal tt -> unmade = [])
       else c = Exited 1 /\ effects rest = [].
Proof.
  unfold EnhancedTest.main, PROMETHEUS_URL.
  rewrite bind_log. cbv beta. rewrite bind_ask. cbv beta.
  rewrite bind_log. cbv beta. rewrite bind_log. cbv beta.
  cbn [app].
  match goal with
  | |- context [bind getPrometheusStatus _ w ?tr] =>
      pose proof (health_check_run w tr) as G
  end.
  cbv zeta in G. cbn [app] in G. fold (healthGet w) in G.
  change [ConsoleLog "Enhanced Prometheus Remote Write Test" [];
          ConsoleLog "Prometheus URL: " [Str (baseUrl w)];
          ConsoleLog "==================================================" [];
          ConsoleLog "Checking Prometheus status..." [];
          healthGet w]
    with (healthAsked w "Enhanced Prometheus Remote Write Test") in G.
  rewrite (bind_normal _ _ _ _ _ _ G). cbv beta.
  set (asked := healthAsked w "Enhanced Prometheus Remote Write Test") in *.
  pose proof (healthReport_effects (server w asked)) as Qh.
  destruct (accepted (server w asked)); cbn [negb].
  - rewrite bind_ret.
    match goal with
    | |- context [bind _ _ w ?tr] =>
        destruct (enhanced_test_body toISOString w tr)
          as (c & t' & push & made & unmade & B & P & R & M & NE & U & L)
    end.
    rewrite B. exists c, (healthReport (server w asked) :: t').
    split; [reflexivity|].
    split; [exact NE|]. split; [exact L|]. exists push, made, unmade.
    split; [exact P|]. split; [|split; [exact M|exact U]].
    change (healthReport (server w asked) :: t')
      with ([healthReport (server w asked)] ++ t').
    rewrite effects_app, Qh, R. reflexivity.
  - run_M. cbn [app].
    exists (Exited 1),
      ([healthReport (server w asked)]
       ++ [ConsoleLog "Make sure Prometheus is running and accessible." [];
           ConsoleLog "   You can start it with: docker-compose up -d" []]).
    split; [reflexivity|].
    split; [reflexivity|]. rewrite effects_app, Qh. reflexivity.
Qed.

(** The run of a script whose [main] began with the header and the health
    check. *)
Lemma run_cases (main : M unit) (w : World) (title : string) (c : completion unit)
  (rest : trace) :
  main w [] = (c, healthAsked w title ++ rest) ->
  exists tail,
    snd (runMain main w) = healthAsked w title ++ rest ++ tail
    /\ effects tail = []
    /\ match c with
       | Normal _ => fst (runMain main w) = 0%Z /\ tail = []
       | Thrown e =>
           fst (runMain main w) = 1%Z
           /\ tail = [ConsoleError "Test failed:" [Err e]]
       | Exited code => fst (runMain main w) = code /\ tail = []
       end.
Proof.
  intros E. unfold runMain. rewrite E. destruct c as [[]|e|code]; cbn [fst snd].
  - exists []. rewrite app_nil_r. auto.
  - eexists. rewrite <- app_assoc. split; [reflexivity|]. auto.
  - exists []. rewrite app_nil_r. auto.
Qed.

Lemma healthAsked_split (w : World) (title : string) (rest : trace) :
  healthAsked w title ++ rest
  = [ConsoleLog title [];
     ConsoleLog "Prometheus URL: " [Str (baseUrl w)];
     ConsoleLog "==================================================" [];
     ConsoleLog "Checking Prometheus status..." []]
    ++ healthGet w :: rest.
Proof. reflexivity. Qed.

(** ** C8 *)

(** C8.  In both test scripts the run begins with the health check, before
    any other request.  When the check is not answered by a 2xx response --
    another status, or no answer at all -- the process exits with code 1 and
    no write is attempted.  When it is, the metrics are pushed once, and the
    exit code is 0 when the run goes to its end: it does whenever every
    answer to a query can be reported, whatever became of the send; the only
    other end is the rejection of [main], reported by [Test failed:] with
    code 1. *)
Theorem health_check_guards_run :
  forall (toISOString : number -> option string) (w : World),
    (exists pre rest,
       snd (SimpleTest.run w) = pre ++ healthGet w :: rest
       /\ filter isRequest pre = []
       /\ (accepted (server w (pre ++ [healthGet w])) = false ->
           fst (SimpleTest.run w) = 1%Z
           /\ filter isWrite (snd (SimpleTest.run w)) = [])
       /\ (accepted (server w (pre ++ [healthGet w])) = true ->
           (exists push, filter isWrite rest = [push])
           /\ ((forall asked, loggable (queryServer w asked) = true) ->
               fst (SimpleTest.run w) = 0%Z)
           /\ (fst (SimpleTest.run w) = 0%Z
               \/ fst (SimpleTest.run w) = 1%Z
                  /\ exists e, In (ConsoleError "Test failed:" [Err e]) rest)))
    /\ (exists pre rest,
          snd (EnhancedTest.run toISOString w) = pre ++ healthGet w :: rest
          /\ filter isRequest pre = []
          /\ (accepted (server w (pre ++ [healthGet w])) = false ->
              fst (EnhancedTest.run toISOString w) = 1%Z
              /\ filter isWrite (snd (EnhancedTest.run toISOString w)) = [])
          /\ (accepted (server w (pre ++ [healthGet w])) = true ->
              (exists push, filter isWrite rest = [push])
              /\ ((forall asked, loggable (queryServer w asked) = true) ->
                  fst (EnhancedTest.run toISOString w) = 0%Z)
              /\ (fst (EnhancedTest.run toISOString w) = 0%Z
                  \/ fst (EnhancedTest.run toISOString w) = 1%Z
                     /\ exists e,
                          In (ConsoleError "Test failed:" [Err e]) rest))).
Proof.
  intros toISO w. split.
  - destruct (simple_main_cases w) as (c & rest & E & C).
    destruct (run_cases _ w _ c rest E) as (tail & R & Qt & F).
    fold (SimpleTest.run w) in R, F. rewrite healthAsked_split in R.
    eexists. exists (rest ++ tail). split; [exact R|]. split; [reflexivity|].
    change (_ ++ [healthGet w])
      with (healthAsked w "Simple Prometheus Remote Write Test").
    split.
    + intros A. rewrite A in C. destruct C as [-> Qr].
      destruct F as [F _]. split; [exact F|]. rewrite R.
      rewrite filter_write_effects. unfold effects at 1.
      cbn [app filter isConsole negb healthGet].
      fold (effects (rest ++ tail)). rewrite effects_app, Qr, Qt. reflexivity.
    + intros A. rewrite A in C. destruct C as (NE & L & push & P & Qr).
      split; [|split].
      * exists push. rewrite filter_write_effects, effects_app, Qr, Qt.
        destruct P as (metrics & -> & _). reflexivity.
      * intros La. rewrite (L La) in F. apply F.
      * destruct c as [[]|e|code].
        -- left. apply F.
        -- right. destruct F as [F ->]. split; [exact F|]. exists e.
           apply in_or_app. right. left. reflexivity.
        -- destruct (NE code eq_refl).
  - destruct (enhanced_main_cases toISO w) as (c & rest & E & C).
    destruct (run_cases _ w _ c rest E) as (tail & R & Qt & F).
    fold (EnhancedTest.run toISO w) in R, F. rewrite healthAsked_split in R.
    eexists. exists (rest ++ tail). split; [exact R|]. split; [reflexivity|].
    change (_ ++ [healthGet w])
      with (healthAsked w "Enhanced Prometheus Remote Write Test").
    split.
    + intros A. rewrite A in C. destruct C as [-> Qr].
      destruct F as [F _]. split; [exact F|]. rewrite R.
      rewrite filter_write_effects. unfold effects at 1.
      cbn [app filter isConsole negb healthGet].
      fold (effects (rest ++ tail)). rewrite effects_app, Qr, Qt. reflexivity.
    + intros A. rewrite A in C.
      destruct C as (NE & L & push & made & unmade & P & Qr & _).
      split; [|split].
      * exists push. rewrite filter_write_effects, effects_app, Qr, Qt.
        destruct P as (metrics & -> & _). cbn [app filter isWrite].
        rewrite app_nil_r. f_equal.
        clear. induction made; [reflexivity|assumption].
      * intros La. rewrite (L La) in F. apply F.
      * destruct c as [[]|e|code].
        -- left. apply F.
        -- right. destruct F as [F ->]. split; [exact F|]. exists e.
           apply in_or_app. right. left. reflexivity.
        -- destruct (NE code eq_refl).
Qed.

(** ** C9 *)

(** C9.  A query answered by a 2xx response whose body has status
    [success] and an empty result array is reported by the line
    [No data found for this query], on the console's standard output and
    with no error line; the function returns normally.  A query whose
    request gets no answer (connection failure, timeout) is reported by one
    error line and the function returns normally as well, so that the loop
    of the script goes on with the queries that follow; and in a run whose
    health check succeeded and in which every answer to a query can be
    reported, the five queries of the fixed sequence are all made, in
    order, whatever the answers are. *)
Theorem query_outcomes :
  forall (toISOString : number -> option string) (w : World),
    (forall (t : trace) (query name : string),
        let asked :=
          t ++ [ConsoleLog "Querying: " [Str name];
                ConsoleLog "   Query: " [Str query];
                queryGet w query] in
        (forall status body,
            queryServer w asked = Response status body ->
            (200 <= status < 300)%Z ->
            emptySuccess body = true ->
            EnhancedTest.queryPrometheus toISOString query name w t
            = (Normal tt,
               asked ++ [ConsoleLog "   Status: " [Str "success"];
                         ConsoleLog "   No data found for this query" []]))
        /\ (forall message,
              queryServer w asked = NoResponse message ->
              EnhancedTest.queryPrometheus toISOString query name w t
              = (Normal tt,
                 asked ++ [ConsoleError "   Error querying Prometheus: "
                             [Str message]])
              /\ forall more : list (string * string),
                   forOf ((query, name) :: more) (fun queryInfo =>
                     EnhancedTest.queryPrometheus toISOString
                       (fst queryInfo) (snd queryInfo) ;;
                     console_log EmptyString []) w t
                   = forOf more (fun queryInfo =>
                       EnhancedTest.queryPrometheus toISOString
                         (fst queryInfo) (snd queryInfo) ;;
                       console_log EmptyString []) w
                       (asked
                        ++ [ConsoleError "   Error querying Prometheus: "
                              [Str message];
                            ConsoleLog EmptyString []])))
    /\ (exists pre rest,
          snd (EnhancedTest.run toISOString w) = pre ++ healthGet w :: rest
          /\ filter isRequest pre = []
          /\ (accepted (server w (pre ++ [healthGet w])) = true ->
              (forall asked, loggable (queryServer w asked) = true) ->
              filter isGet rest
              = map (queryGet w)
                  ["demo_counter_total"; "demo_gauge"; "http_requests_total";
                   "http_request_duration_seconds"; "custom_metric"])).
Proof.
  intros toISO w. split.
  - intros t query name asked. fold (queryAsked w t query name) in asked.
    split.
    + intros status body A Hs Hb.
      apply (enhanced_query_empty toISO query name w t status body A Hs Hb).
    + intros message A. split.
      * apply (enhanced_query_unanswered toISO query name w t message A).
      * intros more.
        apply (enhanced_loop_continues toISO query name more w t message A).
  - destruct (enhanced_main_cases toISO w) as (c & rest & E & C).
    destruct (run_cases _ w _ c rest E) as (tail & R & Qt & F).
    fold (EnhancedTest.run toISO w) in R, F. rewrite healthAsked_split in R.
    eexists. exists (rest ++ tail). split; [exact R|]. split; [reflexivity|].
    change (_ ++ [healthGet w])
      with (healthAsked w "Enhanced Prometheus Remote Write Test").
    intros A La. rewrite A in C.
    destruct C as (NE & L & push & made & unmade & P & Qr & M & U).
    rewrite (U (L La)), app_nil_r in M.
    rewrite filter_get_effects, effects_app, Qr, Qt, <- M.
    destruct P as (metrics & -> & _). reflexivity.
Qed.

(** * Further properties of the sources *)

Lemma word_not_quote (c : ascii) : isWord c = true -> isNotChar DQ c = true.
Proof. by_cases_on_char c. Qed.

(** The captures of a match of the label pattern. *)
Lemma labelRegex_captures (s m n v rest : string) :
  Regex.search Client.labelRegex s = Some (m, n, v, rest) ->
  metricName n = true /\ all (isNotChar DQ) v = true.
Proof.
  intros H. apply search_captures in H as (before & s1 & _ & H).
  unfold Client.labelRegex in H.
  apply plus_captures in H as (name & s2 & _ & T & A & H).
  apply char_captures in H as (c3 & s3 & _ & _ & H).
  apply char_captures in H as (c4 & s4 & _ & _ & H).
  apply star_captures in H as (value & s5 & _ & V & H).
  apply char_captures in H as (c6 & s6 & _ & _ & H).
  injection H as _ <- <- _. unfold metricName. rewrite T, A. auto.
Qed.

Lemma pushLabel_scraped (acc : list Label.t) (labelMatch : string) :
  Forall (fun l => scrapedLabel l = true) acc ->
  Forall (fun l => scrapedLabel l = true) (Client.pushLabel acc labelMatch).
Proof.
  intros H. unfold Client.pushLabel.
  destruct (Regex.search Client.labelRegex labelMatch)
    as [[[[m n] v] rest]|] eqn:E; [|exact H].
  destruct (truthy n && truthy v) eqn:G; [|exact H].
  apply labelRegex_captures in E as (N & V).
  apply andb_true_iff in G as [_ Tv].
  apply Forall_app. split; [exact H|]. constructor; [|constructor].
  unfold scrapedLabel. cbn [Label.name Label.value]. rewrite N, Tv, V. reflexivity.
Qed.

Lemma fold_pushLabel_scraped (labelMatches : list string) (acc : list Label.t) :
  Forall (fun l => scrapedLabel l = true) acc ->
  Forall (fun l => scrapedLabel l = true)
    (fold_left Client.pushLabel labelMatches acc).
Proof.
  revert acc. induction labelMatches as [|m ms IH]; intros acc H; simpl.
  - exact H.
  - apply IH, pushLabel_scraped, H.
Qed.

Lemma labels_scraped (name : string) (labelsStr : option string) :
  metricName name = true ->
  Forall (fun l => scrapedLabel l = true) (Client.labels name labelsStr).
Proof.
  intros N.
  assert (H0 : Forall (fun l => scrapedLabel l = true) [Label.mk "__name__" name]).
  { constructor; [|constructor]. unfold scrapedLabel. cbn [Label.name Label.value].
    unfold metricName in N. apply andb_true_iff in N as [T A].
    rewrite T, (all_weaken _ _ _ word_not_quote A). reflexivity. }
  unfold Client.labels.
  destruct labelsStr as [block|]; [|exact H0].
  destruct (truthy block); [|exact H0].
  destruct (Client.matchGlobal block) as [ms|]; [|exact H0].
  apply fold_pushLabel_scraped, H0.
Qed.

(** The scrape as the series of the lines of the text, filter left out. *)
Lemma timeseries_by_line (parseFloat : string -> number) (timestamp : Z)
  (metrics : string) :
  Client.timeseries parseFloat timestamp metrics
  = flat_map (Client.pushSeries parseFloat timestamp []) (split LF metrics).
Proof.
  unfold Client.timeseries, Client.lines.
  rewrite fold_pushSeries. cbn [app]. apply flat_map_kept.
Qed.

(** X2.  Every series that the scraper produces, from any text, is well
    formed: its first label is [__name__] with a metric name made of word
    characters; every further label has a word for its name and a value
    that is not empty and holds no double quote; its one sample carries the
    shared timestamp and the value that [parseFloat] reads from a text made
    of digits and dots only, so no sign and no exponent ever reaches
    [parseFloat]. *)
Theorem scraped_series_well_formed :
  forall (parseFloat : string -> number) (timestamp : Z) (metrics : string)
         (s : TimeSeries.t),
    In s (Client.timeseries parseFloat timestamp metrics) ->
    exists name scraped value,
      TimeSeries.labels s = Label.mk "__name__" name :: scraped
      /\ metricName name = true
      /\ Forall (fun l => scrapedLabel l = true) scraped
      /\ decimal value = true
      /\ TimeSeries.samples s = [Sample.mk (parseFloat value) timestamp].
Proof.
  intros pf ts metrics s H. rewrite timeseries_by_line in H.
  apply in_flat_map in H as (line & _ & H).
  destruct (Client.lineRegex line) as [[[name labelsStr] value]|] eqn:E.
  - rewrite (pushSeries_matched pf ts line name labelsStr value E) in H.
    destruct H as [<-|[]].
    apply lineRegex_captures in E as (N & D & _).
    pose proof (labels_scraped name labelsStr N) as L.
    destruct (labels_head name labelsStr) as (scraped & Hl).
    rewrite Hl in L. inversion L as [|? ? _ Ls]; subst.
    exists name, scraped, value. cbn [TimeSeries.labels TimeSeries.samples].
    auto.
  - unfold Client.pushSeries in H. rewrite E in H. destruct H.
Qed.

(** ** Lines *)

Lemma split_nonempty (s : string) : split LF s <> [].
Proof.
  destruct s as [|c s]; simpl; [discriminate|].
  destruct (Ascii.eqb c LF); [discriminate|].
  destruct (split LF s); discriminate.
Qed.

Lemma split_text_app (a b : string) :
  split LF (a +++ String LF b) = split LF a ++ split LF b.
Proof.
  induction a as [|c a IH]; simpl.
  - reflexivity.
  - destruct (Ascii.eqb c LF); rewrite IH; [reflexivity|].
    pose proof (split_nonempty a) as N.
    destruct (split LF a) as [|piece pieces]; [contradiction|reflexivity].
Qed.

Lemma timeseries_text_app (parseFloat : string -> number) (timestamp : Z)
  (a b : string) :
  Client.timeseries parseFloat timestamp (a +++ String LF b)
  = Client.timeseries parseFloat timestamp a
    ++ Client.timeseries parseFloat timestamp b.
Proof.
  rewrite !timeseries_by_line, split_text_app. apply flat_map_app.
Qed.

(** X3.  The scrape distributes over the lines of the text: the series of
    two texts joined by a line feed are the series of the first followed by
    the series of the second, whatever the texts hold; the empty text
    yields no series.  So the output keeps the order of the input, and a
    trailing line feed changes nothing. *)
Theorem scrape_concatenation :
  forall (parseFloat : string -> number) (timestamp : Z),
    (forall a b : string,
        Client.timeseries parseFloat timestamp (a +++ String LF b)
        = Client.timeseries parseFloat timestamp a
          ++ Client.timeseries parseFloat timestamp b)
    /\ Client.timeseries parseFloat timestamp EmptyString = []
    /\ (forall a : string,
          Client.timeseries parseFloat timestamp (a +++ str LF)
          = Client.timeseries parseFloat timestamp a).
Proof.
  intros pf ts. split; [|split].
  - intros a b. apply timeseries_text_app.
  - reflexivity.
  - intros a. unfold str. rewrite timeseries_text_app. apply app_nil_r.
Qed.

(** X4.  The filter on blank and comment lines is subsumed by the line
    pattern: a line that the filter drops is a line that the pattern does
    not match, so the scrape is the loop run over all the lines of the
    text, unfiltered. *)
Theorem line_filter_redundant :
  forall (parseFloat : string -> number) (timestamp : Z) (metrics : string),
    Forall (fun line => Client.keep line = false -> matched line = false)
      (split LF metrics)
    /\ Client.timeseries parseFloat timestamp metrics
       = fold_left (Client.pushSeries parseFloat timestamp) (split LF metrics) [].
Proof.
  intros pf ts metrics. split.
  - apply Forall_forall. intros line _ K. unfold matched.
    rewrite (keep_false_unmatched line K). reflexivity.
  - unfold Client.timeseries, Client.lines.
    rewrite !fold_pushSeries. cbn [app]. apply flat_map_kept.
Qed.

(** X5.  The scraper produces exactly one series for each line of the text
    that the line pattern matches: the guard on the captured name and value
    never turns a matched line away. *)
Theorem one_series_per_matched_line :
  forall (parseFloat : string -> number) (timestamp : Z) (metrics : string),
    List.length (Client.timeseries parseFloat timestamp metrics)
    = List.length (filter matched (split LF metrics)).
Proof.
  intros pf ts metrics. rewrite timeseries_by_line.
  induction (split LF metrics) as [|line ls IH]; [reflexivity|].
  cbn [flat_map filter]. rewrite length_app, IH. unfold matched at 2.
  destruct (Client.lineRegex line) as [[[name labelsStr] value]|] eqn:E.
  - rewrite (pushSeries_matched pf ts line name labelsStr value E). reflexivity.
  - unfold Client.pushSeries. rewrite E. reflexivity.
Qed.

(** X6.  What follows the value on a line is ignored: a line of the grammar
    followed by any text that does not go on with a digit or a dot (a
    timestamp of the exposition format after a blank, an exponent, a unit)
    is scraped as the line without that text. *)
Theorem trailing_text_ignored :
  forall (parseFloat : string -> number) (timestamp : Z)
         (name : string) (body : option string) (ws value rest : string),
    metricName name = true -> blockOK body = true ->
    blank ws = true -> decimal value = true ->
    stops isValueChar rest = true -> noLF rest = true ->
    Client.timeseries parseFloat timestamp
      (grammarLine name body ws value +++ rest)
    = Client.timeseries parseFloat timestamp (grammarLine name body ws value).
Proof.
  intros pf ts name body ws value rest N B W D S L.
  pose proof (noLF_grammarLine name body ws value N B W D) as G.
  rewrite !timeseries_line by (rewrite ?noLF_append, ?G, ?L; reflexivity).
  unfold Client.pushSeries, grammarLine.
  rewrite !append_assoc.
  rewrite (lineRegex_grammar name body ws value rest N B W D S).
  pose proof (lineRegex_grammar name body ws value EmptyString N B W D eq_refl) as E.
  rewrite append_nil_r in E. rewrite E. reflexivity.
Qed.

Lemma afterLabels_nonvalue (name : string) (lbl : option string)
  (ws : string) (c : ascii) (rest : string) :
  truthy ws = true -> allSpace ws = true ->
  stopsSpace (String c rest) = true -> isValueChar c = false ->
  Regex.spaces1
    (Regex.plus isValueChar (fun value _ => Some (name, lbl, value)))
    (ws +++ String c rest)
  = None.
Proof.
  intros Hne Hws Hs Hv.
  rewrite spaces1_longest; try assumption.
  - apply plus_head, Hv.
  - apply value_after_space.
Qed.

Lemma lineRegex_nonvalue (name : string) (body : option string)
  (ws : string) (c : ascii) (rest : string) :
  metricName name = true -> blockOK body = true -> blank ws = true ->
  stopsSpace (String c rest) = true -> isValueChar c = false ->
  Client.lineRegex (name +++ blockText body +++ ws +++ String c rest) = None.
Proof.
  intros Hname Hbody Hws Hs Hv.
  apply blank_parts in Hws as (Hw1 & Hw2 & _).
  rewrite lineRegex_unfold by (auto using stops_word_tail).
  destruct body as [b|].
  - unfold Regex.opt. cbn [blockText append]. rewrite append_assoc.
    cbn [append Regex.char]. change (isChar "{" "{") with true. cbv iota.
    rewrite block_star by (apply blockOK_body, Hbody).
    rewrite afterLabels_nonvalue by assumption.
    apply spaces1_stops, stopsSpace_head. reflexivity.
  - change (blockText None +++ ws +++ String c rest) with (ws +++ String c rest).
    rewrite opt_skipped by (apply block_needs_brace; assumption).
    apply afterLabels_nonvalue; assumption.
Qed.

(** X7.  A line whose value does not begin with a digit or a dot yields no
    series: not only a negative value, but also [NaN], [+Inf], [-Inf] and
    any other text after the white space.  Such a sample is dropped without
    a trace in the request. *)
Theorem non_decimal_value_skipped :
  forall (parseFloat : string -> number) (timestamp : Z)
         (name : string) (body : option string) (ws : string) (c : ascii)
         (rest : string),
    metricName name = true -> blockOK body = true -> blank ws = true ->
    stopsSpace (String c rest) = true -> isValueChar c = false ->
    noLF (String c rest) = true ->
    Client.timeseries parseFloat timestamp
      (name +++ blockText body +++ ws +++ String c rest)
    = [].
Proof.
  intros pf ts name body ws c rest N B W Hs Hv L.
  rewrite timeseries_by_line.
  assert (Hl : noLF (name +++ blockText body +++ ws +++ String c rest) = true).
  { pose proof (noLF_grammarLine name body ws "0" N B W eq_refl) as G.
    unfold grammarLine in G. rewrite !noLF_append in G.
    rewrite !noLF_append, L.
    apply andb_true_iff in G as [G1 G]. apply andb_true_iff in G as [G2 G].
    apply andb_true_iff in G as [G3 _]. rewrite G1, G2, G3. reflexivity. }
  rewrite (split_line _ Hl). cbn [flat_map]. rewrite app_nil_r.
  unfold Client.pushSeries.
  rewrite (lineRegex_nonvalue name body ws c rest N B W Hs Hv). reflexivity.
Qed.

Lemma word_not_linefeed (c : ascii) : isWord c = true -> isNotChar LF c = true.
Proof. by_cases_on_char c. Qed.

Lemma lineRegex_unfollowed_block (name body rest : string) :
  metricName name = true -> all (isNotChar "}") body = true ->
  stopsSpace rest = true ->
  Client.lineRegex (name +++ "{" +++ body +++ "}" +++ rest) = None.
Proof.
  intros N B S.
  rewrite lineRegex_unfold by (exact N || reflexivity).
  unfold Regex.opt. cbn [append Regex.char]. change (isChar "{" "{") with true.
  cbv iota. rewrite block_star by exact B.
  rewrite (spaces1_stops _ rest S).
  apply spaces1_stops, stopsSpace_head. reflexivity.
Qed.

(** X8.  A label block must be followed by white space: a line whose first
    closing brace is followed by anything else yields no series.  So a line
    with a closing brace inside a label value (an endpoint such as
    [/api/{id}]) is dropped, whatever its value. *)
Theorem brace_in_label_value_drops_line :
  forall (parseFloat : string -> number) (timestamp : Z)
         (name body rest : string),
    metricName name = true -> all (isNotChar "}") body = true ->
    stopsSpace rest = true -> noLF (body +++ rest) = true ->
    Client.timeseries parseFloat timestamp
      (name +++ "{" +++ body +++ "}" +++ rest)
    = [].
Proof.
  intros pf ts name body rest N B S L.
  rewrite timeseries_by_line.
  assert (Hl : noLF (name +++ "{" +++ body +++ "}" +++ rest) = true).
  { rewrite noLF_append in L. apply andb_true_iff in L as [L1 L2].
    unfold metricName in N. apply andb_true_iff in N as [_ N].
    rewrite !noLF_append, L1, L2.
    unfold noLF at 1. rewrite (all_weaken _ _ _ word_not_linefeed N).
    reflexivity. }
  rewrite (split_line _ Hl). cbn [flat_map]. rewrite app_nil_r.
  unfold Client.pushSeries.
  rewrite (lineRegex_unfollowed_block name body rest N B S). reflexivity.
Qed.

(** X9.  Splitting a text at the line feeds loses nothing: no piece holds a
    line feed, there is at least one piece, and joining the pieces with
    line feeds gives the text back. *)
Theorem split_lines_roundtrip :
  forall s : string,
    unlines (split LF s) = s
    /\ Forall (fun line => noLF line = true) (split LF s)
    /\ split LF s <> [].
Proof.
  intros s. split; [|split; [|apply split_nonempty]].
  - induction s as [|c s IH]; [reflexivity|]. simpl.
    pose proof (split_nonempty s) as N.
    destruct (Ascii.eqb c LF) eqn:Hc.
    + apply Ascii.eqb_eq in Hc as ->.
      destruct (split LF s) as [|piece pieces]; [contradiction|].
      unfold unlines in *. rewrite <- IH. reflexivity.
    + destruct (split LF s) as [|piece pieces]; [contradiction|].
      unfold unlines in *. rewrite <- IH.
      destruct pieces; reflexivity.
  - induction s as [|c s IH]; simpl.
    + constructor; [reflexivity|constructor].
    + pose proof (split_nonempty s) as N.
      destruct (Ascii.eqb c LF) eqn:Hc.
      * constructor; [reflexivity|exact IH].
      * destruct (split LF s) as [|piece pieces]; [contradiction|].
        inversion IH as [|? ? Hp Hps]; subst.
        constructor; [|exact Hps].
        unfold noLF in *. cbn [all]. unfold isNotChar at 1. rewrite Hc, Hp.
        reflexivity.
Qed.

(** X10.  Serialization follows the lines as well: the bytes of the request
    scraped from two texts joined by a line feed are the bytes for the
    first followed by the bytes for the second. *)
Theorem serialized_scrape_concatenation :
  forall (parseFloat : string -> number) (timestamp : Z) (a b : string),
    encodedBytes (Client.timeseries parseFloat timestamp (a +++ String LF b))
    = encodedBytes (Client.timeseries parseFloat timestamp a)
      ++ encodedBytes (Client.timeseries parseFloat timestamp b).
Proof.
  intros pf ts a b. unfold encodedBytes.
  rewrite !WriteRequest_encode_request, timeseries_text_app.
  apply flat_map_app.
Qed.

(** * The clients *)

(** ** Sending *)

Lemma timeseries_unmatched (parseFloat : string -> number) (timestamp : Z)
  (metrics : string) :
  Forall (fun line => matched line = false) (split LF metrics) ->
  Client.timeseries parseFloat timestamp metrics = [].
Proof.
  intros H. rewrite timeseries_by_line.
  induction H as [|line ls Hl _ IH]; [reflexivity|].
  cbn [flat_map]. rewrite IH, app_nil_r.
  unfold matched in Hl. unfold Client.pushSeries.
  destruct (Client.lineRegex line); [discriminate Hl|reflexivity].
Qed.

(** X11.  A text without a line that the pattern matches (an empty text,
    comments only) is still sent: the request scraped from it has no
    series, it passes validation and serializes to the empty buffer, and the
    POST is made with the compression of that buffer as its body; the answer
    is then reported as for any other request. *)
Theorem unmatched_text_still_posted :
  forall (snappy_compress : list byte -> list byte)
         (parseFloat : string -> number) (w : World) (t : trace)
         (metrics : string),
    registry w t = Exposition metrics ->
    Forall (fun line => matched line = false) (split LF metrics) ->
    let posted :=
      t ++ [AxiosPost (baseUrl w +++ "/api/v1/write") (snappy_compress [])
              [("Content-Type", "application/x-protobuf");
               ("Content-Encoding", "snappy");
               ("X-Prometheus-Remote-Write-Version", "0.1.0")]
              5000] in
    Client.sendMetricsToPrometheus snappy_compress parseFloat w t
    = (reported (server w posted),
       posted ++ postReport (clock w posted) (server w posted))
    /\ filter isRequest (postReport (clock w posted) (server w posted)) = [].
Proof.
  intros compress pf w t metrics R U posted.
  assert (N : Client.metricsToRemoteWrite compress pf w t
              = (Normal (compress []), t)).
  { unfold Client.metricsToRemoteWrite. rewrite bind_ask. cbv beta.
    rewrite R. cbn [awaitMetrics]. rewrite bind_ret. cbv beta.
    unfold Date_now. rewrite bind_ask. cbv beta.
    rewrite (timeseries_unmatched pf (clock w t) metrics U). reflexivity. }
  split; [exact (full_path_run compress pf w t (compress []) N)|].
  apply effects_requests, postReport_effects.
Qed.

(** X12.  When the encode step throws -- the registry rejects, or validation
    fails -- nothing is requested: [sendMetricsToPrometheus] logs the message
    of the error on the error stream and returns normally. *)
Theorem encode_failure_sends_nothing :
  forall (snappy_compress : list byte -> list byte)
         (parseFloat : string -> number) (w : World) (t : trace) (e : error),
    Client.metricsToRemoteWrite snappy_compress parseFloat w t = (Thrown e, t) ->
    exists t',
      Client.sendMetricsToPrometheus snappy_compress parseFloat w t
      = (Normal tt,
         t ++ ConsoleError "Failed to send metrics to Prometheus: "
                [Str (messageOf e)] :: t')
      /\ filter isRequest
           (ConsoleError "Failed to send metrics to Prometheus: "
              [Str (messageOf e)] :: t') = [].
Proof.
  intros compress pf w t e T. exists [].
  split; [exact (encode_failure_run compress pf w t e T)|reflexivity].
Qed.

(** X13.  What the full path reports.  After the encode step, the send
    makes its POST and then reports the answer: for a 2xx response, the time
    and the status on the console; for any other response, on the error
    stream, the message, the status and the body of the response; without a
    response, the message alone.  It returns normally, except on a response
    outside 2xx whose body cannot be written into the line: the [catch]
    block then throws a TypeError after the line of the status, and the
    send rejects. *)
Theorem full_path_report :
  forall (snappy_compress : list byte -> list byte)
         (parseFloat : string -> number) (w : World) (t : trace)
         (data : list byte),
    Client.metricsToRemoteWrite snappy_compress parseFloat w t
    = (Normal data, t) ->
    let posted :=
      t ++ [AxiosPost (baseUrl w +++ "/api/v1/write") data
              [("Content-Type", "application/x-protobuf");
               ("Content-Encoding", "snappy");
               ("X-Prometheus-Remote-Write-Version", "0.1.0")]
              5000] in
    Client.sendMetricsToPrometheus snappy_compress parseFloat w t
    = (reported (server w posted),
       posted ++ postReport (clock w posted) (server w posted)).
Proof.
  intros compress pf w t data N.
  exact (full_path_run compress pf w t data N).
Qed.

(** X14.  The simple client pushes what it logged: four metrics, named
    [demo_counter_total], [demo_gauge], [demo_duration_seconds] and
    [custom_metric] in this order, the last with the value 42; one line for
    the count, one line for each metric, then one call of the push helper
    with these metrics, the write URL and the version header; then one line
    that reports how the helper settled.  It returns normally either way. *)
Theorem simple_push_payload :
  forall (w : World) (t : trace),
    exists metrics,
      SimpleClient.generateMetrics w t = (Normal metrics, t)
      /\ map fst metrics
         = ["demo_counter_total"; "demo_gauge"; "demo_duration_seconds";
            "custom_metric"]
      /\ In ("custom_metric", 4631107791820423168%Z) metrics
      /\ let pushed :=
           t ++ ConsoleLog "Sending  metrics to Prometheus..." [Int 4]
                :: map metricLine metrics
                ++ [PushMetrics metrics (baseUrl w +++ "/api/v1/write")
                      [("X-Prometheus-Remote-Write-Version", "0.1.0")]] in
         SimpleClient.sendMetricsToPrometheus w t
         = (Normal tt,
            pushed ++ [pushReport (clock w pushed) (server w pushed)]).
Proof. intros w t. exact (simple_send_run w t). Qed.

Section FullPathEffects.
Variable snappy_compress : list byte -> list byte.
Variable parseFloat : string -> number.

(** The send of the full path besides its lines on the console: one POST,
    or nothing when the encode step threw. *)
Lemma client_send_effects (w : World) (t : trace) :
  exists c t',
    Client.sendMetricsToPrometheus snappy_compress parseFloat w t
    = (c, t ++ t')
    /\ (forall code, c <> Exited code)
    /\ ((forall asked, loggable (server w asked) = true) -> c = Normal tt)
    /\ (effects t' = [] \/ exists post, isPost w post /\ effects t' = [post]).
Proof.
  destruct (client_send snappy_compress parseFloat w t)
    as (c & t' & S & [(e & _ & -> & Q & _)|(data & post & _ & -> & Q & -> & _)]).
  - exists (Normal tt), t'. split; [exact S|]. split; [discriminate|].
    split; [reflexivity|]. left. exact Q.
  - eexists. eexists. split; [exact S|]. unfold reported.
    split; [intros code; destruct (loggable _); discriminate|].
    split; [intros L; rewrite L; reflexivity|].
    right. eexists. split; [exists data; reflexivity|].
    unfold effects in *. cbn [filter isConsole negb]. rewrite Q. reflexivity.
Qed.

(** X15.  Besides writing on the console, [generateAndSendMetrics] of the
    full path does exactly this, in either client: it updates each
    registered custom metric once, in the order of registration, and then
    makes at most one request, the POST to the write endpoint.  The store is
    updated before the registry is read, the updates are made also when the
    send fails, and nothing is retried.  The function never exits the
    process, and it returns normally when every answer of the server can be
    reported. *)
Theorem generate_and_send_effects :
  forall (w : World) (t : trace),
    (exists c t' updates rest,
        Client.generateAndSendMetrics snappy_compress parseFloat w t
        = (c, t ++ t')
        /\ (forall code, c <> Exited code)
        /\ ((forall asked, loggable (server w asked) = true) -> c = Normal tt)
        /\ effects t' = updates ++ rest
        /\ map updated updates
           = map (fun m => Some (Metric.name m)) ClientRegister.register
        /\ (rest = [] \/ exists post, isPost w post /\ rest = [post]))
    /\ (exists c t' updates rest,
          EnhancedClient.generateAndSendMetrics snappy_compress parseFloat w t
          = (c, t ++ t')
          /\ (forall code, c <> Exited code)
          /\ ((forall asked, loggable (server w asked) = true) -> c = Normal tt)
          /\ effects t' = updates ++ rest
          /\ map updated updates
             = map (fun m => Some (Metric.name m)) EnhancedClient.register
          /\ (rest = [] \/ exists post, isPost w post /\ rest = [post])).
Proof.
  intros w t. split.
  - unfold Client.generateAndSendMetrics.
    assert (U : exists tu,
               Client.updateMetrics w t = (Normal tt, t ++ tu)
               /\ map updated (effects tu)
                  = map (fun m => Some (Metric.name m)) ClientRegister.register).
    { unfold Client.updateMetrics. run_M. rewrite <- !app_assoc. cbn [app].
      eexists. split; reflexivity. }
    destruct U as (tu & U & Mu).
    rewrite (bind_normal _ _ _ _ _ _ U).
    destruct (client_send_effects w (t ++ tu)) as (c & ts & S & NE & L & R).
    rewrite S. rewrite <- app_assoc.
    exists c, (tu ++ ts), (effects tu), (effects ts).
    split; [reflexivity|]. split; [exact NE|]. split; [exact L|].
    split; [apply effects_app|]. split; [exact Mu|].
    destruct R as [->|(post & P & ->)]; [left; reflexivity|right].
    exists post. split; [exact P|reflexivity].
  - unfold EnhancedClient.generateAndSendMetrics.
    assert (U : exists tu,
               EnhancedClient.updateMetrics w t = (Normal tt, t ++ tu)
               /\ map updated (effects tu)
                  = map (fun m => Some (Metric.name m)) EnhancedClient.register).
    { unfold EnhancedClient.updateMetrics, EnhancedClient.update. run_M.
      rewrite <- !app_assoc. cbn [app]. eexists. split; reflexivity. }
    destruct U as (tu & U & Mu).
    rewrite (bind_normal _ _ _ _ _ _ U).
    destruct (client_send_effects w (t ++ tu)) as (c & ts & S & NE & L & R).
    rewrite S. rewrite <- app_assoc.
    exists c, (tu ++ ts), (effects tu), (effects ts).
    split; [reflexivity|]. split; [exact NE|]. split; [exact L|].
    split; [apply effects_app|]. split; [exact Mu|].
    destruct R as [->|(post & P & ->)]; [left; reflexivity|right].
    exists post. split; [exact P|reflexivity].
Qed.

End FullPathEffects.

(** ** The updates of the metric store *)

Lemma pick_in (xs : list string) (index : number) (fallback : string) :
  In fallback xs -> In (EnhancedClient.pick xs index fallback) xs.
Proof.
  intros H. unfold EnhancedClient.pick, EnhancedClient.element.
  destruct (Number.isInteger index && (0 <=? Number.toInteger index)%Z);
    [|exact H].
  destruct (nth_error xs (Z.to_nat (Number.toInteger index))) as [x|] eqn:E;
    [|exact H].
  destruct (truthy x); [|exact H]. apply (nth_error_In _ _ E).
Qed.

(** X16.  [updateMetrics] never throws and requests nothing, in either
    client: it updates each registered custom metric once, in the order of
    registration, and every update gives one value to each label name that
    the metric declares, in the declared order and from the fixed values of
    that label -- also for the method, status and endpoint that the larger
    client draws at random, whatever index is drawn.  So [labels(...)] is
    always called with the right number of values, and the set of series
    that the clients can ever touch is finite. *)
Theorem updates_address_registered_metrics :
  forall (w : World) (t : trace),
    (exists t',
        Client.updateMetrics w t = (Normal tt, t ++ t')
        /\ map updated (effects t')
           = map (fun m => Some (Metric.name m)) ClientRegister.register
        /\ Forall (wellLabelled ClientRegister.register) (effects t'))
    /\ (exists t',
          EnhancedClient.updateMetrics w t = (Normal tt, t ++ t')
          /\ map updated (effects t')
             = map (fun m => Some (Metric.name m)) EnhancedClient.register
          /\ Forall (wellLabelled EnhancedClient.register) (effects t')).
Proof.
  intros w t. split.
  - unfold Client.updateMetrics. run_M. rewrite <- !app_assoc. cbn [app].
    eexists. split; [reflexivity|]. split; [reflexivity|].
    cbn [effects filter isConsole negb].
    repeat constructor.
    + exists ClientRegister.customCounter.
      split; [left; reflexivity|]. split; [reflexivity|].
      repeat constructor.
    + exists ClientRegister.customGauge.
      split; [right; left; reflexivity|]. split; [reflexivity|].
      repeat constructor.
    + exists ClientRegister.customHistogram.
      split; [right; right; left; reflexivity|]. split; [reflexivity|].
      repeat constructor.
  - unfold EnhancedClient.updateMetrics, EnhancedClient.update. run_M.
    rewrite <- !app_assoc. cbn [app].
    eexists. split; [reflexivity|]. split; [reflexivity|].
    cbn [effects filter isConsole negb].
    assert (Hm : forall i, In (EnhancedClient.pick EnhancedClient.httpMethods i "GET")
                            (labelDomain "method")).
    { intros i. apply pick_in. left. reflexivity. }
    assert (Hs : forall i, In (EnhancedClient.pick EnhancedClient.statusCodes i "200")
                            (labelDomain "status")).
    { intros i. apply pick_in. left. reflexivity. }
    assert (He : forall i, In (EnhancedClient.pick EnhancedClient.endpoints i
                                 "/api/v1/write")
                            (labelDomain "endpoint")).
    { intros i. apply pick_in. left. reflexivity. }
    repeat apply Forall_cons; [| | | | | |apply Forall_nil].
    + exists EnhancedClient.customCounter.
      split; [left; reflexivity|]. split; [reflexivity|].
      repeat constructor.
    + exists EnhancedClient.customGauge.
      split; [right; left; reflexivity|]. split; [reflexivity|].
      repeat constructor.
    + exists EnhancedClient.customHistogram.
      split; [right; right; left; reflexivity|]. split; [reflexivity|].
      repeat apply Forall2_cons; try apply Forall2_nil;
        try (left; reflexivity). right. left. reflexivity.
    + exists EnhancedClient.httpRequestsTotal.
      split; [right; right; right; left; reflexivity|]. split; [reflexivity|].
      repeat apply Forall2_cons; try apply Forall2_nil;
        [left; reflexivity|apply Hm|apply Hs|apply He].
    + exists EnhancedClient.httpRequestDuration.
      split; [do 4 right; left; reflexivity|]. split; [reflexivity|].
      repeat apply Forall2_cons; try apply Forall2_nil;
        [left; reflexivity|apply Hm|apply He|apply Hs].
    + exists EnhancedClient.customMetric.
      split; [do 5 right; left; reflexivity|]. split; [reflexivity|].
      repeat apply Forall2_cons; try apply Forall2_nil;
        try (left; reflexivity). right. left. reflexivity.
Qed.

(** ** The simple client that pushes time series *)

Lemma NoDup_strings (l : list string) :
  (fix distinct (l : list string) : bool :=
     match l with
     | [] => true
     | x :: rest =>
         negb (existsb (String.eqb x) rest) && distinct rest
     end) l = true ->
  NoDup l.
Proof.
  induction l as [|x l IH]; intros H; [constructor|].
  apply andb_true_iff in H as [Hx Hl]. constructor; [|apply IH, Hl].
  intros Hin. apply negb_true_iff in Hx.
  assert (E : existsb (String.eqb x) l = true).
  { apply existsb_exists. exists x. split; [exact Hin|apply String.eqb_refl]. }
  rewrite E in Hx. discriminate Hx.
Qed.

(** X17.  The six series that [generateMetrics] builds can all be pushed:
    each has a [__name__] label, first and not empty, label names that are
    pairwise distinct, and exactly one sample; all samples carry the one
    time read at the start, and no two series have the same name. *)
Theorem generated_series_pushable :
  forall (w : World) (t : trace),
    exists series,
      EnhancedSimpleClient.generateMetrics w t = (Normal series, t)
      /\ List.length series = 6
      /\ Forall (pushable (clock w t)) series
      /\ NoDup (map seriesName series).
Proof.
  intros w t. unfold EnhancedSimpleClient.generateMetrics. run_M.
  eexists. split; [reflexivity|]. split; [reflexivity|]. split.
  - repeat apply Forall_cons; try apply Forall_nil;
      (split; [eexists; eexists; split; reflexivity|];
       split; [apply NoDup_strings; reflexivity|eexists; reflexivity]).
  - cbn [map]. unfold seriesName. cbn.
    repeat constructor; cbn [In]; intuition discriminate.
Qed.

Section Helper.
Variable pushTimeseries :
  list EnhancedSimpleClient.Series -> string -> list (string * string) -> M unit.

(** X18.  The client lists the series and then calls the push helper once,
    with the generated series, the write URL and the version header.  The
    listing writes one console line for each series, in order and numbered
    from 1, and never fails, since every series has a sample to show.  When
    the helper returns, the send is reported; when it throws, the error is
    caught and its message logged; either way the function returns
    normally. *)
Theorem enhanced_simple_send_calls_helper_once :
  forall (w : World) (t : trace),
    exists series,
      EnhancedSimpleClient.generateMetrics w t = (Normal series, t)
      /\ EnhancedSimpleClient.sendMetricsToPrometheus pushTimeseries w t
         = match
             pushTimeseries series (baseUrl w +++ "/api/v1/write")
               [("X-Prometheus-Remote-Write-Version", "0.1.0")] w
               (t ++ ConsoleLog "Sending  timeseries to Prometheus..." [Int 6]
                  :: numbered seriesLine 0 series)
           with
           | (Normal _, t') =>
               (Normal tt,
                t' ++ [ConsoleLog "Metrics sent to Prometheus at "
                         [Time (clock w t')]])
           | (Thrown e, t') =>
               (Normal tt,
                t' ++ [ConsoleError "Failed to send metrics to Prometheus: "
                         [Str (messageOf e)]])
           | (Exited code, t') => (Exited code, t')
           end.
Proof.
  intros w t. eexists. split; [reflexivity|].
  unfold EnhancedSimpleClient.sendMetricsToPrometheus, tryCatch,
    EnhancedSimpleClient.generateMetrics, EnhancedSimpleClient.headers.
  run_M. cbn [forEach]. unfold EnhancedSimpleClient.logSeries.
  cbn [EnhancedSimpleClient.samples]. run_M.
  cbn [List.length]. change (Z.of_nat 6) with 6%Z.
  rewrite <- !app_assoc. cbn [app numbered]. unfold seriesLine, seriesName.
  cbn [hd EnhancedSimpleClient.samples EnhancedSimpleClient.labels
       Sample.value Sample.timestamp].
  match goal with
  | |- context [pushTimeseries ?s ?u ?h w ?tr] =>
      destruct (pushTimeseries s u h w tr) as [[[]|e|n] t']
  end; reflexivity.
Qed.

End Helper.

(** * The test scripts *)

(** ** The health check and the queries *)

(** X19.  The health check never throws and makes one request, a GET of
    [/-/healthy] with a timeout of 5000 ms; it returns [true] exactly when
    the answer is a 2xx response, and reports the answer on one line: the
    status on the console when healthy, else the message of the error on the
    error stream. *)
Theorem health_check_report :
  forall (w : World) (t : trace),
    let asked := t ++ [ConsoleLog "Checking Prometheus status..." [];
                       AxiosGet (baseUrl w +++ "/-/healthy") [] 5000] in
    getPrometheusStatus w t
    = (Normal (accepted (server w asked)),
       asked ++ [healthReport (server w asked)]).
Proof. intros w t. exact (health_check_run w t). Qed.

(** A [forEach] whose body writes one line for each element. *)
Lemma forEach_numbered {A : Type} (body : A -> Z -> M unit)
  (line : Z -> A -> event) (P : A -> Prop) :
  (forall x i w t, P x -> body x i w t = (Normal tt, t ++ [line i x])) ->
  forall xs from w t,
    Forall P xs ->
    forEach from xs body w t = (Normal tt, t ++ numbered line from xs).
Proof.
  intros Hb xs. induction xs as [|x xs IH]; intros from w t H.
  - cbn [forEach numbered]. rewrite app_nil_r. reflexivity.
  - inversion H as [|? ? Hx Hxs]; subst.
    cbn [forEach numbered]. rewrite (bind_normal _ _ _ _ _ _ (Hb x from w t Hx)).
    rewrite (IH _ _ _ Hxs). rewrite <- app_assoc. reflexivity.
Qed.

(** A [forEach] whose body throws at one element: the elements before it
    are done, the elements after it are not. *)
Lemma forEach_aborted {A : Type} (body : A -> Z -> M unit)
  (line : Z -> A -> event) (P : A -> Prop) (bad : A) (e : error) :
  (forall x i w t, P x -> body x i w t = (Normal tt, t ++ [line i x])) ->
  (forall i w t, body bad i w t = (Thrown e, t)) ->
  forall ok rest from w t,
    Forall P ok ->
    forEach from (ok ++ bad :: rest) body w t
    = (Thrown e, t ++ numbered line from ok).
Proof.
  intros Hb He ok rest. induction ok as [|x ok IH]; intros from w t H.
  - cbn [app forEach numbered]. unfold bind. rewrite He, app_nil_r. reflexivity.
  - inversion H as [|? ? Hx Hxs]; subst.
    cbn [app forEach numbered]. rewrite (bind_normal _ _ _ _ _ _ (Hb x from w t Hx)).
    rewrite (IH _ _ _ Hxs). rewrite <- app_assoc. reflexivity.
Qed.

(** X20.  A query that the server answers without success.  A 2xx response
    whose body has a status field other than [success] gives one console
    line, [Query failed:] with the error text of the body or
    [Unknown error], and the query returns normally.  A response outside
    2xx gives lines on the error stream: the message, the status, and the
    body when it can be written into the line; the query then returns
    normally.  On a body that cannot be written, the [catch] block throws
    after the line of the status, and the query rejects. *)
Theorem query_failure_reports :
  forall (toISOString : number -> option string) (w : World) (t : trace)
         (query name : string) (status : Z) (body : jsval),
    queryServer w (queryAsked w t query name) = Response status body ->
    (forall data : PrometheusResponse.t,
        (200 <= status < 300)%Z ->
        PrometheusResponse_ofJS body = Some data ->
        PrometheusResponse.status data <> "success" ->
        EnhancedTest.queryPrometheus toISOString query name w t
        = (Normal tt,
           queryAsked w t query name
           ++ [ConsoleLog "   Query failed: " [Str (queryError data)]]))
    /\ (~ (200 <= status < 300)%Z ->
        EnhancedTest.queryPrometheus toISOString query name w t
        = (if JS.printable body then Normal tt else Thrown notPrintable,
           queryAsked w t query name
           ++ [ConsoleError "   Error querying Prometheus: "
                 [Str (statusMessage status)];
               ConsoleError "      Status: " [Int status]]
           ++ (if JS.printable body
               then [ConsoleError "      Data: " [Json body]]
               else []))).
Proof.
  intros toISO w t query name status body A.
  unfold EnhancedTest.queryPrometheus, tryCatch, axios_get_query. run_M.
  rewrite <- !app_assoc. cbn [app]. fold (queryGet w query).
  fold (queryAsked w t query name). rewrite A. unfold settle.
  split.
  - intros data Hs D Hd. rewrite (accepted_status status Hs). run_M. cbn [snd].
    rewrite D. apply String.eqb_neq in Hd. rewrite Hd. run_M. reflexivity.
  - intros Hs. rewrite (rejected_status status Hs). run_M.
    pose proof (queryFailed_rejection (Response status body) w
                  (queryAsked w t query name)) as F.
    cbn [rejection accepted] in F. unfold statusMessage in F.
    rewrite (rejected_status status Hs) in F. rewrite (F eq_refl).
    unfold reported, loggable. cbn [accepted queryReport].
    rewrite (rejected_status status Hs). cbn [orb].
    destruct (JS.printable body); reflexivity.
Qed.

(** X21.  The query of the simple test lists what it found: for a 2xx
    response with status [success] and a result that is not empty, it logs
    the status, the number of results, and one line for each result, in the
    order of the response and numbered from 1, and returns normally. *)
Theorem simple_query_lists_results :
  forall (w : World) (t : trace) (status : Z) (body : jsval)
         (results : list PrometheusResponse.entry) (e : option string),
    queryServer w (simpleAsked w t) = Response status body ->
    PrometheusResponse_ofJS body
    = Some (PrometheusResponse.mk "success" (Some results) e) ->
    (200 <= status < 300)%Z ->
    results <> [] ->
    SimpleTest.queryPrometheus w t
    = (Normal tt,
       simpleAsked w t
       ++ [ConsoleLog "   Status: " [Str "success"];
           ConsoleLog "   Found  result(s):" [Int (Z.of_nat (List.length results))]]
       ++ numbered resultLine 0 results).
Proof.
  intros w t status body results e A D Hs Hr.
  destruct results as [|first more]; [contradiction|].
  unfold SimpleTest.queryPrometheus, tryCatch, axios_get_query.
  unfold PROMETHEUS_URL. rewrite !bind_log. cbv beta. rewrite bind_ask. cbv beta.
  rewrite bind_assoc, bind_emit. cbv beta. rewrite bind_assoc, bind_ask. cbv beta.
  rewrite <- !app_assoc. cbn [app]. fold (queryGet w "demo_counter_total").
  fold (simpleAsked w t). rewrite A. unfold settle.
  rewrite (accepted_status status Hs). rewrite bind_ret. cbv beta.
  cbn [snd]. rewrite D.
  cbn [PrometheusResponse.status PrometheusResponse.result String.eqb
       Ascii.eqb Bool.eqb].
  rewrite !bind_log. cbv beta.
  rewrite (forEach_numbered _ resultLine (fun _ => True)).
  - rewrite <- !app_assoc. reflexivity.
  - intros x i w0 t0 _. reflexivity.
  - clear. induction (first :: more); constructor; auto.
Qed.

Section EnhancedListing.
Variable toISOString : number -> option string.

(** The body of the listing of the enhanced test on a result whose time is
    a valid date. *)
Lemma timedLine_logged (result : PrometheusResponse.entry) (index : Z)
  (w : World) (t : trace) :
  validTime toISOString result ->
  (timestamp <- dateString (toISOString (fst (PrometheusResponse.value result))) ;;
   console_log "      .  =  @ "
     [Int (index + 1);
      Str (metricNameOf (PrometheusResponse.metric result));
      Str (braced (renderMetricLabels (PrometheusResponse.metric result)));
      Str (snd (PrometheusResponse.value result));
      Str timestamp]) w t
  = (Normal tt, t ++ [timedLine toISOString index result]).
Proof.
  intros [timestamp E]. unfold timedLine. rewrite E. reflexivity.
Qed.

(** X22.  A query of the enhanced test lists what it found: for a 2xx
    response with status [success] and a result that is not empty, all of
    whose times are valid dates, it logs the status, the number of results,
    and one line for each result with its time, in the order of the response
    and numbered from 1, and returns normally. *)
Theorem enhanced_query_lists_results :
  forall (w : World) (t : trace) (query name : string) (status : Z)
         (body : jsval) (results : list PrometheusResponse.entry)
         (e : option string),
    queryServer w (queryAsked w t query name) = Response status body ->
    PrometheusResponse_ofJS body
    = Some (PrometheusResponse.mk "success" (Some results) e) ->
    (200 <= status < 300)%Z ->
    results <> [] ->
    Forall (validTime toISOString) results ->
    EnhancedTest.queryPrometheus toISOString query name w t
    = (Normal tt,
       queryAsked w t query name
       ++ [ConsoleLog "   Status: " [Str "success"];
           ConsoleLog "   Found  result(s):" [Int (Z.of_nat (List.length results))]]
       ++ numbered (timedLine toISOString) 0 results).
Proof.
  intros w t query name status body results e A D Hs Hr Hv.
  destruct results as [|first more]; [contradiction|].
  unfold EnhancedTest.queryPrometheus, tryCatch, axios_get_query.
  unfold PROMETHEUS_URL. rewrite !bind_log. cbv beta. rewrite bind_ask. cbv beta.
  rewrite bind_assoc, bind_emit. cbv beta. rewrite bind_assoc, bind_ask. cbv beta.
  rewrite <- !app_assoc. cbn [app]. fold (queryGet w query).
  fold (queryAsked w t query name). rewrite A. unfold settle.
  rewrite (accepted_status status Hs). rewrite bind_ret. cbv beta.
  cbn [snd]. rewrite D.
  cbn [PrometheusResponse.status PrometheusResponse.result String.eqb
       Ascii.eqb Bool.eqb].
  rewrite !bind_log. cbv beta.
  rewrite (forEach_numbered _ (timedLine toISOString) (validTime toISOString)).
  - rewrite <- !app_assoc. reflexivity.
  - intros x i w0 t0 V. apply timedLine_logged, V.
  - exact Hv.
Qed.

(** X23.  One result whose time is not a valid date stops the listing: the
    results before it are printed, the results after it are not, and the
    query is reported as failed with the message of the RangeError, on the
    error stream, although the server answered with success.  The query
    still returns normally. *)
Theorem invalid_time_aborts_listing :
  forall (w : World) (t : trace) (query name : string) (status : Z)
         (body : jsval)
         (ok : list PrometheusResponse.entry) (bad : PrometheusResponse.entry)
         (rest : list PrometheusResponse.entry) (e : option string),
    queryServer w (queryAsked w t query name) = Response status body ->
    PrometheusResponse_ofJS body
    = Some (PrometheusResponse.mk "success" (Some (ok ++ bad :: rest)) e) ->
    (200 <= status < 300)%Z ->
    Forall (validTime toISOString) ok ->
    toISOString (fst (PrometheusResponse.value bad)) = None ->
    EnhancedTest.queryPrometheus toISOString query name w t
    = (Normal tt,
       queryAsked w t query name
       ++ [ConsoleLog "   Status: " [Str "success"];
           ConsoleLog "   Found  result(s):"
             [Int (Z.of_nat (List.length (ok ++ bad :: rest)))]]
       ++ numbered (timedLine toISOString) 0 ok
       ++ [ConsoleError "   Error querying Prometheus: "
             [Str "Invalid time value"]]).
Proof.
  intros w t query name status body ok bad rest e A D Hs Hv Hb.
  remember (ok ++ bad :: rest) as results eqn:R.
  destruct results as [|first more]; [destruct ok; discriminate R|].
  unfold EnhancedTest.queryPrometheus, tryCatch, axios_get_query.
  unfold PROMETHEUS_URL. rewrite !bind_log. cbv beta. rewrite bind_ask. cbv beta.
  rewrite bind_assoc, bind_emit. cbv beta. rewrite bind_assoc, bind_ask. cbv beta.
  rewrite <- !app_assoc. cbn [app]. fold (queryGet w query).
  fold (queryAsked w t query name). rewrite A. unfold settle.
  rewrite (accepted_status status Hs). rewrite bind_ret. cbv beta.
  cbn [snd]. rewrite D.
  cbn [PrometheusResponse.status PrometheusResponse.result String.eqb
       Ascii.eqb Bool.eqb].
  rewrite !bind_log. cbv beta. rewrite R.
  rewrite (forEach_aborted _ (timedLine toISOString) (validTime toISOString)
             bad (Error "Invalid time value")).
  - unfold queryFailed. run_M. cbn [axiosResponse messageOf]. run_M.
    rewrite <- !app_assoc. reflexivity.
  - intros x i w0 t0 V. apply timedLine_logged, V.
  - intros i w0 t0. rewrite Hb. reflexivity.
  - exact Hv.
Qed.

End EnhancedListing.

(** ** The runs *)

(** X24.  [main] rejects only through the [catch] block of a query.  In
    either test script and in any world (any answers of the server to the
    health check and to the push, any times in the results) in which every
    answer to a query can be reported, [main] either returns normally or
    leaves by [process.exit(1)] after a failed health check: the handler
    that the scripts attach to [main()] is not run, and the line
    [Test failed:] is not written. *)
Theorem test_main_rejects_only_unreported :
  forall (toISOString : number -> option string) (w : World),
    (forall asked, loggable (queryServer w asked) = true) ->
    (exists t,
        SimpleTest.main w [] = (Normal tt, t)
        \/ SimpleTest.main w [] = (Exited 1, t))
    /\ (exists t,
          EnhancedTest.main toISOString w [] = (Normal tt, t)
          \/ EnhancedTest.main toISOString w [] = (Exited 1, t)).
Proof.
  intros toISO w La. split.
  - destruct (simple_main_cases w) as (c & rest & E & C). eexists.
    destruct (accepted _).
    + destruct C as (_ & L & _). rewrite (L La) in E. left. exact E.
    + destruct C as (-> & _). right. exact E.
  - destruct (enhanced_main_cases toISO w) as (c & rest & E & C). eexists.
    destruct (accepted _).
    + destruct C as (_ & L & _). rewrite (L La) in E. left. exact E.
    + destruct C as (-> & _). right. exact E.
Qed.

(** X25.  Besides writing on the console, a run of a test script does
    exactly this, in this order: the health check; then, only when the
    check was answered 2xx, one push of the simple client, a wait of
    2000 ms, and the query -- for the enhanced test, the queries of the
    fixed sequence up to the first whose [catch] block throws, all five when
    every answer to a query can be reported.  The exit code is 1 when the
    health check fails, and 0 when it succeeds and every answer to a query
    can be reported. *)
Theorem test_run_effects :
  forall (toISOString : number -> option string) (w : World),
    (if accepted (server w (healthAsked w "Simple Prometheus Remote Write Test"))
     then (exists push,
              isPush w push
              /\ effects (snd (SimpleTest.run w))
                 = [healthGet w; push; SetTimeout 2000;
                    queryGet w "demo_counter_total"])
          /\ ((forall asked, loggable (queryServer w asked) = true) ->
              fst (SimpleTest.run w) = 0%Z)
     else fst (SimpleTest.run w) = 1%Z
          /\ effects (snd (SimpleTest.run w)) = [healthGet w])
    /\ (if accepted
             (server w (healthAsked w "Enhanced Prometheus Remote Write Test"))
        then (exists push made unmade,
                 isPush w push
                 /\ effects (snd (EnhancedTest.run toISOString w))
                    = healthGet w :: push :: SetTimeout 2000
                      :: map (queryGet w) made
                 /\ made ++ unmade
                    = ["demo_counter_total"; "demo_gauge"; "http_requests_total";
                       "http_request_duration_seconds"; "custom_metric"]
                 /\ ((forall asked, loggable (queryServer w asked) = true) ->
                     unmade = []))
             /\ ((forall asked, loggable (queryServer w asked) = true) ->
                 fst (EnhancedTest.run toISOString w) = 0%Z)
        else fst (EnhancedTest.run toISOString w) = 1%Z
             /\ effects (snd (EnhancedTest.run toISOString w)) = [healthGet w]).
Proof.
  intros toISO w. split.
  - destruct (simple_main_cases w) as (c & rest & E & C).
    destruct (run_cases _ w _ c rest E) as (tail & R & Qt & F).
    fold (SimpleTest.run w) in R, F. rewrite R.
    rewrite !effects_app, Qt, app_nil_r.
    destruct (accepted _).
    + destruct C as (NE & L & push & P & Qr). split.
      * exists push. split; [exact P|]. rewrite Qr. reflexivity.
      * intros La. rewrite (L La) in F. apply F.
    + destruct C as (-> & Qr). destruct F as [F _].
      split; [exact F|]. rewrite Qr. reflexivity.
  - destruct (enhanced_main_cases toISO w) as (c & rest & E & C).
    destruct (run_cases _ w _ c rest E) as (tail & R & Qt & F).
    fold (EnhancedTest.run toISO w) in R, F. rewrite R.
    rewrite !effects_app, Qt, app_nil_r.
    destruct (accepted _).
    + destruct C as (NE & L & push & made & unmade & P & Qr & M & U). split.
      * exists push, made, unmade. split; [exact P|].
        split; [rewrite Qr; reflexivity|]. split; [symmetry; exact M|].
        intros La. apply U, L, La.
      * intros La. rewrite (L La) in F. apply F.
    + destruct C as (-> & Qr). destruct F as [F _].
      split; [exact F|]. rewrite Qr. reflexivity.
Qed.

(** X26.  The enhanced test asks for more than it pushed.  In every run
    that passes the health check and in which every answer to a query can
    be reported, the metrics pushed are those of the simple client, and the
    queries for [http_requests_total] and [http_request_duration_seconds]
    are made although no metric of either name is among them. *)
Theorem enhanced_test_queries_unpushed_metrics :
  forall (toISOString : number -> option string) (w : World),
    accepted (server w (healthAsked w "Enhanced Prometheus Remote Write Test"))
    = true ->
    (forall asked, loggable (queryServer w asked) = true) ->
    exists metrics,
      In (PushMetrics metrics (baseUrl w +++ "/api/v1/write")
            [("X-Prometheus-Remote-Write-Version", "0.1.0")])
        (snd (EnhancedTest.run toISOString w))
      /\ In (queryGet w "http_requests_total")
           (snd (EnhancedTest.run toISOString w))
      /\ In (queryGet w "http_request_duration_seconds")
           (snd (EnhancedTest.run toISOString w))
      /\ ~ In "http_requests_total" (map fst metrics)
      /\ ~ In "http_request_duration_seconds" (map fst metrics).
Proof.
  intros toISO w A La.
  destruct (enhanced_main_cases toISO w) as (c & rest & E & C).
  destruct (run_cases _ w _ c rest E) as (tail & R & Qt & F).
  fold (EnhancedTest.run toISO w) in R. rewrite R. rewrite A in C.
  destruct C as (NE & L & push & made & unmade & (metrics & -> & Names) & Qr & M & U).
  rewrite (U (L La)), app_nil_r in M. rewrite <- M in Qr.
  assert (I : forall e, In e (effects rest) ->
              In e (healthAsked w "Enhanced Prometheus Remote Write Test"
                    ++ rest ++ tail)).
  { intros e He. unfold effects in He. apply filter_In in He.
    apply in_or_app. right. apply in_or_app. left. apply He. }
  exists metrics. rewrite Qr in I. rewrite Names.
  split; [apply I; left; reflexivity|].
  split; [apply I; do 4 right; left; reflexivity|].
  split; [apply I; do 5 right; left; reflexivity|].
  split; cbn [In]; intuition discriminate.
Qed.


(** ** The lines of a listing *)

Lemma truthy_append (a b : string) : truthy (a +++ b) = truthy a || truthy b.
Proof. destruct a; reflexivity. Qed.

Lemma join_truthy (sep : string) (piece : string) (pieces : list string) :
  truthy piece = true -> truthy (join sep (piece :: pieces)) = true.
Proof.
  intros H. cbn [join]. destruct pieces; [exact H|].
  rewrite truthy_append, H. reflexivity.
Qed.

Lemma renderMetricLabels_app (before after : list (string * string)) :
  filter (fun kv => negb (String.eqb (fst kv) "__name__")) (before ++ after)
  = filter (fun kv => negb (String.eqb (fst kv) "__name__")) before
    ++ filter (fun kv => negb (String.eqb (fst kv) "__name__")) after.
Proof. apply filter_app. Qed.

(** X27.  How a result is shown.  The [__name__] label never appears among
    the rendered labels, wherever it stands in the metric: the rendering is
    that of the metric without it, and no rendered label has that name; the
    braces are printed exactly when the metric has a label besides
    [__name__]; and a metric without a [__name__] label is shown under the
    name [unknown]. *)
Theorem result_rendering :
  forall metric : list (string * string),
    (forall before name after,
        metric = before ++ ("__name__", name) :: after ->
        renderMetricLabels metric = renderMetricLabels (before ++ after))
    /\ (exists shown,
          renderMetricLabels metric
          = join ", "
              (map (fun kv => fst kv +++ "=" +++ str DQ +++ snd kv +++ str DQ)
                 shown)
          /\ ~ In "__name__" (map fst shown)
          /\ forall kv, In kv shown <-> In kv metric /\ fst kv <> "__name__")
    /\ (braced (renderMetricLabels metric) = EmptyString
        <-> Forall (fun kv => fst kv = "__name__") metric)
    /\ (~ In "__name__" (map fst metric) -> metricNameOf metric = "unknown").
Proof.
  intros metric. split; [|split; [|split]].
  - intros before name after ->. unfold renderMetricLabels.
    rewrite !renderMetricLabels_app. reflexivity.
  - exists (filter (fun kv => negb (String.eqb (fst kv) "__name__")) metric).
    split; [reflexivity|]. split.
    + intros H. apply in_map_iff in H as (kv & Ek & H).
      apply filter_In in H as [_ H]. rewrite Ek in H. discriminate H.
    + intros kv. rewrite filter_In, negb_true_iff, String.eqb_neq. reflexivity.
  - unfold renderMetricLabels, braced.
    induction metric as [|[k v] metric IH].
    + split; [constructor|reflexivity].
    + cbn [filter fst]. destruct (String.eqb k "__name__") eqn:E; cbn [negb].
      * apply String.eqb_eq in E. subst k. rewrite IH. split.
        -- intros H. constructor; [reflexivity|exact H].
        -- intros H. inversion H; assumption.
      * cbn [map fst snd]. rewrite join_truthy.
        -- split; [discriminate|]. intros H. inversion H as [|? ? Hk _]; subst.
           cbn [fst] in Hk. subst k. discriminate E.
        -- rewrite !truthy_append. cbn. apply orb_true_r.
  - unfold metricNameOf. induction metric as [|[k v] metric IH]; [reflexivity|].
    intros H. cbn [property].
    destruct (String.eqb k "__name__") eqn:E.
    + apply String.eqb_eq in E. subst k. exfalso. apply H. left. reflexivity.
    + apply IH. intros Hin. apply H. right. exact Hin.
Qed.

(** * The theorems on sample inputs *)


(** C3, amended, on the sample line, between a comment line and a line
    without labels. *)
Lemma scraper_one_series_per_line_sample :
  (exists scraped,
     Client.timeseries sampleParseFloat 1700000000000
       (unlines (["# HELP demo_counter_total A demo counter"]
                 ++ grammarLine "demo_counter_total"
                      (Some ("service=" +++ str DQ +++ "demo-service" +++ str DQ))
                      " " "42"
                    :: ["demo_gauge 23.5"]))
     = Client.timeseries sampleParseFloat 1700000000000
         (unlines ["# HELP demo_counter_total A demo counter"])
       ++ [TimeSeries.mk (Label.mk "__name__" "demo_counter_total" :: scraped)
             [Sample.mk (sampleParseFloat "42") 1700000000000]]
       ++ Client.timeseries sampleParseFloat 1700000000000
            (unlines ["demo_gauge 23.5"]))
  /\ Forall (fun s => map Sample.timestamp (TimeSeries.samples s) = [1700000000000%Z])
       (Client.timeseries sampleParseFloat 1700000000000
          (unlines (["# HELP demo_counter_total A demo counter"]
                    ++ grammarLine "demo_counter_total"
                         (Some ("service=" +++ str DQ +++ "demo-service" +++ str DQ))
                         " " "42"
                       :: ["demo_gauge 23.5"]))).
Proof.
  apply (scraper_one_series_per_line sampleParseFloat 1700000000000
           ["# HELP demo_counter_total A demo counter"] ["demo_gauge 23.5"]
           "demo_counter_total"
           (Some ("service=" +++ str DQ +++ "demo-service" +++ str DQ)) " " "42");
    try reflexivity; repeat constructor.
Defined.

(** C4, amended, on a line whose block is not a plain list of pairs: blanks
    around the pairs, a label with an empty value, a value with a blank, and
    a last word without quotes. *)
Lemma scraped_labels_in_order_sample :
  Client.timeseries sampleParseFloat 1700000000000 looseLine
  = [TimeSeries.mk
       [Label.mk "__name__" "m"; Label.mk "a" "1"; Label.mk "c" "x y"]
       [Sample.mk (sampleParseFloat "7") 1700000000000]]
  /\ labelPairs
       ("{" +++ renderLabels [Label.mk "a" "1"; Label.mk "b" EmptyString] +++ "}")
     = [Label.mk "a" "1"; Label.mk "b" EmptyString].
Proof.
  destruct (scraped_labels_in_order sampleParseFloat 1700000000000 looseLine
              "m"
              ("{ a=" +++ str DQ +++ "1" +++ str DQ +++ ", b=" +++ str DQ
               +++ str DQ +++ ";; c=" +++ str DQ +++ "x y" +++ str DQ
               +++ " d=e }")
              "7" eq_refl eq_refl) as [E _].
  split; [exact E|].
  destruct (scraped_labels_in_order sampleParseFloat 1700000000000
              ("m{" +++ renderLabels [Label.mk "a" "1"; Label.mk "b" EmptyString]
               +++ "} 7")
              "m"
              ("{" +++ renderLabels [Label.mk "a" "1"; Label.mk "b" EmptyString]
               +++ "}")
              "7" eq_refl eq_refl) as [_ P].
  apply P; [repeat constructor|reflexivity].
Defined.

(** C5, amended, on a line with a negative value between two lines that
    match. *)
Lemma unmatched_lines_skipped_sample :
  Client.timeseries sampleParseFloat 1700000000000
    (unlines ([sampleLine] ++ "demo_gauge -5" :: ["demo_gauge 23.5"]))
  = Client.timeseries sampleParseFloat 1700000000000 (unlines [sampleLine])
    ++ Client.timeseries sampleParseFloat 1700000000000 (unlines ["demo_gauge 23.5"]).
Proof.
  apply (unmatched_lines_skipped sampleParseFloat 1700000000000
           [sampleLine] ["demo_gauge 23.5"] "demo_gauge -5").
  - repeat constructor.
  - repeat constructor.
  - reflexivity.
  - exact (skipped_negative "demo_gauge" None " " "5" eq_refl eq_refl eq_refl).
Defined.


(** C7 in a world whose server answers the write with status 500. *)
Lemma full_path_single_post_sample :
  let w := sampleWorld (Response 200 JNull) (Response 500 (JString "down"))
             (NoResponse "timeout") in
  exists data c t',
    Client.encodeWriteRequest storeCompress
      (JS.writeRequest (Client.timeseries sampleParseFloat (clock w []) sampleText))
    = Return data
    /\ Client.sendMetricsToPrometheus storeCompress sampleParseFloat w []
       = (c, [] ++ t')
    /\ filter isRequest t'
       = [AxiosPost (baseUrl w +++ "/api/v1/write") data
            [("Content-Type", "application/x-protobuf");
             ("Content-Encoding", "snappy");
             ("X-Prometheus-Remote-Write-Version", "0.1.0")]
            5000]
    /\ (forall code, c <> Exited code)
    /\ forall status body,
         server w
           ([] ++ [AxiosPost (baseUrl w +++ "/api/v1/write") data
                     [("Content-Type", "application/x-protobuf");
                      ("Content-Encoding", "snappy");
                      ("X-Prometheus-Remote-Write-Version", "0.1.0")]
                     5000])
         = Response status body ->
         ~ (200 <= status < 300)%Z ->
         failureLogged t'
         /\ In (ConsoleError "   Response status: " [Int status]) t'
         /\ (JS.printable body = true -> c = Normal tt).
Proof.
  intros w.
  apply (full_path_single_post storeCompress sampleParseFloat w [] sampleText).
  - reflexivity.
  - simpl. lia.
Defined.

(** C8 in a world without server, and in a world whose server is healthy
    and whose queries get no answer. *)
Lemma health_check_guards_run_sample :
  let down := sampleWorld (NoResponse "connect ECONNREFUSED")
                (NoResponse "connect ECONNREFUSED")
                (NoResponse "connect ECONNREFUSED") in
  let up := sampleWorld (Response 200 JNull) (Response 500 (JString "down"))
              (NoResponse "timeout") in
  (fst (SimpleTest.run down) = 1%Z
   /\ filter isWrite (snd (SimpleTest.run down)) = [])
  /\ (fst (EnhancedTest.run sampleISOString down) = 1%Z
      /\ filter isWrite (snd (EnhancedTest.run sampleISOString down)) = [])
  /\ fst (SimpleTest.run up) = 0%Z
  /\ fst (EnhancedTest.run sampleISOString up) = 0%Z.
Proof.
  intros down up.
  destruct (health_check_guards_run sampleISOString down)
    as [(p1 & r1 & _ & _ & D1 & _) (p2 & r2 & _ & _ & D2 & _)].
  destruct (health_check_guards_run sampleISOString up)
    as [(p3 & r3 & _ & _ & _ & U3) (p4 & r4 & _ & _ & _ & U4)].
  split; [|split; [|split]].
  - apply D1. unfold down, sampleWorld, server. rewrite last_snoc. reflexivity.
  - apply D2. unfold down, sampleWorld, server. rewrite last_snoc. reflexivity.
  - apply U3; [|intros asked; reflexivity].
    unfold up, sampleWorld, server. rewrite last_snoc. reflexivity.
  - apply U4; [|intros asked; reflexivity].
    unfold up, sampleWorld, server. rewrite last_snoc. reflexivity.
Defined.

(** C9 in a world whose server is healthy and stores nothing, and in a
    world whose queries get no answer. *)
Lemma query_outcomes_sample :
  let empty := queryWorld (Response 200 noResults) in
  let silent := queryWorld (NoResponse "timeout of 10000ms exceeded") in
  EnhancedTest.queryPrometheus sampleISOString "demo_gauge" "Demo Gauge" empty []
  = (Normal tt,
     [ConsoleLog "Querying: " [Str "Demo Gauge"];
      ConsoleLog "   Query: " [Str "demo_gauge"];
      queryGet empty "demo_gauge";
      ConsoleLog "   Status: " [Str "success"];
      ConsoleLog "   No data found for this query" []])
  /\ EnhancedTest.queryPrometheus sampleISOString "demo_gauge" "Demo Gauge"
       silent []
     = (Normal tt,
        [ConsoleLog "Querying: " [Str "Demo Gauge"];
         ConsoleLog "   Query: " [Str "demo_gauge"];
         queryGet silent "demo_gauge";
         ConsoleError "   Error querying Prometheus: "
           [Str "timeout of 10000ms exceeded"]])
  /\ exists pre rest,
       snd (EnhancedTest.run sampleISOString silent)
       = pre ++ healthGet silent :: rest
       /\ filter isGet rest
          = map (queryGet silent)
              ["demo_counter_total"; "demo_gauge"; "http_requests_total";
               "http_request_duration_seconds"; "custom_metric"].
Proof.
  intros empty silent.
  destruct (query_outcomes sampleISOString empty) as [Q _].
  destruct (Q [] "demo_gauge" "Demo Gauge") as [E _].
  destruct (query_outcomes sampleISOString silent) as [Q' (pre & rest & R & _ & G)].
  destruct (Q' [] "demo_gauge" "Demo Gauge") as [_ N].
  split; [|split].
  - apply (E 200%Z noResults); [reflexivity|lia|reflexivity].
  - apply (N "timeout of 10000ms exceeded"). reflexivity.
  - exists pre, rest. split; [exact R|].
    apply G; [|intros asked; reflexivity].
    unfold silent, queryWorld, sampleWorld, server. rewrite last_snoc.
    reflexivity.
Defined.

(** C10 on the sample text. *)
Lemma scraped_request_passes_validation_sample :
  let timeseries := Client.timeseries sampleParseFloat 1700000000000 sampleText in
  Forall (fun t =>
            exists name scraped value,
              TimeSeries.labels t = Label.mk "__name__" name :: scraped
              /\ TimeSeries.samples t
                 = [Sample.mk (sampleParseFloat value) 1700000000000])
    timeseries
  /\ Protobuf.WriteRequest_verify (JS.writeRequest timeseries) = None
  /\ exists output,
       Client.encodeWriteRequest storeCompress (JS.writeRequest timeseries)
       = Return output.
Proof.
  apply (scraped_request_passes_validation sampleParseFloat storeCompress
           1700000000000 sampleText).
  lia.
Defined.

(** ** Sample runs *)

(** The patterns of three numbers: 1700000000000, its opposite less one,
    and the integrality of 42.0, 23.5 and 1.5. *)
Example number_patterns :
  Number.ofInteger 1700000000000%Z = 4789786004267466752%Z
  /\ Number.ofInteger (-1700000000001)%Z = 14013158041122246656%Z
  /\ Number.toInteger 14013158041122246656%Z = (-1700000000001)%Z
  /\ map Number.isInteger
       [4631107791820423168%Z; 4627307879634829312%Z; 4609434218613702656%Z]
     = [true; false; false].
Proof. repeat split. Qed.

(** The bytes of a sample of value 42.0 at time 1700000000000: the tag 09
    and the eight bytes of the double, the tag 10 and the varint of the
    time. *)
Example sample_bytes :
  Protobuf.Sample_encode
    (JS.sample (Sample.mk 4631107791820423168%Z 1700000000000%Z))
  = [x09; x00; x00; x00; x00; x00; x00; x45; x40;
     x10; x80; xd0; x95; xff; xbc; x31].
Proof. reflexivity. Qed.

(** The bytes of a label: the tag 0a, the length and the text of the name,
    the tag 12, the length and the text of the value. *)
Example label_bytes :
  Protobuf.Label_encode (JS.label (Label.mk "a" "bc"))
  = [x0a; x01; x61; x12; x02; x62; x63].
Proof. reflexivity. Qed.

(** The scrape of the sample text. *)
Example sample_scrape :
  Client.timeseries sampleParseFloat 1700000000000 sampleText
  = [TimeSeries.mk
       [Label.mk "__name__" "demo_counter_total"; Label.mk "service" "demo-service"]
       [Sample.mk 4631107791820423168%Z 1700000000000%Z];
     TimeSeries.mk [Label.mk "__name__" "demo_gauge"]
       [Sample.mk 4631107791820423168%Z 1700000000000%Z]].
Proof. reflexivity. Qed.

(** A server that does not answer the health check: exit code 1, and the
    health check is the only request. *)
Example run_without_server :
  let w := sampleWorld (NoResponse "connect ECONNREFUSED")
             (NoResponse "connect ECONNREFUSED")
             (NoResponse "connect ECONNREFUSED") in
  fst (SimpleTest.run w) = 1%Z
  /\ filter isRequest (snd (SimpleTest.run w)) = [healthGet w].
Proof. vm_compute. split; reflexivity. Qed.

(** A healthy server that stores nothing: exit code 0; the push, then the
    query, answered by an empty result and reported as such. *)
Example run_without_data :
  let w := sampleWorld (Response 200 JNull) (Response 204 JNull)
             (Response 200 noResults) in
  fst (SimpleTest.run w) = 0%Z
  /\ map isWrite (filter isRequest (snd (SimpleTest.run w))) = [false; true; false]
  /\ In (ConsoleLog "   No data found for this query" []) (snd (SimpleTest.run w))
  /\ filter isConsoleError (snd (SimpleTest.run w)) = [].
Proof.
  vm_compute. repeat split.
  repeat match goal with |- _ \/ _ => (left; reflexivity) || right end.
Qed.

(** A healthy server whose queries time out: each of the five is made and
    reported as failed, and the exit code is 0. *)
Example run_with_failing_queries :
  let w := sampleWorld (Response 200 JNull) (Response 204 JNull)
             (NoResponse "timeout of 10000ms exceeded") in
  let run := EnhancedTest.run (fun _ => Some "2023-11-14T22:13:20.000Z") w in
  fst run = 0%Z
  /\ filter isGet (snd run)
     = healthGet w :: map (queryGet w) (map fst EnhancedTest.queries)
  /\ filter isConsoleError (snd run)
     = repeat (ConsoleError "   Error querying Prometheus: "
                 [Str "timeout of 10000ms exceeded"]) 5.
Proof. vm_compute. repeat split. Qed.

(** * The further properties on sample inputs *)

(** X2 on the second series of the sample text. *)
Lemma scraped_series_well_formed_sample :
  exists name scraped value,
    TimeSeries.labels
      (TimeSeries.mk [Label.mk "__name__" "demo_gauge"]
         [Sample.mk (sampleParseFloat "23.5") 1700000000000])
    = Label.mk "__name__" name :: scraped
    /\ metricName name = true
    /\ Forall (fun l => scrapedLabel l = true) scraped
    /\ decimal value = true
    /\ TimeSeries.samples
         (TimeSeries.mk [Label.mk "__name__" "demo_gauge"]
            [Sample.mk (sampleParseFloat "23.5") 1700000000000])
       = [Sample.mk (sampleParseFloat value) 1700000000000].
Proof.
  apply (scraped_series_well_formed sampleParseFloat 1700000000000 sampleText).
  vm_compute. right. left. reflexivity.
Defined.

(** X6 on a line that carries a timestamp of the exposition format. *)
Lemma trailing_text_ignored_sample :
  Client.timeseries sampleParseFloat 1700000000000
    (grammarLine "demo_gauge" None " " "23.5" +++ " 1699999999000")
  = Client.timeseries sampleParseFloat 1700000000000
      (grammarLine "demo_gauge" None " " "23.5").
Proof.
  apply (trailing_text_ignored sampleParseFloat 1700000000000
           "demo_gauge" None " " "23.5" " 1699999999000");
    reflexivity.
Defined.

(** X7 on a line whose value is not a number. *)
Lemma non_decimal_value_skipped_sample :
  Client.timeseries sampleParseFloat 1700000000000
    ("demo_summary" +++ blockText None +++ " " +++ String "N" "aN")
  = [].
Proof.
  apply (non_decimal_value_skipped sampleParseFloat 1700000000000
           "demo_summary" None " " "N" "aN");
    reflexivity.
Defined.

(** X8 on a line whose endpoint label holds a pair of braces. *)
Lemma brace_in_label_value_drops_line_sample :
  Client.timeseries sampleParseFloat 1700000000000
    ("http_requests_total" +++ "{"
     +++ ("endpoint=" +++ str DQ +++ "/api/{id") +++ "}"
     +++ (str DQ +++ "} 5"))
  = [].
Proof.
  apply (brace_in_label_value_drops_line sampleParseFloat 1700000000000
           "http_requests_total" ("endpoint=" +++ str DQ +++ "/api/{id")
           (str DQ +++ "} 5"));
    reflexivity.
Defined.

(** X11 on a text of one comment line, in a world whose server accepts the
    write. *)
Lemma unmatched_text_still_posted_sample :
  let w := registryWorld (Exposition "# HELP demo_gauge A demo gauge") in
  Client.sendMetricsToPrometheus storeCompress sampleParseFloat w []
  = (Normal tt,
     [AxiosPost "http://localhost:9090/api/v1/write" []
        [("Content-Type", "application/x-protobuf");
         ("Content-Encoding", "snappy");
         ("X-Prometheus-Remote-Write-Version", "0.1.0")]
        5000;
      ConsoleLog "Metrics sent to Prometheus at " [Time 1700000000000%Z];
      ConsoleLog "   Response status: " [Int 200]]).
Proof.
  intros w.
  destruct (unmatched_text_still_posted storeCompress sampleParseFloat w []
              "# HELP demo_gauge A demo gauge" eq_refl) as [E _].
  - repeat constructor.
  - exact E.
Defined.

(** X12 in a world whose registry rejects. *)
Lemma encode_failure_sends_nothing_sample :
  exists t',
    Client.sendMetricsToPrometheus storeCompress sampleParseFloat
      (registryWorld (Rejected "registry closed")) []
    = (Normal tt,
       [] ++ ConsoleError "Failed to send metrics to Prometheus: "
               [Str (messageOf (Error "registry closed"))] :: t')
    /\ filter isRequest
         (ConsoleError "Failed to send metrics to Prometheus: "
            [Str (messageOf (Error "registry closed"))] :: t') = [].
Proof.
  apply (encode_failure_sends_nothing storeCompress sampleParseFloat
           (registryWorld (Rejected "registry closed")) []
           (Error "registry closed")).
  reflexivity.
Defined.

(** X13 in a world whose server answers the write with status 500 and a
    body that cannot be written into the log: the send rejects. *)
Lemma full_path_report_sample :
  let w := sampleWorld (Response 200 JNull) (Response 500 unprintableBody)
             (NoResponse "timeout") in
  Client.sendMetricsToPrometheus storeCompress sampleParseFloat w []
  = (Thrown notPrintable,
     [AxiosPost "http://localhost:9090/api/v1/write"
        (encodedBytes
           (Client.timeseries sampleParseFloat 1700000000000 sampleText))
        [("Content-Type", "application/x-protobuf");
         ("Content-Encoding", "snappy");
         ("X-Prometheus-Remote-Write-Version", "0.1.0")]
        5000;
      ConsoleError "Failed to send metrics to Prometheus: "
        [Str "Request failed with status code 500"];
      ConsoleError "   Response status: " [Int 500]]).
Proof.
  intros w.
  exact (full_path_report storeCompress sampleParseFloat w []
           (encodedBytes
              (Client.timeseries sampleParseFloat 1700000000000 sampleText))
           eq_refl).
Defined.

(** X20 on a response with status 200 whose body reports an error, on a
    response with status 503 and a text for body, and on a response with
    status 500 whose body cannot be written into the log. *)
Lemma query_failure_reports_sample :
  let bad :=
    JObject [("status", JString "error"); ("error", JString "bad_data")] in
  EnhancedTest.queryPrometheus sampleISOString "demo_gauge" "Demo Gauge"
    (queryWorld (Response 200 bad)) []
  = (Normal tt,
     [ConsoleLog "Querying: " [Str "Demo Gauge"];
      ConsoleLog "   Query: " [Str "demo_gauge"];
      queryGet (queryWorld (Response 200 bad)) "demo_gauge";
      ConsoleLog "   Query failed: " [Str "bad_data"]])
  /\ EnhancedTest.queryPrometheus sampleISOString "demo_gauge" "Demo Gauge"
       (queryWorld (Response 503 (JString "Service Unavailable"))) []
     = (Normal tt,
        [ConsoleLog "Querying: " [Str "Demo Gauge"];
         ConsoleLog "   Query: " [Str "demo_gauge"];
         queryGet (queryWorld (Response 503 (JString "Service Unavailable")))
           "demo_gauge";
         ConsoleError "   Error querying Prometheus: "
           [Str "Request failed with status code 503"];
         ConsoleError "      Status: " [Int 503];
         ConsoleError "      Data: " [Json (JString "Service Unavailable")]])
  /\ EnhancedTest.queryPrometheus sampleISOString "demo_gauge" "Demo Gauge"
       (queryWorld (Response 500 unprintableBody)) []
     = (Thrown notPrintable,
        [ConsoleLog "Querying: " [Str "Demo Gauge"];
         ConsoleLog "   Query: " [Str "demo_gauge"];
         queryGet (queryWorld (Response 500 unprintableBody)) "demo_gauge";
         ConsoleError "   Error querying Prometheus: "
           [Str "Request failed with status code 500"];
         ConsoleError "      Status: " [Int 500]]).
Proof.
  intros bad.
  destruct (query_failure_reports sampleISOString
              (queryWorld (Response 200 bad)) [] "demo_gauge" "Demo Gauge"
              200 bad eq_refl) as [A _].
  destruct (query_failure_reports sampleISOString
              (queryWorld (Response 503 (JString "Service Unavailable"))) []
              "demo_gauge" "Demo Gauge" 503 (JString "Service Unavailable")
              eq_refl) as [_ B].
  destruct (query_failure_reports sampleISOString
              (queryWorld (Response 500 unprintableBody)) []
              "demo_gauge" "Demo Gauge" 500 unprintableBody eq_refl)
    as [_ C].
  split; [|split].
  - apply (A (PrometheusResponse.mk "error" None (Some "bad_data")));
      [lia|reflexivity|discriminate].
  - apply B. lia.
  - apply C. lia.
Defined.

(** X21 on a response with two results. *)
Lemma simple_query_lists_results_sample :
  let results := [sampleEntry 0%Z; sampleEntry 1%Z] in
  let w := queryWorld
             (Response 200
                (PrometheusResponse_toJS
                   (PrometheusResponse.mk "success" (Some results) None))) in
  SimpleTest.queryPrometheus w []
  = (Normal tt,
     simpleAsked w []
     ++ [ConsoleLog "   Status: " [Str "success"];
         ConsoleLog "   Found  result(s):" [Int (Z.of_nat (List.length results))]]
     ++ numbered resultLine 0 results).
Proof.
  intros results w.
  apply (simple_query_lists_results w [] 200
           (PrometheusResponse_toJS
              (PrometheusResponse.mk "success" (Some results) None))
           results None).
  - reflexivity.
  - reflexivity.
  - lia.
  - discriminate.
Defined.

(** X22 on a response with two results at valid times. *)
Lemma enhanced_query_lists_results_sample :
  let results := [sampleEntry 0%Z; sampleEntry 1%Z] in
  let w := queryWorld
             (Response 200
                (PrometheusResponse_toJS
                   (PrometheusResponse.mk "success" (Some results) None))) in
  EnhancedTest.queryPrometheus sampleISOString "demo_counter_total" "Demo Counter"
    w []
  = (Normal tt,
     queryAsked w [] "demo_counter_total" "Demo Counter"
     ++ [ConsoleLog "   Status: " [Str "success"];
         ConsoleLog "   Found  result(s):" [Int (Z.of_nat (List.length results))]]
     ++ numbered (timedLine sampleISOString) 0 results).
Proof.
  intros results w.
  apply (enhanced_query_lists_results sampleISOString w []
           "demo_counter_total" "Demo Counter" 200
           (PrometheusResponse_toJS
              (PrometheusResponse.mk "success" (Some results) None))
           results None).
  - reflexivity.
  - reflexivity.
  - lia.
  - discriminate.
  - repeat constructor; eexists; reflexivity.
Defined.

(** X23 on a response whose second result has a time that is not a number. *)
Lemma invalid_time_aborts_listing_sample :
  let ok := [sampleEntry 0%Z] in
  let bad := sampleEntry notANumber in
  let rest := [sampleEntry 1%Z] in
  let w := queryWorld
             (Response 200
                (PrometheusResponse_toJS
                   (PrometheusResponse.mk "success" (Some (ok ++ bad :: rest))
                      None))) in
  EnhancedTest.queryPrometheus sampleISOString "demo_counter_total" "Demo Counter"
    w []
  = (Normal tt,
     queryAsked w [] "demo_counter_total" "Demo Counter"
     ++ [ConsoleLog "   Status: " [Str "success"];
         ConsoleLog "   Found  result(s):"
           [Int (Z.of_nat (List.length (ok ++ bad :: rest)))]]
     ++ numbered (timedLine sampleISOString) 0 ok
     ++ [ConsoleError "   Error querying Prometheus: " [Str "Invalid time value"]]).
Proof.
  intros ok bad rest w.
  apply (invalid_time_aborts_listing sampleISOString w []
           "demo_counter_total" "Demo Counter" 200
           (PrometheusResponse_toJS
              (PrometheusResponse.mk "success" (Some (ok ++ bad :: rest)) None))
           ok bad rest None).
  - reflexivity.
  - reflexivity.
  - lia.
  - repeat constructor; eexists; reflexivity.
  - reflexivity.
Defined.

(** X24 in a world whose server is healthy and whose queries get no
    answer. *)
Lemma test_main_rejects_only_unreported_sample :
  let w := queryWorld (NoResponse "timeout") in
  (exists t,
      SimpleTest.main w [] = (Normal tt, t)
      \/ SimpleTest.main w [] = (Exited 1, t))
  /\ (exists t,
        EnhancedTest.main sampleISOString w [] = (Normal tt, t)
        \/ EnhancedTest.main sampleISOString w [] = (Exited 1, t)).
Proof.
  intros w.
  apply (test_main_rejects_only_unreported sampleISOString w).
  intros asked. reflexivity.
Defined.

(** X26 in a world whose server accepts every request and whose queries get
    no answer. *)
Lemma enhanced_test_queries_unpushed_metrics_sample :
  let w := queryWorld (NoResponse "timeout") in
  exists metrics,
    In (PushMetrics metrics (baseUrl w +++ "/api/v1/write")
          [("X-Prometheus-Remote-Write-Version", "0.1.0")])
      (snd (EnhancedTest.run sampleISOString w))
    /\ In (queryGet w "http_requests_total")
         (snd (EnhancedTest.run sampleISOString w))
    /\ In (queryGet w "http_request_duration_seconds")
         (snd (EnhancedTest.run sampleISOString w))
    /\ ~ In "http_requests_total" (map fst metrics)
    /\ ~ In "http_request_duration_seconds" (map fst metrics).
Proof.
  intros w.
  apply (enhanced_test_queries_unpushed_metrics sampleISOString w).
  - reflexivity.
  - intros asked. reflexivity.
Defined.
